(** * dirdb: a shallow embedding of [dirdb.py] and its properties

    The development follows the layout of the program:
    - [Py]: the few Python primitives the program relies on (string
      helpers, [str()], exceptions as a result type);
    - [Sqlite]: the fragment of SQLite that the statements built by the
      program exercise, executed from the statement TEXT, because the
      program builds every statement by string interpolation;
    - [Fingerprint]: [hash_file] and [hash_file_partial];
    - [Md5]: the digest [hashlib.md5] computes, for runs on concrete
      files;
    - [Planner]: the loops of [gen_sync_script] and its closing report;
    - [Os]: the file tree behind [os.walk], [os.path] and [os.stat];
    - [Engine]: [find_files], [process_dbpath], [update_paths], and the
      opening of the catalogs for [gen_sync_script];
    - [Scenarios]: the concrete catalogs and trees of the examples;
    - [Forms]: the records [update_paths] inserts and the catalogs it
      leaves;
    - [Dups]: the block of [update_paths] under [--list-dups];
    - [Driver]: the block under [__main__].

    The properties follow the definitions, module by module.

    Strings are sequences of characters with codes below 256.  The
    tokenizer of SQLite only tells ASCII characters apart, so how the
    others are encoded does not matter to it. *)

From Stdlib Require Import ZArith NArith List String Ascii Bool Lia.
From Stdlib Require Import DecimalString DecimalN DecimalZ.
From Stdlib Require Import Strings.Byte.
Import ListNotations.

Local Open Scope string_scope.
Local Open Scope list_scope.
Local Open Scope Z_scope.

(** Concatenation of strings, written apart from the one of lists. *)
Infix "+++" := String.append (at level 60, right associativity).

(* ================================================================== *)
(** * Python primitives *)
(* ================================================================== *)

Module Py.

(** Exceptions the modelled code can raise, and the places where it
    calls [pdb.set_trace()]. *)
Inductive exn :=
| OperationalError   (* sqlite3: the statement text is not valid SQL *)
| TypeError
| IndexError
| OverflowError
| OSError
| KeyError
| Pdb_l_num_zero     (* gen_sync_script, [if l_num == 0] *)
| Pdb_unmatched_l    (* gen_sync_script, "unmatched" *)
| Pdb_unmatched_r    (* gen_sync_script, "unmatched r" *)
| Pdb_unmatched_l2   (* gen_sync_script, "unmatched l" *)
| Pdb_not_found.     (* gen_sync_script, [if not found and r_num > 0] *)

(** The outcome of running a piece of the program.  [Unmodelled] marks a
    run that leaves the modelled fragment (a statement text that is
    neither of a shape the model executes nor certainly rejected). *)
Inductive result (A : Type) :=
| Ok (a : A)
| Raise (e : exn)
| Unmodelled.

Arguments Ok {A} a.
Arguments Raise {A} e.
Arguments Unmodelled {A}.

Definition bind {A B} (m : result A) (k : A -> result B) : result B :=
  match m with
  | Ok a => k a
  | Raise e => Raise e
  | Unmodelled => Unmodelled
  end.

(** [for x in xs: st = body(x, st)] with exceptions. *)
Fixpoint for_each {A S} (body : A -> S -> result S) (xs : list A) (st : S)
  : result S :=
  match xs with
  | [] => Ok st
  | x :: xs' => bind (body x st) (for_each body xs')
  end.

(** ** Characters and strings *)

Definition NL : ascii := "010"%char.
Definition TAB : ascii := "009"%char.
Definition DQ : ascii := "034"%char.
Definition SQ : ascii := "039"%char.

Definition nl : string := String NL "".
Definition tab : string := String TAB "".
Definition dq : string := String DQ "".

(** [c in s] for a character. *)
Fixpoint mem_char (c : ascii) (s : string) : bool :=
  match s with
  | "" => false
  | String a s' => Ascii.eqb a c || mem_char c s'
  end.

(** [s.startswith(p)] *)
Definition startswith (s p : string) : bool := String.prefix p s.

(** [s.rstrip("/")] *)
Fixpoint rstrip_slash (s : string) : string :=
  match s with
  | "" => ""
  | String c s' =>
      match rstrip_slash s' with
      | "" => if Ascii.eqb c "/" then "" else String c ""
      | t => String c t
      end
  end.

(** [s[n:]] *)
Fixpoint drop (n : nat) (s : string) : string :=
  match n, s with
  | O, _ => s
  | S n', String _ s' => drop n' s'
  | S _, "" => ""
  end.

(** [os.path.dirname(p)]: everything before the last slash, with the
    trailing slashes of that head removed unless it consists of slashes
    only (posixpath). *)
Fixpoint split_last_slash (s : string) : option (string * string) :=
  match s with
  | "" => None
  | String c s' =>
      match split_last_slash s' with
      | Some (h, t) => Some (String c h, t)
      | None => if Ascii.eqb c "/" then Some ("", s') else None
      end
  end.

Fixpoint all_slashes (s : string) : bool :=
  match s with
  | "" => true
  | String c s' => Ascii.eqb c "/" && all_slashes s'
  end.

Definition dirname (p : string) : string :=
  match split_last_slash p with
  | None => ""
  | Some (h, _) =>
      let head := h +++ "/" in
      if all_slashes head then head else rstrip_slash head
  end.

(** [str(n)] for an integer. *)
Definition str_Z (z : Z) : string := NilZero.string_of_int (Z.to_int z).

(** [xs == ys] on lists, from the equality of the elements. *)
Fixpoint list_eqb {A} (eqb : A -> A -> bool) (xs ys : list A) : bool :=
  match xs, ys with
  | [], [] => true
  | x :: xs', y :: ys' => eqb x y && list_eqb eqb xs' ys'
  | _, _ => false
  end.

(** [x in xs] with a boolean equality. *)
Definition mem {A} (eqb : A -> A -> bool) (x : A) (xs : list A) : bool :=
  existsb (eqb x) xs.

End Py.

Import Py.

Notation "x <- m ;; k" := (Py.bind m (fun x => k))
  (at level 61, m at next level, right associativity).

(* ================================================================== *)
(** * The SQLite fragment *)
(* ================================================================== *)

(** The program hands SQLite statement texts it has built with
    f-strings.  What a statement does therefore depends on how SQLite
    reads the interpolated text, so the model executes TEXT: a tokenizer
    for SQLite's lexical classes, a recogniser for the statement shapes
    of [dirdb.py], and their effect on the two relations the program
    uses.  A text with an unterminated quoted token is rejected
    whatever surrounds it (the model names every rejection
    [OperationalError]); a text that tokenizes but is not one of the
    shapes is [Unmodelled].  Double-quoted tokens that name no column are
    read as string literals, as SQLite does by default. *)

Module Sqlite.

(** Storage classes the program can produce or compare. *)
Inductive value :=
| VNull
| VInt (z : Z)
| VText (s : string).

(** A row of [files(filename, relpath, size, hash, parthash)].  The
    columns are declared without a type, so a value is stored with the
    storage class of the literal that was inserted. *)
Record frow := FRow {
  filename : value;
  relpath : value;
  size : value;
  hash : value;
  parthash : value
}.

(** A catalog: the relations [files] and [sub_dbs(relpath)].  The
    relation [config] is created by the program and never read or
    written, and is left out. *)
Record db := Db {
  files : list frow;
  sub_dbs : list value
}.

Definition empty_db : db := Db [] [].

(** Python's [==] on the values a [sqlite3.Row] holds ([None], [int],
    [str]). *)
Definition py_eqb (a b : value) : bool :=
  match a, b with
  | VNull, VNull => true
  | VInt x, VInt y => Z.eqb x y
  | VText s, VText t => String.eqb s t
  | _, _ => false
  end.

(** Python's [str(v)], which is what an f-string interpolates. *)
Definition py_str (v : value) : string :=
  match v with
  | VNull => "None"
  | VInt z => str_Z z
  | VText s => s
  end.

(** SQL [a == b] without affinity: values of different storage classes
    differ, and a comparison with NULL is not true. *)
Definition sql_eqb (a b : value) : bool :=
  match a, b with
  | VInt x, VInt y => Z.eqb x y
  | VText s, VText t => String.eqb s t
  | _, _ => false
  end.

(** SQL [a > n] for an integer literal [n]: TEXT sorts after every
    number, NULL compares as not true. *)
Definition sql_gtb_int (a : value) (n : Z) : bool :=
  match a with
  | VNull => false
  | VInt x => Z.ltb n x
  | VText _ => true
  end.

(** ** Tokens *)

Inductive token :=
| TId (s : string)      (* bare word: keyword or identifier *)
| TInt (z : Z)          (* integer literal *)
| TDq (s : string)      (* "..." with "" standing for one quote *)
| TSq (s : string)      (* '...' with '' standing for one quote *)
| TEq                   (* = or == *)
| TSym (c : ascii)      (* any other single character *)
| TOther.               (* a token outside the modelled fragment *)

Definition is_space (c : ascii) : bool :=
  let n := nat_of_ascii c in
  (n =? 32)%nat || (n =? 9)%nat || (n =? 10)%nat || (n =? 12)%nat
  || (n =? 13)%nat.

Definition is_digit (c : ascii) : bool :=
  let n := nat_of_ascii c in (48 <=? n)%nat && (n <=? 57)%nat.

Definition is_idstart (c : ascii) : bool :=
  let n := nat_of_ascii c in
  ((65 <=? n)%nat && (n <=? 90)%nat)
  || ((97 <=? n)%nat && (n <=? 122)%nat)
  || (n =? 95)%nat || (128 <=? n)%nat.

Definition is_idchar (c : ascii) : bool :=
  is_idstart c || is_digit c || (nat_of_ascii c =? 36)%nat.

(** The tokenizer is a machine over the characters of the text. *)
Inductive lmode :=
| LStart
| LWord (acc : string)
| LNum (acc : string)
| LJunk                       (* a number glued to letters, and the like *)
| LDq (acc : string)          (* inside "..." *)
| LDqQ (acc : string)         (* inside "...", just after a quote *)
| LSq (acc : string)
| LSqQ (acc : string)
| LBt                         (* inside `...` *)
| LBtQ
| LBr                         (* inside [...] *)
| LMinus                      (* after - *)
| LLine                       (* inside a -- comment *)
| LSlash                      (* after / *)
| LBlock                      (* inside a block comment *)
| LBlockStar                  (* inside a block comment, after * *)
| LEq.                        (* after = *)

Definition snoc (s : string) (c : ascii) : string := s +++ String c "".

Definition max_int64 : Z := 9223372036854775807.

(** An integer literal beyond 64 bits is read as a REAL by SQLite. *)
Definition num_token (digits : string) : token :=
  match NilZero.uint_of_string digits with
  | Some d =>
      let z := Z.of_N (N.of_uint d) in
      if z <=? max_int64 then TInt z else TOther
  | None => TOther
  end.

Definition lstart (c : ascii) : lmode * list token :=
  if is_space c then (LStart, [])
  else if is_digit c then (LNum (String c ""), [])
  else if is_idstart c then (LWord (String c ""), [])
  else if Ascii.eqb c DQ then (LDq "", [])
  else if Ascii.eqb c SQ then (LSq "", [])
  else if Ascii.eqb c "`" then (LBt, [])
  else if Ascii.eqb c "[" then (LBr, [])
  else if Ascii.eqb c "-" then (LMinus, [])
  else if Ascii.eqb c "/" then (LSlash, [])
  else if Ascii.eqb c "=" then (LEq, [])
  else if (nat_of_ascii c =? 0)%nat then (LJunk, [])
  else (LStart, [TSym c]).

(** End the pending token [t], then read [c] afresh. *)
Definition emit_then (t : token) (c : ascii) : lmode * list token :=
  let '(m, ts) := lstart c in (m, t :: ts).

Definition lstep (m : lmode) (c : ascii) : lmode * list token :=
  match m with
  | LStart => lstart c
  | LWord acc =>
      if is_idchar c then (LWord (snoc acc c), [])
      else emit_then (TId acc) c
  | LNum acc =>
      if is_digit c then (LNum (snoc acc c), [])
      else if is_idchar c || Ascii.eqb c "." then (LJunk, [])
      else emit_then (num_token acc) c
  | LJunk =>
      if is_idchar c || Ascii.eqb c "." then (LJunk, [])
      else emit_then TOther c
  | LDq acc =>
      if Ascii.eqb c DQ then (LDqQ acc, []) else (LDq (snoc acc c), [])
  | LDqQ acc =>
      if Ascii.eqb c DQ then (LDq (snoc acc DQ), [])
      else emit_then (TDq acc) c
  | LSq acc =>
      if Ascii.eqb c SQ then (LSqQ acc, []) else (LSq (snoc acc c), [])
  | LSqQ acc =>
      if Ascii.eqb c SQ then (LSq (snoc acc SQ), [])
      else emit_then (TSq acc) c
  | LBt => if Ascii.eqb c "`" then (LBtQ, []) else (LBt, [])
  | LBtQ => if Ascii.eqb c "`" then (LBt, []) else emit_then TOther c
  | LBr => if Ascii.eqb c "]" then (LStart, [TOther]) else (LBr, [])
  | LMinus => if Ascii.eqb c "-" then (LLine, []) else emit_then TOther c
  | LLine => if Ascii.eqb c NL then (LStart, []) else (LLine, [])
  | LSlash => if Ascii.eqb c "*" then (LBlock, []) else emit_then TOther c
  | LBlock => if Ascii.eqb c "*" then (LBlockStar, []) else (LBlock, [])
  | LBlockStar =>
      if Ascii.eqb c "/" then (LStart, [])
      else if Ascii.eqb c "*" then (LBlockStar, [])
      else (LBlock, [])
  | LEq => if Ascii.eqb c "=" then (LStart, [TEq]) else emit_then TEq c
  end.

(** At the end of the text: [None] when a quoted token is still open
    (SQLite's "unrecognized token"). *)
Definition lfinish (m : lmode) : option (list token) :=
  match m with
  | LStart | LLine | LBlock | LBlockStar => Some []
  | LWord acc => Some [TId acc]
  | LNum acc => Some [num_token acc]
  | LJunk | LBtQ | LMinus | LSlash => Some [TOther]
  | LDqQ acc => Some [TDq acc]
  | LSqQ acc => Some [TSq acc]
  | LEq => Some [TEq]
  | LDq _ | LSq _ | LBt | LBr => None
  end.

Fixpoint lex_from (m : lmode) (s : string) : option (list token) :=
  match s with
  | "" => lfinish m
  | String c s' =>
      let '(m', ts) := lstep m c in
      match lex_from m' s' with
      | Some rest => Some (ts ++ rest)
      | None => None
      end
  end.

Definition tokenize (sql : string) : option (list token) :=
  lex_from LStart sql.

(** The same machine read piecewise: the mode reached and the tokens
    completed after a piece of text.  Statement texts are concatenations,
    and the proofs follow them piece by piece. *)
Fixpoint scan (m : lmode) (s : string) : lmode * list token :=
  match s with
  | "" => (m, [])
  | String c s' =>
      let '(m1, ts) := lstep m c in
      let '(m2, ts') := scan m1 s' in
      (m2, ts ++ ts')
  end.

Fixpoint all_digits (s : string) : bool :=
  match s with
  | "" => true
  | String c s' => is_digit c && all_digits s'
  end.

(** ** Statements *)

(** The statement shapes [dirdb.py] builds.  [tok] is the content of a
    double-quoted token, which SQLite reads as a column name when there
    is such a column and as a string literal otherwise. *)
Inductive stmt :=
| SelectBySize (n : Z)            (* ... FROM files WHERE size == n *)
| SelectAll                       (* ... FROM files *)
| SelectPositive                  (* ... FROM files WHERE size > 0 *)
| SelectByKey (n : Z) (p : string)
      (* ... FROM files WHERE size == n AND parthash == 'p' *)
| InsertFile (f rel : string) (n : Z) (h p : string)
| SelectSubDbs
| DeleteSubDb (tok : string)
| DeleteFile (tok : string).

Definition token_eqb (a b : token) : bool :=
  match a, b with
  | TId s, TId t => String.eqb s t
  | TInt x, TInt y => Z.eqb x y
  | TDq s, TDq t => String.eqb s t
  | TSq s, TSq t => String.eqb s t
  | TEq, TEq => true
  | TSym c, TSym d => Ascii.eqb c d
  | TOther, TOther => true
  | _, _ => false
  end.

(** [strip pre ts]: what follows [pre] in [ts]. *)
Fixpoint strip (pre ts : list token) : option (list token) :=
  match pre, ts with
  | [], _ => Some ts
  | p :: pre', t :: ts' => if token_eqb p t then strip pre' ts' else None
  | _ :: _, [] => None
  end.

(** The tokens of a fixed piece of statement text. *)
Definition fixed (text : string) : list token :=
  match tokenize text with
  | Some ts => ts
  | None => []
  end.

Definition head_select5 : list token :=
  Eval vm_compute in
    fixed "SELECT filename, relpath, size, hash, parthash FROM files".
Definition head_select4 : list token :=
  Eval vm_compute in fixed "SELECT filename, relpath, size, hash FROM files".
Definition head_select_star : list token :=
  Eval vm_compute in fixed "SELECT * FROM files".
Definition head_insert : list token :=
  Eval vm_compute in fixed "INSERT INTO files VALUES (".
Definition head_select_sub : list token :=
  Eval vm_compute in fixed "SELECT relpath FROM sub_dbs".
Definition head_delete_sub : list token :=
  Eval vm_compute in fixed "DELETE FROM sub_dbs WHERE relpath ==".
Definition head_delete_file : list token :=
  Eval vm_compute in fixed "DELETE FROM files WHERE relpath ==".
Definition where_size_eq : list token :=
  Eval vm_compute in fixed "WHERE size ==".
Definition where_size_gt0 : list token :=
  Eval vm_compute in fixed "WHERE size > 0".
Definition and_parthash_eq : list token :=
  Eval vm_compute in fixed "AND parthash ==".

Definition parse_where (ts : list token) : option stmt :=
  match ts with
  | [] => Some SelectAll
  | _ =>
      match strip where_size_gt0 ts with
      | Some [] => Some SelectPositive
      | _ =>
          match strip where_size_eq ts with
          | Some [TInt n] => Some (SelectBySize n)
          | Some (TInt n :: rest) =>
              match strip and_parthash_eq rest with
              | Some [TSq p] => Some (SelectByKey n p)
              | _ => None
              end
          | _ => None
          end
      end
  end.

Definition first_some {A} (a b : option A) : option A :=
  match a with Some _ => a | None => b end.

Definition parse_select (ts : list token) : option stmt :=
  match first_some (strip head_select5 ts)
          (first_some (strip head_select4 ts) (strip head_select_star ts)) with
  | Some rest => parse_where rest
  | None => None
  end.

Definition parse (ts : list token) : option stmt :=
  match strip head_insert ts with
  | Some [TDq f; TSym c1; TDq rel; TSym c2; TInt n; TSym c3; TDq h;
          TSym c4; TDq p; TSym c5] =>
      if Ascii.eqb c1 "," && Ascii.eqb c2 "," && Ascii.eqb c3 ","
         && Ascii.eqb c4 "," && Ascii.eqb c5 ")"
      then Some (InsertFile f rel n h p) else None
  | Some _ => None
  | None =>
  match strip head_delete_file ts with
  | Some [TDq tok] => Some (DeleteFile tok)
  | Some _ => None
  | None =>
  match strip head_delete_sub ts with
  | Some [TDq tok] => Some (DeleteSubDb tok)
  | Some _ => None
  | None =>
  match strip head_select_sub ts with
  | Some [] => Some SelectSubDbs
  | Some _ => None
  | None => parse_select ts
  end end end end.

(** ** Execution *)

Definition lower_char (c : ascii) : ascii :=
  let n := nat_of_ascii c in
  if (65 <=? n)%nat && (n <=? 90)%nat then ascii_of_nat (n + 32) else c.

Fixpoint lower (s : string) : string :=
  match s with
  | "" => ""
  | String c s' => String (lower_char c) (lower s')
  end.

(** What a double-quoted token denotes in a WHERE clause over [files]:
    names are matched without regard to case. *)
Inductive dq_meaning :=
| Column (get : frow -> value)
| Literal (s : string)
| RowId.

Definition is_rowid_name (l : string) : bool :=
  String.eqb l "rowid" || String.eqb l "oid" || String.eqb l "_rowid_".

Definition resolve_files (tok : string) : dq_meaning :=
  let l := lower tok in
  if String.eqb l "filename" then Column filename
  else if String.eqb l "relpath" then Column relpath
  else if String.eqb l "size" then Column size
  else if String.eqb l "hash" then Column hash
  else if String.eqb l "parthash" then Column parthash
  else if is_rowid_name l then RowId
  else Literal tok.

Inductive rows :=
| FileRows (l : list frow)
| MarkerRows (l : list value)
| NoRows.

Definition keep {A} (p : A -> bool) (l : list A) : list A :=
  filter (fun x => negb (p x)) l.

Definition run (s : stmt) (d : db) : result (db * rows) :=
  match s with
  | SelectBySize n =>
      Ok (d, FileRows (filter (fun r => sql_eqb (size r) (VInt n)) (files d)))
  | SelectAll => Ok (d, FileRows (files d))
  | SelectPositive =>
      Ok (d, FileRows (filter (fun r => sql_gtb_int (size r) 0) (files d)))
  | SelectByKey n p =>
      Ok (d, FileRows
               (filter (fun r => sql_eqb (size r) (VInt n)
                                 && sql_eqb (parthash r) (VText p))
                       (files d)))
  | InsertFile f rel n h p =>
      Ok (Db (files d ++ [FRow (VText f) (VText rel) (VInt n)
                               (VText h) (VText p)])
             (sub_dbs d), NoRows)
  | SelectSubDbs => Ok (d, MarkerRows (sub_dbs d))
  | DeleteSubDb tok =>
      let l := lower tok in
      if String.eqb l "relpath"
      then Ok (Db (files d) (keep (fun v => sql_eqb v v) (sub_dbs d)), NoRows)
      else if is_rowid_name l then Unmodelled
      else Ok (Db (files d) (keep (fun v => sql_eqb v (VText tok)) (sub_dbs d)),
               NoRows)
  | DeleteFile tok =>
      match resolve_files tok with
      | Column get =>
          Ok (Db (keep (fun r => sql_eqb (relpath r) (get r)) (files d))
                 (sub_dbs d), NoRows)
      | Literal s =>
          Ok (Db (keep (fun r => sql_eqb (relpath r) (VText s)) (files d))
                 (sub_dbs d), NoRows)
      | RowId => Unmodelled
      end
  end.

(** [cursor.execute(sql)] on a connection whose catalog is [d]. *)
Definition execute (d : db) (sql : string) : result (db * rows) :=
  match tokenize sql with
  | None => Raise OperationalError
  | Some ts =>
      match parse ts with
      | Some s => run s d
      | None => Unmodelled
      end
  end.

(** [cursor.execute(sql).fetchall()] for a query on [files]. *)
Definition query_files (d : db) (sql : string) : result (list frow) :=
  r <- execute d sql ;;
  match snd r with
  | FileRows l => Ok l
  | _ => Unmodelled
  end.

(** [cursor.execute(sql).fetchall()] for the query on [sub_dbs]. *)
Definition query_sub_dbs (d : db) (sql : string) : result (list value) :=
  r <- execute d sql ;;
  match snd r with
  | MarkerRows l => Ok l
  | _ => Unmodelled
  end.

(** [cursor.execute(sql)] for a statement that changes the catalog. *)
Definition update (d : db) (sql : string) : result db :=
  r <- execute d sql ;;
  Ok (fst r).

End Sqlite.

(* ================================================================== *)
(** * Fingerprints *)
(* ================================================================== *)

Module Fingerprint.

Definition bytes := list byte.

(** A file opened with [open(filepath, 'rb', buffering=0)]: its content
    and the position of the next read. *)
Record handle := Handle {
  content : bytes;
  pos : Z
}.

Definition open (data : bytes) : handle := Handle data 0.

Definition st_size (data : bytes) : Z := Z.of_nat (List.length data).

(** [f.read(n)]: at most [n] bytes from the position, all the remaining
    bytes when [n] is negative or left out ([read_all]); nothing at or
    past the end. *)
Definition read_all (f : handle) : bytes * handle :=
  let out := skipn (Z.to_nat (pos f)) (content f) in
  (out, Handle (content f) (pos f + Z.of_nat (List.length out))).

Definition read (f : handle) (n : Z) : bytes * handle :=
  if n <? 0 then read_all f
  else
    let out := firstn (Z.to_nat n) (skipn (Z.to_nat (pos f)) (content f)) in
    (out, Handle (content f) (pos f + Z.of_nat (List.length out))).

(** [f.seek(offset, 2)]: the position becomes the END of the file PLUS
    [offset]; a negative result is an error of the system call. *)
Definition seek_end (f : handle) (offset : Z) : result handle :=
  let p := st_size (content f) + offset in
  if p <? 0 then Raise OSError else Ok (Handle (content f) p).

(** [hashlib.md5()] as an object: [update] appends to the message,
    [hexdigest] prints the 128-bit digest of the message as 32 lowercase
    hexadecimal digits. *)
Definition hasher := bytes.

Definition update (h : hasher) (b : bytes) : hasher := h ++ b.

Definition hex_char (d : N) : ascii :=
  if (d <? 10)%N then ascii_of_N (48 + d) else ascii_of_N (87 + d).

Fixpoint hex_of (digits : nat) (v : N) : string :=
  match digits with
  | O => ""
  | S k => hex_of k (v / 16)%N +++ String (hex_char (v mod 16)%N) ""
  end.

Section Digest.

(** The digest function itself is a collaborator of the program. *)
Variable md5 : bytes -> N.

Definition hexdigest (h : hasher) : string := hex_of 32 (md5 h).

(** [hash_file]: the loop reads [bufsize] bytes at a time until a read
    returns nothing.  [fuel] bounds the number of iterations. *)
Fixpoint hash_file_loop (fuel : nat) (bufsize : Z) (f : handle) (h : hasher)
  : option hasher :=
  match fuel with
  | O => None
  | S k =>
      let '(buf, f') := read f bufsize in
      if (List.length buf =? 0)%nat then Some h
      else hash_file_loop k bufsize f' (update h buf)
  end.

Definition hash_file_with (bufsize : Z) (data : bytes) : option string :=
  match hash_file_loop (S (List.length data)) bufsize (open data) [] with
  | Some h => Some (hexdigest h)
  | None => None
  end.

Definition hash_file (data : bytes) : option string :=
  hash_file_with (128 * 1024) data.

(** [hash_file_partial]: the message handed to the digest ... *)
Definition partial_message (data : bytes) (chunk_size : Z) : result hasher :=
  let fsize := st_size data in
  let h : hasher := [] in
  let f := open data in
  if fsize <=? chunk_size * 2 then
    let '(b, _) := read_all f in
    Ok (update h b)
  else
    let '(b1, f1) := read f chunk_size in
    let h1 := update h b1 in
    f2 <- seek_end f1 chunk_size ;;
    let '(b2, _) := read f2 chunk_size in
    Ok (update h1 b2).

(** ... and its digest. *)
Definition hash_file_partial (data : bytes) (chunk_size : Z) : result string :=
  h <- partial_message data chunk_size ;;
  Ok (hexdigest h).

End Digest.

(** What the description of partial hashing asks for on a large file. *)
Definition head_and_tail (data : bytes) (chunk : Z) : bytes :=
  firstn (Z.to_nat chunk) data
  ++ skipn (List.length data - Z.to_nat chunk) data.

End Fingerprint.

(* ================================================================== *)
(** * MD5 *)
(* ================================================================== *)

(** [hashlib.md5] (RFC 1321), for runs of the program on concrete
    trees.  The definitions of the program above take the digest as a
    parameter; this is the one the program passes. *)

Module Md5.

Definition mask32 (x : Z) : Z := x mod 2 ^ 32.

Definition not32 (x : Z) : Z := Z.lxor x (2 ^ 32 - 1).

Definition rotl (x c : Z) : Z :=
  mask32 (Z.lor (Z.shiftl x c) (Z.shiftr x (32 - c))).

(** [floor(2^32 * abs(sin(i + 1)))] *)
Definition K : list Z :=
  [3614090360; 3905402710; 606105819; 3250441966;
   4118548399; 1200080426; 2821735955; 4249261313;
   1770035416; 2336552879; 4294925233; 2304563134;
   1804603682; 4254626195; 2792965006; 1236535329;
   4129170786; 3225465664; 643717713; 3921069994;
   3593408605; 38016083; 3634488961; 3889429448;
   568446438; 3275163606; 4107603335; 1163531501;
   2850285829; 4243563512; 1735328473; 2368359562;
   4294588738; 2272392833; 1839030562; 4259657740;
   2763975236; 1272893353; 4139469664; 3200236656;
   681279174; 3936430074; 3572445317; 76029189;
   3654602809; 3873151461; 530742520; 3299628645;
   4096336452; 1126891415; 2878612391; 4237533241;
   1700485571; 2399980690; 4293915773; 2240044497;
   1873313359; 4264355552; 2734768916; 1309151649;
   4149444226; 3174756917; 718787259; 3951481745].

Definition shifts : list Z :=
  [7; 12; 17; 22; 7; 12; 17; 22; 7; 12; 17; 22; 7; 12; 17; 22;
   5; 9; 14; 20; 5; 9; 14; 20; 5; 9; 14; 20; 5; 9; 14; 20;
   4; 11; 16; 23; 4; 11; 16; 23; 4; 11; 16; 23; 4; 11; 16; 23;
   6; 10; 15; 21; 6; 10; 15; 21; 6; 10; 15; 21; 6; 10; 15; 21].

Definition regs := (Z * Z * Z * Z)%type.

Definition step (M : list Z) (r : regs) (i : nat) : regs :=
  let '(a, b, c, d) := r in
  let '(f, g) :=
    if (i <? 16)%nat then
      (Z.lor (Z.land b c) (Z.land (not32 b) d), i)
    else if (i <? 32)%nat then
      (Z.lor (Z.land d b) (Z.land (not32 d) c), ((5 * i + 1) mod 16)%nat)
    else if (i <? 48)%nat then
      (Z.lxor (Z.lxor b c) d, ((3 * i + 5) mod 16)%nat)
    else
      (Z.lxor c (Z.lor b (not32 d)), ((7 * i) mod 16)%nat) in
  let x := mask32 (f + a + nth i K 0 + nth g M 0) in
  (d, mask32 (b + rotl x (nth i shifts 0)), b, c).

(** A little-endian word of four bytes. *)
Definition word_of (b : list Z) : Z :=
  nth 0 b 0 + 256 * nth 1 b 0 + 65536 * nth 2 b 0 + 16777216 * nth 3 b 0.

Fixpoint words (n : nat) (b : list Z) : list Z :=
  match n with
  | O => []
  | S k => word_of (firstn 4 b) :: words k (skipn 4 b)
  end.

Definition block (r : regs) (b : list Z) : regs :=
  let '(a0, b0, c0, d0) := r in
  let '(a, b1, c, d) := fold_left (step (words 16 b)) (seq 0 64) r in
  (mask32 (a0 + a), mask32 (b0 + b1), mask32 (c0 + c), mask32 (d0 + d)).

Fixpoint blocks (n : nat) (r : regs) (b : list Z) : regs :=
  match n with
  | O => r
  | S k => blocks k (block r (firstn 64 b)) (skipn 64 b)
  end.

Definition le_bytes (n : nat) (x : Z) : list Z :=
  map (fun i => (x / 256 ^ Z.of_nat i) mod 256) (seq 0 n).

Definition pad (msg : list Z) : list Z :=
  let len := Z.of_nat (List.length msg) in
  let zeros := Z.to_nat ((55 - len) mod 64) in
  msg ++ [128] ++ repeat 0 zeros ++ le_bytes 8 ((8 * len) mod 2 ^ 64).

Definition digest_bytes (msg : list Z) : list Z :=
  let p := pad msg in
  let '(a, b, c, d) :=
    blocks (List.length p / 64) (1732584193, 4023233417, 2562383102, 271733878) p in
  le_bytes 4 a ++ le_bytes 4 b ++ le_bytes 4 c ++ le_bytes 4 d.

(** The digest as a number: its sixteen bytes, the first one leading. *)
Definition md5 (msg : list byte) : N :=
  Z.to_N
    (fold_left (fun acc x => 256 * acc + x)
               (digest_bytes (map (fun x => Z.of_N (Byte.to_N x)) msg)) 0).

End Md5.

(* ================================================================== *)
(** * The sync planner *)
(* ================================================================== *)

Module Planner.

Import Sqlite.

(** The open catalogs of one side, in the order of the dictionary
    ([src_dbs], [dst_dbs]): the path of the catalog and its content. *)
Definition catalogs := list (string * db).

(** The lines of the script, one constructor for each [f.write] of
    [gen_sync_script], with the values it interpolates. *)
Inductive line :=
| Shebang
| CdBack (blank_before : bool) (subdir : string)
| CdInto (dbpath : string)
| Mkdir (dir : string)
| Mv (from to : string)
| Cp (from to : string)
| Missing (e : frow).

Definition quoted (s : string) : string := dq +++ s +++ dq.

(** The text each [f.write] produces. *)
Definition render (l : line) : string :=
  match l with
  | Shebang => "#! /bin/sh -e" +++ nl +++ nl
  | CdBack blank subdir =>
      (if blank then nl else "") +++
      "cd " +++ quoted "${OLDPWD}" +++ " # from " +++ subdir +++ nl
  | CdInto dbpath =>
      "OLDPWD=" +++ quoted "$(pwd)" +++ "; cd " +++ quoted dbpath
      +++ nl +++ nl
  | Mkdir dir => "mkdir ${MKDIRFLAGS} -p " +++ quoted dir +++ nl
  | Mv from to => "mv ${MVFLAGS} " +++ quoted from +++ " " +++ quoted to +++ nl
  | Cp from to =>
      "cp ${CPFLAGS} --reflink " +++ quoted from +++ " " +++ quoted to +++ nl
  | Missing e =>
      "# missing on destination: " +++ quoted (py_str (relpath e)) +++ nl
  end.

(** The variables of [gen_sync_script] that live across iterations. *)
Record state := State {
  script : list line;          (* what has been written to [f] *)
  mkdirs : list string;
  transfer_bytes : Z;
  n_actions : Z;
  done : list value;
  subdir : option string
}.

Definition write (l : line) (st : state) : state :=
  State (script st ++ [l]) (mkdirs st) (transfer_bytes st) (n_actions st)
        (done st) (subdir st).

Definition add_action (st : state) : state :=
  State (script st) (mkdirs st) (transfer_bytes st) (n_actions st + 1)
        (done st) (subdir st).

Definition mark_done (v : value) (st : state) : state :=
  State (script st) (mkdirs st) (transfer_bytes st) (n_actions st)
        (done st ++ [v]) (subdir st).

Definition set_subdir (p : string) (st : state) : state :=
  State (script st) (mkdirs st) (transfer_bytes st) (n_actions st)
        (done st) (Some p).

(** [if mkdir not in mkdirs: mkdirs.append(mkdir); f.write(mkdir ...)] *)
Definition ensure_mkdir (dir : string) (st : state) : state :=
  if mem String.eqb dir (mkdirs st) then st
  else
    write (Mkdir dir)
      (State (script st) (mkdirs st ++ [dir]) (transfer_bytes st)
             (n_actions st) (done st) (subdir st)).

(** [transfer_bytes += entry["size"]] *)
Definition add_transfer (v : value) (st : state) : result state :=
  match v with
  | VInt z =>
      Ok (State (script st) (mkdirs st) (transfer_bytes st + z) (n_actions st)
                (done st) (subdir st))
  | _ => Raise TypeError
  end.

(** [os.path.dirname(v)] on a value of a row. *)
Definition dirname_of (v : value) : result string :=
  match v with
  | VText s => Ok (dirname s)
  | _ => Raise TypeError
  end.

(** The two queries of the planner. *)
Definition positive_query : string := "SELECT * FROM files WHERE size > 0".

Definition key_query (e : frow) : string :=
  "SELECT * FROM files WHERE size == " +++ py_str (size e)
  +++ " AND parthash == '" +++ py_str (parthash e) +++ "'".

(** [for i_dbpath in dbs: entries[i_dbpath] = execute(sql).fetchall()] *)
Fixpoint query_each (dbs : catalogs) (sql : string)
  : result (list (string * list frow)) :=
  match dbs with
  | [] => Ok []
  | (p, d) :: rest =>
      found <- query_files d sql ;;
      more <- query_each rest sql ;;
      Ok ((p, found) :: more)
  end.

(** [l_num], [r_num]: the sum of the lengths. *)
Definition count (per_db : list (string * list frow)) : nat :=
  fold_right (fun x n => (List.length (snd x) + n)%nat) O per_db.

(** [entries[list(entries.keys())[0]][0]] *)
Definition first_of_first (per_db : list (string * list frow)) : result frow :=
  match per_db with
  | (_, e :: _) :: _ => Ok e
  | _ => Raise IndexError
  end.

(** ** One source against one destination *)

Definition one_to_one (l_all r_all : list (string * list frow)) (st : state)
  : result state :=
  src <- first_of_first l_all ;;
  dst <- first_of_first r_all ;;
  if negb (py_eqb (relpath src) (relpath dst)) then
    mkdir <- dirname_of (relpath src) ;;
    if String.eqb mkdir "" then Ok st          (* if not mkdir: continue *)
    else
      let st1 := ensure_mkdir mkdir st in
      let st2 := write (Mv (py_str (relpath dst)) (py_str (relpath src))) st1 in
      Ok (add_action st2)
  else Ok st.

(** ** Several sources or several destinations *)

(** An entry of [dup_entries] or [rem_dup_entries]: the row, the
    catalog it was found in, and its ["matched"] mark.  The program
    keeps the entries in a dictionary by catalog and always visits them
    catalog by catalog in the order of the dictionary, stopping at the
    first hit: the model keeps them as one list in that order. *)
Record cand := Cand {
  owner : string;
  entry : frow;
  matched : bool
}.

Definition candidates (per_db : list (string * list frow)) : list cand :=
  flat_map (fun x => map (fun r => Cand (fst x) r false) (snd x)) per_db.

Definition set_matched (c : cand) : cand := Cand (owner c) (entry c) true.

(** [l_dbpath == dbpath and l_entry["relpath"] == entry["relpath"]] *)
Definition is_iterated (dbpath : string) (e : frow) (l : cand) : bool :=
  String.eqb (owner l) dbpath && py_eqb (relpath (entry l)) (relpath e).

(** Path-identity pass, inner loops: mark the first destination entry
    with the relpath [rel], whether it is marked already or not. *)
Fixpoint mark_same_path (rel : value) (rs : list cand) : option (list cand) :=
  match rs with
  | [] => None
  | r :: rs' =>
      if py_eqb rel (relpath (entry r)) then Some (set_matched r :: rs')
      else
        match mark_same_path rel rs' with
        | Some rs'' => Some (r :: rs'')
        | None => None
        end
  end.

(** Path-identity pass, outer loops. *)
Fixpoint identity_pass (dbpath : string) (e : frow) (ls rs : list cand)
    (found : bool) : list cand * list cand * bool :=
  match ls with
  | [] => ([], rs, found)
  | l :: ls' =>
      match mark_same_path (relpath (entry l)) rs with
      | Some rs1 =>
          let '(ls2, rs2, found2) :=
            identity_pass dbpath e ls' rs1 (found || is_iterated dbpath e l) in
          (set_matched l :: ls2, rs2, found2)
      | None =>
          let '(ls2, rs2, found2) := identity_pass dbpath e ls' rs found in
          (l :: ls2, rs2, found2)
      end
  end.

(** Move pass, inner loops: the first destination entry without a
    mark, and the list with that entry marked. *)
Fixpoint take_unmatched (rs : list cand) : option (cand * list cand) :=
  match rs with
  | [] => None
  | r :: rs' =>
      if matched r then
        match take_unmatched rs' with
        | Some (x, rs'') => Some (x, r :: rs'')
        | None => None
        end
      else Some (r, set_matched r :: rs')
  end.

(** Move and reflink for one source entry [l]. *)
Definition place (dbpath : string) (e : frow) (r_num : nat) (l : cand)
    (acc : list cand * state * bool) : result (cand * (list cand * state * bool)) :=
  let '(rs, st, found) := acc in
  if matched l then Ok (l, acc)
  else
    match take_unmatched rs with
    | Some (r, rs1) =>
        mkdir <- dirname_of (relpath (entry l)) ;;
        let st1 := ensure_mkdir mkdir st in
        let st2 := write (Mv (py_str (relpath (entry r)))
                             (py_str (relpath (entry l)))) st1 in
        Ok (set_matched l,
            (rs1, add_action st2, found || is_iterated dbpath e l))
    | None =>
        match rs with
        | r :: _ =>
            mkdir <- dirname_of (relpath (entry l)) ;;
            let st1 := ensure_mkdir mkdir st in
            let st2 := write (Cp (py_str (relpath (entry r)))
                                 (py_str (relpath (entry l)))) st1 in
            Ok (set_matched l,
                (rs, add_action st2, found || is_iterated dbpath e l))
        | [] =>
            if (0 <? r_num)%nat then Raise Pdb_unmatched_l else Ok (l, acc)
        end
    end.

Fixpoint move_pass (dbpath : string) (e : frow) (r_num : nat)
    (ls : list cand) (acc : list cand * state * bool)
  : result (list cand * (list cand * state * bool)) :=
  match ls with
  | [] => Ok ([], acc)
  | l :: ls' =>
      x <- place dbpath e r_num l acc ;;
      y <- move_pass dbpath e r_num ls' (snd x) ;;
      Ok (fst x :: fst y, snd y)
  end.

Definition many_to_many (dbpath : string) (e : frow)
    (l_all r_all : list (string * list frow)) (st : state) : result state :=
  let r_num := count r_all in
  let '(ls1, rs1, found1) :=
    identity_pass dbpath e (candidates l_all) (candidates r_all) false in
  x <- move_pass dbpath e r_num ls1 (rs1, st, found1) ;;
  let '(ls2, (rs2, st2, found2)) := x in
  if existsb (fun r => negb (matched r)) rs2 then Raise Pdb_unmatched_r
  else if negb (matched (last ls2 (Cand "" e true))) && (0 <? r_num)%nat
  then Raise Pdb_unmatched_l2
  else if negb found2 && (0 <? r_num)%nat then Raise Pdb_not_found
  else Ok st2.

(** ** The loops of [gen_sync_script] *)

(** The body of [for entry in entries]. *)
Definition plan_entry (src dst : catalogs) (dbpath : string) (e : frow)
    (st : state) : result state :=
  if mem py_eqb (parthash e) (done st) then Ok st
  else
    l_all <- query_each src (key_query e) ;;
    r_all <- query_each dst (key_query e) ;;
    let l_num := count l_all in
    let r_num := count r_all in
    let st1 := mark_done (parthash e) st in
    if (l_num =? 1)%nat && (r_num =? 1)%nat then one_to_one l_all r_all st1
    else if (l_num =? 0)%nat then Raise Pdb_l_num_zero
    else if (r_num =? 0)%nat then add_transfer (size e) (write (Missing e) st1)
    else many_to_many dbpath e l_all r_all st1.

(** The body of [for dbpath in src_dbs]. *)
Definition plan_db (src dst : catalogs) (x : string * db) (st : state)
  : result state :=
  let '(dbpath, d) := x in
  entries <- query_files d positive_query ;;
  let st1 :=
    match subdir st with
    | Some s => write (CdBack true s) st
    | None => st
    end in
  let st2 := set_subdir dbpath (write (CdInto dbpath) st1) in
  for_each (plan_entry src dst dbpath) entries st2.

Definition initial : state := State [Shebang] [] 0 0 [] None.

(** [gen_sync_script] once the catalogs are open, up to the last write. *)
Definition plan (src dst : catalogs) : result state :=
  st <- for_each (plan_db src dst) src initial ;;
  match subdir st with
  | Some s => Ok (write (CdBack false s) st)
  | None => Ok st
  end.

(** ** The closing report *)

(** [int(a / b)] for Python integers.  [a / b] is the double (binary64)
    nearest to the exact quotient, ties going to the even mantissa
    (CPython's [long_true_divide]); [int] then drops the fraction.
    [e] is the exponent of the quotient, [m] its mantissa of 53 bits
    after rounding, so that the double is [m * 2^(e - 52)]. *)
Definition quotient_exponent (a b : Z) : Z :=
  let d := Z.log2 a - Z.log2 b in
  if 0 <=? d
  then (if b * 2 ^ d <=? a then d else d - 1)
  else (if b <=? a * 2 ^ (- d) then d else d - 1).

Definition round_half_even (num den : Z) : Z :=
  let q := num / den in
  let r := num mod den in
  if (den <? 2 * r) || ((den =? 2 * r) && Z.odd q) then q + 1 else q.

Definition truediv_int_pos (a b : Z) : result Z :=
  let e := quotient_exponent a b in
  let sh := e - 52 in
  if e <? -1022 then Unmodelled          (* subnormal quotients *)
  else if 0 <=? sh then
    let m := round_half_even a (b * 2 ^ sh) in
    if 2 ^ 1024 <=? m * 2 ^ sh then Raise OverflowError
    else Ok (m * 2 ^ sh)
  else
    let m := round_half_even (a * 2 ^ (- sh)) b in
    Ok (m / 2 ^ (- sh)).

Definition truediv_int (a b : Z) : result Z :=
  if b <=? 0 then Unmodelled
  else if a =? 0 then Ok 0
  else if 0 <? a then truediv_int_pos a b
  else v <- truediv_int_pos (- a) b ;; Ok (- v).

Definition units : list string := ["B"; "KB"; "MB"; "GB"; "TB"].

(** [for u in range(len(units)): if transfer_bytes < pow(1000, u+1): break];
    the result is the value of [u] after the loop. *)
Fixpoint pick_unit (tb : Z) (range : list nat) (u : nat) : nat :=
  match range with
  | [] => u
  | v :: range' =>
      if tb <? 1000 ^ (Z.of_nat v + 1) then v else pick_unit tb range' v
  end.

Record report := Report {
  actions : Z;
  display_value : Z;
  unit : string
}.

(** The two lines printed at the end. *)
Definition summary (st : state) : result report :=
  let u := pick_unit (transfer_bytes st) (seq 0 (List.length units)) 0 in
  v <- truediv_int (transfer_bytes st) (1000 ^ Z.of_nat u) ;;
  Ok (Report (n_actions st) v (nth u units "")).

(** [gen_sync_script] once the catalogs are open: the script and the
    report. *)
Definition plan_and_report (src dst : catalogs) : result (state * report) :=
  st <- plan src dst ;;
  r <- summary st ;;
  Ok (st, r).

(** ** Notions used to state the properties of the planner *)



(** The bytes a line reports as missing on the destination. *)
Definition missing_size (l : line) : Z :=
  match l with
  | Missing e => match size e with VInt z => z | _ => 0 end
  | _ => 0
  end.

Definition missing_total (s : list line) : Z :=
  fold_right (fun l acc => missing_size l + acc) 0 s.

(** A row as the engine inserts it, as far as the planner reads it: an
    integer size and a text fingerprint without a single quote (a digest
    in hexadecimal, or the text the engine stores for no digest). *)
Definition keyed (r : frow) : Prop :=
  exists n p, size r = VInt n /\ 0 <= n <= max_int64
              /\ parthash r = VText p /\ mem_char SQ p = false.

Definition keyed_catalogs (src : catalogs) : Prop :=
  forall path d r, In (path, d) src -> In r (files d) -> keyed r.


(** [steady_step st st']: the step from [st] to [st'] changed neither the
    byte counter, nor the missing lines, nor [done]. *)
Definition steady_step (st st' : state) : Prop :=
  transfer_bytes st' = transfer_bytes st
  /\ missing_total (script st') = missing_total (script st)
  /\ done st' = done st.

(** The byte counter agrees with the missing lines. *)
Definition balanced (st : state) : Prop :=
  transfer_bytes st = missing_total (script st).

(** The condition of the planner's query for the size [n] and the
    fingerprint [p]. *)
Definition key_match (n : Z) (p : string) (r : frow) : bool :=
  sql_eqb (size r) (VInt n) && sql_eqb (parthash r) (VText p).

End Planner.

(* ================================================================== *)
(** * The file tree *)
(* ================================================================== *)

(** The part of the operating system the program looks at: a tree of
    directories and regular files, read through path strings.  Paths are
    taken literally, component by component: [.], [..] and links are
    not part of the model. *)

Module Os.

Import Fingerprint.

#[warnings="-register-all"]
Inductive node :=
| File (data : bytes)
| Dir (children : list (string * node)).

(** The components of a path: the pieces between slashes. *)
Fixpoint components (s cur : string) : list string :=
  match s with
  | "" => if String.eqb cur "" then [] else [cur]
  | String c s' =>
      if Ascii.eqb c "/" then
        (if String.eqb cur "" then components s' ""
         else cur :: components s' "")
      else components s' (cur +++ String c "")
  end.

Fixpoint child (name : string) (children : list (string * node))
  : option node :=
  match children with
  | [] => None
  | (n, x) :: rest => if String.eqb n name then Some x else child name rest
  end.

Fixpoint descend (t : node) (path : list string) : option node :=
  match path with
  | [] => Some t
  | c :: path' =>
      match t with
      | Dir children =>
          match child c children with
          | Some x => descend x path'
          | None => None
          end
      | File _ => None
      end
  end.

Section Tree.

(** The tree under [/] and [os.getcwd()]. *)
Variable root : node.
Variable cwd : string.

Definition absolute (p : string) : string :=
  if startswith p "/" then p else cwd +++ "/" +++ p.

Definition lookup (p : string) : option node :=
  if String.eqb p "" then None
  else descend root (components (absolute p) "").

Definition isfile (p : string) : bool :=
  match lookup p with Some (File _) => true | _ => false end.

Definition isdir (p : string) : bool :=
  match lookup p with Some (Dir _) => true | _ => false end.

(** [os.stat(p).st_size] of a regular file. *)
Definition stat_size (p : string) : result Z :=
  match lookup p with
  | Some (File data) => Ok (st_size data)
  | Some (Dir _) => Unmodelled
  | None => Raise OSError
  end.

(** The content read when the file is opened for hashing. *)
Definition read_file (p : string) : result bytes :=
  match lookup p with
  | Some (File data) => Ok data
  | _ => Raise OSError
  end.

End Tree.

(** [os.path.join(top, name)] for a non-empty [top]. *)
Fixpoint ends_with_slash (s : string) : bool :=
  match s with
  | "" => false
  | String c "" => Ascii.eqb c "/"
  | String _ s' => ends_with_slash s'
  end.

Definition join (top name : string) : string :=
  if ends_with_slash top then top +++ name else top +++ "/" +++ name.

Definition file_names (children : list (string * node)) : list string :=
  flat_map (fun x => match snd x with File _ => [fst x] | Dir _ => [] end)
           children.

Definition dir_names (children : list (string * node)) : list string :=
  flat_map (fun x => match snd x with Dir _ => [fst x] | File _ => [] end)
           children.

(** [os.walk(top)] below a directory node: top-down, one triple
    [(dirpath, dirnames, filenames)] for each directory. *)
Fixpoint walk_node (top : string) (t : node)
  : list (string * list string * list string) :=
  match t with
  | File _ => []
  | Dir children =>
      (top, dir_names children, file_names children)
      :: (fix each (l : list (string * node)) :=
            match l with
            | [] => []
            | (name, x) :: l' => walk_node (join top name) x ++ each l'
            end) children
  end.

Definition walk (root : node) (cwd top : string)
  : list (string * list string * list string) :=
  match lookup root cwd top with
  | Some t => walk_node top t
  | None => []
  end.

(** Creating an empty regular file, as opening a database that does not
    exist does.  [None]: the directory is missing or the path names a
    directory. *)
Fixpoint replace_child (name : string) (x : node)
    (children : list (string * node)) : list (string * node) :=
  match children with
  | [] => []
  | (n, y) :: rest =>
      if String.eqb n name then (n, x) :: rest
      else (n, y) :: replace_child name x rest
  end.

Fixpoint touch_at (t : node) (path : list string) : option node :=
  match path, t with
  | [], _ => None
  | [c], Dir children =>
      match child c children with
      | Some (File _) => Some t
      | Some (Dir _) => None
      | None => Some (Dir (children ++ [(c, File [])]))
      end
  | c :: path', Dir children =>
      match child c children with
      | Some x =>
          match touch_at x path' with
          | Some x' => Some (Dir (replace_child c x' children))
          | None => None
          end
      | None => None
      end
  | _ :: _, File _ => None
  end.

Definition touch (root : node) (cwd p : string) : option node :=
  if String.eqb p "" then None
  else touch_at root (components (absolute cwd p) "").

End Os.

(* ================================================================== *)
(** * The catalog engine *)
(* ================================================================== *)

(** The model covers the default verbosity ([args.verbose = 0]) and runs
    without [--list-dups]; both only add output.  [os.path.expanduser] is
    the identity on the paths considered (none starts with a tilde). *)

Module Engine.

Import Sqlite Fingerprint Os.

(** [args] and [config]. *)
Record options := Options {
  dbfilename : string;
  scriptname : string;
  partial_hash : bool;
  partial_hash_size : Z
}.

(** The defaults of the argument parser. *)
Definition defaults : options := Options ".dir.db" "update.sh" true 4096.

(** What the engine prints. *)
Inductive event :=
| Creating (dbpath : string)
| Adding (relpath path : string)           (* "adding ... to db ..." *)
| RemovedDb (marker : value)               (* "removed db ..." *)
| WillRemove (relpath : value) (sub_db : string)
| SizeDiffers (fsize : Z) (recorded : value)
| Moved (what : string) (candidates : list value)
| Removed (relpath : value).

(** A list of [(root, dirs, files)] triples without its [dirs], which
    the engine never reads: [all_files[dbpath]], [new_files[dbpath]], or
    the triples of [os.walk]. *)
Definition filelist := list (string * list string).

(** Dictionaries keep their keys in the order of insertion. *)
Definition dict (V : Type) := list (string * V).

Fixpoint get {V} (k : string) (d : dict V) : option V :=
  match d with
  | [] => None
  | (k', v) :: rest => if String.eqb k' k then Some v else get k rest
  end.

Definition has {V} (k : string) (d : dict V) : bool :=
  match get k d with Some _ => true | None => false end.

Fixpoint set {V} (k : string) (v : V) (d : dict V) : dict V :=
  match d with
  | [] => [(k, v)]
  | (k', v') :: rest =>
      if String.eqb k' k then (k', v) :: rest else (k', v') :: set k v rest
  end.

Definition keys {V} (d : dict V) : list string := map fst d.

(** [if k not in d: d[k] = []] followed by [d[k].append(x)]. *)
Definition append_at {A} (k : string) (x : A) (d : dict (list A))
  : dict (list A) :=
  match get k d with
  | Some l => set k (l ++ [x]) d
  | None => set k [x] d
  end.

Definition filelist_eqb (a b : filelist) : bool :=
  list_eqb (fun x y => String.eqb (fst x) (fst y)
                       && list_eqb String.eqb (snd x) (snd y)) a b.

(** ** Statement texts *)

Fixpoint tabs (n : nat) : string :=
  match n with O => "" | S k => tab +++ tabs k end.

Definition quoted (s : string) : string := dq +++ s +++ dq.

(** [str(x)] for a digest variable that may hold [None]. *)
Definition str_opt (x : option string) : string :=
  match x with Some s => s | None => "None" end.

Definition select_by_size_sql (fsize : Z) : string :=
  "SELECT filename, relpath, size, hash, parthash FROM files WHERE size == "
  +++ str_Z fsize.

Definition insert_sql (f relpath : string) (fsize : Z)
    (fullhash parthash : option string) : string :=
  nl +++ tabs 4 +++ "INSERT INTO files VALUES" +++ nl +++ tabs 4
  +++ "(" +++ quoted f +++ ", " +++ quoted relpath +++ ", " +++ str_Z fsize
  +++ ", " +++ quoted (str_opt fullhash) +++ ", "
  +++ quoted (str_opt parthash) +++ ")" +++ nl +++ tabs 4.

Definition select_sub_dbs_sql : string := "SELECT relpath FROM sub_dbs".

Definition delete_sub_db_sql (marker : value) : string :=
  nl +++ tabs 4 +++ "DELETE FROM sub_dbs WHERE relpath == "
  +++ quoted (py_str marker) +++ nl +++ tabs 4.

Definition select_files_sql : string :=
  "SELECT filename, relpath, size, hash FROM files".

(** [indent] is 5 in [process_dbpath] and 4 in [update_paths]. *)
Definition delete_file_sql (indent : nat) (relpath : value) : string :=
  nl +++ tabs indent +++ "DELETE FROM files WHERE relpath == "
  +++ quoted (py_str relpath) +++ nl +++ tabs indent.

Definition select_same_size_sql (size : value) : string :=
  "SELECT * FROM files WHERE size == " +++ py_str size.

(** ** State *)

(** Everything a run can change: the tree (a database file appears when
    a catalog is opened for the first time), the catalogs by the path of
    their database file, the dictionaries [cursors] (same keys as [dbs];
    the value is the database file the connection was opened on) and
    [missing_files], and the output. *)
Record world := World {
  tree : node;
  stores : dict db;
  cursors : dict string;
  missing_files : dict (list frow);
  log : list event
}.

(** A catalog that was never written holds the empty relations the
    engine creates on first use. *)
Definition store_at (dbfile : string) (stores : dict db) : db :=
  match get dbfile stores with Some d => d | None => empty_db end.

(** What one call of [process_dbpath] works on: the catalog behind its
    cursor, the output, [new_files] ([None] when the argument is left
    out) and [missing_files]. *)
Record local := Local {
  store : db;
  printed : list event;
  new_files : option (dict filelist);
  missing : dict (list frow)
}.

Definition print (e : event) (st : local) : local :=
  Local (store st) (printed st ++ [e]) (new_files st) (missing st).

Definition with_store (d : db) (st : local) : local :=
  Local d (printed st) (new_files st) (missing st).

(** No record with the relpath [rel] is left. *)
Definition gone (rel : string) (d : db) : Prop :=
  forall r, In r (files d) -> relpath r <> VText rel.

Section Run.

Variable md5 : bytes -> N.
Variable o : options.
Variable cwd : string.

(** ** [find_files] *)

(** The walk of [find_files] below one directory.  When the directory
    is not the starting point and holds a database file, the program
    empties [dirs] and calls [find_files(root)], which walks the same
    directory again with [root] as [dbpath]: the model goes on with
    [root] as the owner. *)
Fixpoint find_files_node (dbpath root : string) (t : node)
    (all_files : dict filelist) : dict filelist :=
  match t with
  | File _ => all_files
  | Dir children =>
      let files := file_names children in
      let owner :=
        if negb (String.eqb root dbpath) && mem String.eqb (dbfilename o) files
        then root else dbpath in
      let all1 :=
        fold_left
          (fun acc f =>
             if String.eqb (root +++ "/" +++ f) (cwd +++ "/" +++ scriptname o)
             then acc
             else append_at owner (root, [f]) acc)
          files all_files in
      (fix each (l : list (string * node)) (acc : dict filelist) :=
         match l with
         | [] => acc
         | (name, x) :: l' =>
             each l' (find_files_node owner (join root name) x acc)
         end) children all1
  end.

Definition find_files (t : node) (dbpath : string) (all_files : dict filelist)
  : dict filelist :=
  match lookup t cwd dbpath with
  | Some x => find_files_node dbpath dbpath x all_files
  | None => all_files
  end.

(** ** [process_dbpath] *)

(** The digests of a new file: [(fullhash, parthash)]. *)
Definition digests (data : bytes) : result (option string * option string) :=
  if partial_hash o then
    fhash <- hash_file_partial md5 data (partial_hash_size o) ;;
    Ok (None, Some fhash)
  else
    match hash_file md5 data with
    | Some fhash => Ok (Some fhash, None)
    | None => Unmodelled
    end.

(** The bookkeeping of [new_files] for a file without a record. *)
Definition note_new (root_dir : string) (filelist_gen : option filelist)
    (root f : string) (st : local) : local :=
  match new_files st with
  | None => st
  | Some nf =>
      let differs :=
        match get root_dir nf, filelist_gen with
        | None, _ => true
        | Some _, None => true
        | Some l, Some g => negb (filelist_eqb l g)
        end in
      if differs
      then Local (store st) (printed st)
                 (Some (append_at root_dir (root, [f]) nf)) (missing st)
      else st
  end.

(** The body of [for f in files]. *)
Definition visit_file (t : node) (path root_dir : string) (gather_only : bool)
    (filelist_gen : option filelist) (root f : string) (st : local)
  : result local :=
  if String.eqb f (dbfilename o) then Ok st
  else
    let fpath := root +++ "/" +++ f in
    let relpath := drop (String.length root_dir + 1) fpath in
    fsize <- stat_size t cwd fpath ;;
    entries <- query_files (store st) (select_by_size_sql fsize) ;;
    if existsb (fun e => py_eqb (Sqlite.relpath e) (VText relpath)) entries
    then Ok st
    else
      let st1 := note_new root_dir filelist_gen root f st in
      if gather_only then Ok st1
      else
        data <- read_file t cwd fpath ;;
        h <- digests data ;;
        let st2 := print (Adding relpath path) st1 in
        d <- Sqlite.update (store st2) (insert_sql f relpath fsize (fst h) (snd h)) ;;
        Ok (with_store d st2).

(** [for root, dirs, files in filegen: for f in files: ...] *)
Definition visit_all (t : node) (path root_dir : string) (gather_only : bool)
    (filelist_gen : option filelist) (filegen : filelist) (st : local)
  : result local :=
  for_each
    (fun x =>
       for_each (visit_file t path root_dir gather_only filelist_gen (fst x))
                (snd x))
    filegen st.

(** [os.path.isfile(entry[0])] on a marker. *)
Definition marker_isfile (t : node) (marker : value) : result bool :=
  match marker with
  | VText s => Ok (isfile t cwd s)
  | VInt _ => Unmodelled               (* a file descriptor *)
  | VNull => Raise TypeError
  end.

(** The body of the loop over [sub_dbs]. *)
Definition prune_marker (t : node) (marker : value) (st : local)
  : result local :=
  present <- marker_isfile t marker ;;
  if present then Ok st
  else
    let st1 := print (RemovedDb marker) st in
    d <- Sqlite.update (store st1) (delete_sub_db_sql marker) ;;
    Ok (with_store d st1).

(** [root_dir + "/" + entry[1]] *)
Definition path_of (root_dir : string) (relpath : value) : result string :=
  match relpath with
  | VText s => Ok (root_dir +++ "/" +++ s)
  | _ => Raise TypeError
  end.

(** The body of [for sub_db in all_files.keys()]. *)
Definition reclaim (path fpath : string) (entry : frow) (sub_db : string)
    (st : local) : result local :=
  if startswith path sub_db then Ok st
  else if startswith fpath sub_db then
    let st1 := print (WillRemove (Sqlite.relpath entry) sub_db) st in
    d <- Sqlite.update (store st1) (delete_file_sql 5 (Sqlite.relpath entry)) ;;
    Ok (with_store d st1)
  else Ok st.

(** The body of the loop over the records of [files]. *)
Definition prune_file (t : node) (path root_dir : string)
    (sub_roots : list string) (entry : frow) (st : local) : result local :=
  fpath <- path_of root_dir (Sqlite.relpath entry) ;;
  st1 <- for_each (reclaim path fpath entry) sub_roots st ;;
  if negb (isfile t cwd fpath) then
    Ok (Local (store st1) (printed st1) (new_files st1)
              (append_at path entry (missing st1)))
  else
    fsize <- stat_size t cwd fpath ;;
    if negb (py_eqb (Sqlite.size entry) (VInt fsize))
    then Ok (print (SizeDiffers fsize (Sqlite.size entry)) st1)
    else Ok st1.

(** [process_dbpath] from the first statement on its cursor. *)
Definition process_store (t : node) (path root_dir : string)
    (gather_only : bool) (filelist_gen : option filelist)
    (all_files : dict filelist) (st : local) : result local :=
  let filegen :=
    match filelist_gen with
    | None => map (fun x => (fst (fst x), snd x)) (walk t cwd root_dir)
    | Some l => l
    end in
  st1 <- visit_all t path root_dir gather_only filelist_gen filegen st ;;
  markers <- query_sub_dbs (store st1) select_sub_dbs_sql ;;
  st2 <- for_each (prune_marker t) markers st1 ;;
  entries <- query_files (store st2) select_files_sql ;;
  for_each (prune_file t path root_dir (keys all_files)) entries st2.

(** Opening the catalog: [dbs[path]] and [cursors[path]]. *)
Definition connect (path dbpath : string) (w : world) : result world :=
  if has path (cursors w) then Ok w
  else
    match touch (tree w) cwd dbpath with
    | Some t' =>
        Ok (World t' (stores w) (set path dbpath (cursors w))
                  (missing_files w) (log w))
    | None => Raise OperationalError
    end.

Definition process_dbpath (path0 : string) (gather_only : bool)
    (filelist_gen : option filelist) (nf : option (dict filelist))
    (all_files : dict filelist) (w : world)
  : result (world * option (dict filelist)) :=
  let path := rstrip_slash path0 in
  let dbpath :=
    if isdir (tree w) cwd path then path +++ "/" +++ dbfilename o else path in
  let w1 :=
    if isfile (tree w) cwd dbpath then w
    else World (tree w) (stores w) (cursors w) (missing_files w)
               (log w ++ [Creating dbpath]) in
  w2 <- connect path dbpath w1 ;;
  let dbfile := match get path (cursors w2) with Some f => f | None => dbpath end in
  let root_dir := dirname dbpath in
  st <- process_store (tree w2) path root_dir gather_only filelist_gen all_files
          (Local (store_at dbfile (stores w2)) (log w2) nf (missing_files w2)) ;;
  Ok (World (tree w2) (set dbfile (store st) (stores w2)) (cursors w2)
            (missing st) (printed st),
      new_files st).

(** ** [update_paths] *)

(** [prepare_path] *)
Definition prepare_path (p : string) : string := rstrip_slash p.

(** One call of the gathering pass; [new_files] is shared by the calls. *)
Definition gather (all_files : dict filelist) (x : string * option filelist)
    (acc : world * dict filelist) : result (world * dict filelist) :=
  r <- process_dbpath (fst x) true (snd x) (Some (snd acc)) all_files (fst acc) ;;
  Ok (fst r, match snd r with Some nf => nf | None => snd acc end).

(** One call of the hashing pass. *)
Definition ingest (all_files : dict filelist) (x : string * filelist)
    (w : world) : result world :=
  r <- process_dbpath (fst x) false (Some (snd x)) None all_files w ;;
  Ok (fst r).

(** The body of [for i_dbpath in cursors] for a missing record: the
    output so far and [found]. *)
Definition candidates_in (stores : dict db) (dbpath : string) (entry : frow)
    (cursor : string * string) (acc : list event * bool)
  : result (list event * bool) :=
  i_entries <- query_files (store_at (snd cursor) stores)
                 (select_same_size_sql (Sqlite.size entry)) ;;
  what <- path_of dbpath (Sqlite.relpath entry) ;;
  Ok (fst acc ++ [Moved what (map Sqlite.relpath i_entries)], true).

(** The body of [for entry in missing_files[dbpath]]. *)
Definition report_missing (dbpath : string) (entry : frow) (w : world)
  : result world :=
  r <- for_each (candidates_in (stores w) dbpath entry) (cursors w)
         (log w, false) ;;
  let out :=
    if snd r then fst r else fst r ++ [Removed (Sqlite.relpath entry)] in
  match get dbpath (cursors w) with
  | None => Raise KeyError
  | Some dbfile =>
      d <- Sqlite.update (store_at dbfile (stores w))
             (delete_file_sql 4 (Sqlite.relpath entry)) ;;
      Ok (World (tree w) (set dbfile d (stores w)) (cursors w)
                (missing_files w) out)
  end.

Definition update_paths (paths : list string) (w : world) : result world :=
  let dbpaths := map prepare_path paths in
  let all_files :=
    fold_left (fun acc p => find_files (tree w) p acc) dbpaths [] in
  let calls :=
    match all_files with
    | [] => map (fun p => (p, None)) dbpaths
    | _ => map (fun x => (fst x, Some (snd x))) all_files
    end in
  g <- for_each (gather all_files) calls (w, []) ;;
  w1 <- for_each (ingest all_files) (snd g) (fst g) ;;
  for_each
    (fun x => for_each (report_missing (fst x)) (snd x))
    (missing_files w1) w1.

(** A later run of the program starts with empty dictionaries and
    output, on the tree and the catalogs the earlier run left. *)
Definition next_run (w : world) : world :=
  World (tree w) (stores w) [] [] [].

(** ** Opening the catalogs for [gen_sync_script] *)

(** [find_dbs] *)
Definition find_dbs (t : node) (path : string) : list string :=
  flat_map
    (fun x => if mem String.eqb (dbfilename o) (snd x) then [fst (fst x)] else [])
    (walk t cwd path).

(** [for path in dbpaths: db, cursor = open_db(path); dbs[path] = cursor] *)
Definition open_all (t : node) (stores : dict db) (dbpaths : list string)
  : Planner.catalogs :=
  fold_left
    (fun acc path =>
       let p := rstrip_slash path in
       let dbpath :=
         if isdir t cwd p then p +++ "/" +++ dbfilename o else p in
       set path (store_at dbpath stores) acc)
    dbpaths [].

Definition gen_sync_script (sources dests : list string) (w : world)
  : result (Planner.state * Planner.report) :=
  let src_dbpaths := flat_map (fun p => find_dbs (tree w) (prepare_path p)) sources in
  let dst_dbpaths := flat_map (fun p => find_dbs (tree w) (prepare_path p)) dests in
  Planner.plan_and_report
    (open_all (tree w) (stores w) src_dbpaths)
    (open_all (tree w) (stores w) dst_dbpaths).

End Run.

End Engine.

(* ================================================================== *)
(** * Scenarios *)
(* ================================================================== *)

(** Concrete catalogs and trees the properties below are checked on. *)

Module Scenarios.

Import Sqlite Os Engine.

(** A row as the engine inserts it in partial mode for a file directly
    under the root of its catalog. *)
Definition row (name : string) (n : Z) (digest : string) : frow :=
  FRow (VText name) (VText name) (VInt n) (VText "None") (VText digest).

(** Two digests, of the empty content and of the letter [a]. *)
Definition H1 : string := "d41d8cd98f00b204e9800998ecf8427e".
Definition H2 : string := "0cc175b9c0f1b6a831c399e269772661".

(** The pure rename of the specification: one source record [a.txt],
    one destination record [b.txt] with the same size and digest. *)
Definition rename_src : Planner.catalogs := [("/src", Db [row "a.txt" 10 H1] [])].
Definition rename_dst : Planner.catalogs := [("/dst", Db [row "b.txt" 10 H1] [])].

(** A source record of 16384999999999999 bytes that the destination
    lacks. *)
Definition huge : Z := 16384999999999999.
Definition huge_src : Planner.catalogs := [("/src", Db [row "big" huge H1] [])].
Definition huge_dst : Planner.catalogs := [("/dst", Db [] [])].

(** Rows as the engine inserts them in full mode, where the column
    [parthash] receives the text [None]. *)
Definition full_row (name : string) (n : Z) (digest : string) : frow :=
  FRow (VText name) (VText name) (VInt n) (VText digest) (VText "None").

Definition full_src : Planner.catalogs :=
  [("/src", Db [full_row "x" 1000 H1; full_row "y" 7 H2] [])].

(** *** Trees.  The bytes of a database file are not part of the
    model: what the file holds is the catalog under its path in
    [stores]. *)

(** A parent catalog that still holds a record for [sub/g], and a
    catalog of its own in [sub]. *)
Definition nested_tree : node :=
  Dir [("P", Dir [(".dir.db", File []);
                  ("sub", Dir [(".dir.db", File []);
                               ("g", File [x02; x03])])])].

Definition sub_g : frow :=
  FRow (VText "g") (VText "sub/g") (VInt 2) (VText "None")
       (VText "1fab1cffea9b6fd2f36bfb46e182fd77").

Definition nested_world : world :=
  World nested_tree [("/P/.dir.db", Db [sub_g] [])] [] [] [].

(** A catalog in [sub], and beside it a directory of the parent whose
    name starts with the same letters. *)
Definition prefix_tree : node :=
  Dir [("P", Dir [(".dir.db", File []);
                  ("sub", Dir [(".dir.db", File [])]);
                  ("subway", Dir [("f", File [x01])])])].

Definition prefix_world : world := World prefix_tree [] [] [] [].

(** A catalog with a record for [gone.txt], 5 bytes, which is no
    longer there, and a new file of 3 bytes. *)
Definition replaced_tree : node :=
  Dir [("P", Dir [(".dir.db", File []);
                  ("new.txt", File [x01; x02; x03])])].

Definition replaced_world : world :=
  World replaced_tree [("/P/.dir.db", Db [row "gone.txt" 5 H1] [])] [] [] [].

(** The pure rename as two trees without catalogs: the same ten bytes
    under [/src/a.txt] and under [/dst/b.txt]. *)
Definition ten_bytes : list byte :=
  [x30; x31; x32; x33; x34; x35; x36; x37; x38; x39].

Definition rename_tree : node :=
  Dir [("src", Dir [("a.txt", File ten_bytes)]);
       ("dst", Dir [("b.txt", File ten_bytes)])].

Definition rename_world : world := World rename_tree [] [] [] [].

(** One new file, for a single call of the loop body. *)
Definition one_file_tree : node :=
  Dir [("P", Dir [("a.txt", File [x61])])].

(** A file name with a single quote, a semicolon and a comment mark. *)
Definition odd_name : string := "it's; -- a.txt".

(** A file name made of one double quote, and one with two in a row. *)
Definition quote_name : string := dq.
Definition doubled_name : string := "a" +++ dq +++ dq +++ "b".

(** The states reached in the scenarios, computed once.  Each is
    shown below to be the result of the run it is named after. *)
Definition or_else {A} (r : result A) (a : A) : A :=
  match r with Ok x => x | _ => a end.

Definition nothing : local := Local empty_db [] None [].

(** The gathering call of [process_dbpath] on the parent of
    [nested_world], after the catalog is open. *)
Definition nested_start : local := Local (Db [sub_g] []) [] (Some []) [].

Definition nested_all_files : dict filelist :=
  Eval vm_compute in find_files defaults "/" nested_tree "/P" [].

Definition nested_after : local :=
  Eval vm_compute in
    or_else (process_store Md5.md5 defaults "/" nested_tree "/P" "/P" true
               (get "/P" nested_all_files) nested_all_files nested_start)
            nothing.

(** The loop body on the new file of [one_file_tree]. *)
Definition one_file_after : local :=
  Eval vm_compute in
    or_else (visit_file Md5.md5 defaults "/" one_file_tree "/P" "/P" false
               (Some [("/P", ["a.txt"])]) "/P" "a.txt" nothing)
            nothing.

End Scenarios.

(* ================================================================== *)
(** * Further scenarios *)
(* ================================================================== *)

Module Samples.

Import Sqlite Os Engine Scenarios.

(** A row for a file in a subdirectory of its catalog. *)
Definition nested_row (name rel : string) (n : Z) (digest : string) : frow :=
  FRow (VText name) (VText rel) (VInt n) (VText "None") (VText digest).

(** The same file under [new/] in the source and under [old/] in the
    destination. *)
Definition moved_src : db := Db [nested_row "a.txt" "new/a.txt" 10 H1] [].
Definition moved_dst : db := Db [nested_row "a.txt" "old/a.txt" 10 H1] [].

(** One copy in the source, two in the destination. *)
Definition surplus_src : Planner.catalogs := [("/src", Db [row "a" 10 H1] [])].
Definition surplus_dst : Planner.catalogs :=
  [("/dst", Db [row "b" 10 H1; row "c" 10 H1] [])].

(** Two files with the same content and a third one. *)
Definition twins : db := Db [row "a" 10 H1; row "b" 10 H1; row "c" 7 H2] [].

(** The state of a call whose catalog holds the record of [a.txt] in
    [one_file_tree]. *)
Definition recorded : local := Local (Db [row "a.txt" 1 H2] []) [] None [].

(** The vanished record of [replaced_world], and the state after the
    loop over the records has met it. *)
Definition vanished : frow := row "gone.txt" 5 H1.

Definition vanished_listed : local :=
  Local empty_db [] None [("/P", [vanished])].

(** [replaced_world] with the catalog open, before and after the report
    on the vanished record; and [replaced_world] after a whole run. *)
Definition reported_before : world :=
  World replaced_tree [("/P/.dir.db", Db [vanished] [])]
        [("/P", "/P/.dir.db")] [] [].

Definition reported_after : world :=
  Eval vm_compute in
    or_else (report_missing "/P" vanished reported_before) reported_before.

Definition replaced_after : world :=
  Eval vm_compute in
    or_else (update_paths Md5.md5 defaults "/" ["/P"] replaced_world)
            replaced_world.

(** An open catalog in full mode with two files of the same content,
    and one in partial mode. *)
Definition full_twins : db :=
  Db [full_row "x" 1000 H1; full_row "y" 7 H2; full_row "z" 1000 H1] [].

Definition dups_world : world :=
  World replaced_tree [("/P/.dir.db", full_twins)] [("/P", "/P/.dir.db")]
        [] [].

Definition partial_world : world :=
  World replaced_tree [("/P/.dir.db", twins)] [("/P", "/P/.dir.db")] [] [].

(** The directory [sub] of [nested_tree]. *)
Definition sub_children : list (string * node) :=
  [(".dir.db", File []); ("g", File [x02; x03])].

End Samples.

(* ================================================================== *)
(** * Notions used to state further properties *)
(* ================================================================== *)

Module PlannerNotions.

Import Sqlite Planner.

(** The entries that carry the mark ["matched"], and those that do
    not. *)
Definition marked (cs : list cand) : nat := List.length (filter matched cs).

Definition unmarked (cs : list cand) : nat :=
  List.length (filter (fun c => negb (matched c)) cs).

(** The entries of one catalog, all with the same mark. *)
Definition tagged (p : string) (m : bool) (rows : list frow) : list cand :=
  map (fun r => Cand p r m) rows.

(** The directories of the [mkdir] lines of a script, in order. *)
Definition made (s : list line) : list string :=
  flat_map (fun l => match l with Mkdir d => [d] | _ => [] end) s.

(** The lines the action counter is meant to count. *)
Definition is_action (l : line) : bool :=
  match l with
  | Mv _ _ | Cp _ _ => true
  | _ => false
  end.

Definition actions_in (s : list line) : Z :=
  Z.of_nat (List.length (filter is_action s)).

(** Every [mv] and [cp] line comes after a [mkdir] line for the
    directory of its target; [known] holds the directories of the
    [mkdir] lines read so far. *)
Fixpoint ready (known : list string) (s : list line) : bool :=
  match s with
  | [] => true
  | Mkdir d :: s' => ready (d :: known) s'
  | Mv _ to :: s' | Cp _ to :: s' =>
      mem String.eqb (dirname to) known && ready known s'
  | _ :: s' => ready known s'
  end.

(** The books of the planner agree with what it has written. *)
Definition tidy (st : state) : Prop :=
  mkdirs st = made (script st)
  /\ NoDup (mkdirs st)
  /\ n_actions st = actions_in (script st)
  /\ ready [] (script st) = true.

(** One [mkdir] if the directory is new, one line, one action. *)
Definition emit (dir : string) (l : line) (st : state) : state :=
  add_action (write l (ensure_mkdir dir st)).

(** What a branch of the planner can do to the state. *)
Definition emits (st st' : state) : Prop :=
  st' = st
  \/ exists a to l, (l = Mv a to \/ l = Cp a to) /\ st' = emit (dirname to) l st.

End PlannerNotions.

Module EngineNotions.

Import Sqlite Os Engine.

(** [missing_files[path]], empty when the key is not there. *)
Definition listed (path : string) (m : dict (list frow)) : list frow :=
  match get path m with Some l => l | None => [] end.

(** The record names a file that is not there:
    [not os.path.isfile(fpath)]. *)
Definition absent (cwd : string) (t : node) (root_dir : string) (e : frow)
  : bool :=
  match relpath e with
  | VText rel => negb (isfile t cwd (root_dir +++ "/" +++ rel))
  | _ => false
  end.

(** The message [hash_file_partial] digests when the chunk size is not
    negative. *)
Definition sample (data : Fingerprint.bytes) (chunk : Z) : Fingerprint.bytes :=
  if Fingerprint.st_size data <=? chunk * 2 then data
  else firstn (Z.to_nat chunk) data.

(** No event of the kind [P] is new in [after]. *)
Definition keeps (P : event -> bool) (before after : list event) : Prop :=
  forall e, P e = true -> In e after -> In e before.

Definition is_adding (e : event) : bool :=
  match e with Adding _ _ => true | _ => false end.

Definition is_removed (e : event) : bool :=
  match e with Removed _ => true | _ => false end.

End EngineNotions.

Module WalkNotions.

Import Sqlite Os Engine.

(** [all_files[k]], empty when the key is not there. *)
Definition filed (k : string) (d : dict filelist) : filelist :=
  match get k d with Some l => l | None => [] end.

(** Induction on a tree: a property that holds of every file, and of
    every directory whose entries have it, holds of every tree. *)
Section Trees.

Variable P : node -> Prop.
Hypothesis on_file : forall data, P (File data).
Hypothesis on_dir :
  forall children, Forall (fun x => P (snd x)) children -> P (Dir children).

Fixpoint node_all (t : node) : P t :=
  match t with
  | File data => on_file data
  | Dir children =>
      on_dir children
        ((fix each (l : list (string * node))
            : Forall (fun x => P (snd x)) l :=
            match l with
            | [] => Forall_nil _
            | x :: l' => Forall_cons x (node_all (snd x)) (each l')
            end) children)
  end.

End Trees.

End WalkNotions.

(* ================================================================== *)
(** * The listing of duplicates *)
(* ================================================================== *)

(** The block of [update_paths] under [if args.list_dups]. *)
Module Dups.

Import Sqlite Engine.

Definition select_all_sql : string :=
  "SELECT filename, relpath, size, hash, parthash FROM files".

Definition select_by_hash_sql (h : value) : string :=
  "SELECT filename, relpath, size, hash FROM files WHERE hash == '"
  +++ py_str h +++ "'".

Definition where_hash_eq : list token :=
  Eval vm_compute in fixed "WHERE hash ==".

(** The query by hash is a statement shape of its own: the rows whose
    [hash] equals the single-quoted literal.  A text with an
    unterminated quote is rejected, any other text is outside the
    model. *)
Definition query_by_hash (d : db) (sql : string) : result (list frow) :=
  match tokenize sql with
  | None => Raise OperationalError
  | Some ts =>
      match strip (head_select4 ++ where_hash_eq) ts with
      | Some [TSq h] =>
          Ok (filter (fun r => sql_eqb (hash r) (VText h)) (files d))
      | _ => Unmodelled
      end
  end.

(** [dup_hashes] and the lists printed so far. *)
Record listing := Listing {
  dup_hashes : list value;
  groups : list (list value)
}.

(** [for sub_cur in cursors.values(): ... dups.append(...)] *)
Definition dups_of (stores : dict db) (cursors : dict string) (entry : frow)
  : result (list value) :=
  for_each
    (fun cur dups =>
       sub_entries <- query_by_hash (store_at (snd cur) stores)
                        (select_by_hash_sql (hash entry)) ;;
       Ok (dups ++ map relpath sub_entries))
    cursors [].

(** The body of [for entry in entries]. *)
Definition list_entry (stores : dict db) (cursors : dict string)
    (entry : frow) (st : listing) : result listing :=
  if mem py_eqb (hash entry) (dup_hashes st) then Ok st
  else
    dups <- dups_of stores cursors entry ;;
    if (1 <? List.length dups)%nat
    then Ok (Listing (dup_hashes st ++ [hash entry]) (groups st ++ [dups]))
    else Ok st.

Definition list_dups (w : world) : result listing :=
  for_each
    (fun cur st =>
       entries <- query_files (store_at (snd cur) (stores w)) select_all_sql ;;
       for_each (list_entry (stores w) (cursors w)) entries st)
    (cursors w) (Listing [] []).

(** The records behind the open cursors, in the order of the loops, and
    the relpaths of those with the hash [h]. *)
Definition all_rows (w : world) : list frow :=
  flat_map (fun cur => files (store_at (snd cur) (stores w))) (cursors w).

Definition group (h : value) (rows : list frow) : list value :=
  map relpath (filter (fun r => py_eqb (hash r) h) rows).

(** Hashes as the engine stores them: texts without a single quote. *)
Definition plain_hashes (rows : list frow) : Prop :=
  forall r, In r rows -> exists h, hash r = VText h /\ mem_char SQ h = false.

(** The listing with the queries resolved. *)
Definition list_step (rows : list frow) (e : frow) (st : listing) : listing :=
  if mem py_eqb (hash e) (dup_hashes st) then st
  else if (1 <? List.length (group (hash e) rows))%nat
       then Listing (dup_hashes st ++ [hash e])
                    (groups st ++ [group (hash e) rows])
       else st.

(** What the steps keep true, for the records [seen] so far. *)
Definition grouped (rows seen : list frow) (st : listing) : Prop :=
  groups st = map (fun h => group h rows) (dup_hashes st)
  /\ NoDup (dup_hashes st)
  /\ forall h, In h (dup_hashes st)
               <-> In h (map hash seen) /\ (2 <= List.length (group h rows))%nat.

End Dups.

(* ================================================================== *)
(** * The command line *)
(* ================================================================== *)

(** The block under [if __name__ == "__main__"], from the parsed
    arguments on. *)
Module Driver.

Import Sqlite Fingerprint Os Engine.

(** The arguments the block reads.  An option with [action="append"]
    is [None] when it was not given, and a list with one element for
    each occurrence otherwise. *)
Record arguments := Arguments {
  update : option (list string);
  gen_sync_script : bool;
  source : option (list string);
  destination : option (list string)
}.

(** The truth value of [None] or a list. *)
Definition truthy (x : option (list string)) : bool :=
  match x with
  | Some (_ :: _) => true
  | _ => false
  end.

(** What the parser can produce for an appended option. *)
Definition parsed (x : option (list string)) : Prop := x <> Some [].

(** [if not args.update and not args.gen_sync_script: ...] *)
Definition infer (cwd : string) (a : arguments) : arguments :=
  if negb (truthy (update a)) && negb (gen_sync_script a) then
    if negb (truthy (destination a)) then
      if truthy (source a)
      then Arguments (source a) (gen_sync_script a) (source a) (destination a)
      else Arguments (Some [cwd]) (gen_sync_script a) (source a) (destination a)
    else
      Arguments (update a) true
        (if negb (truthy (source a)) then Some [cwd] else source a)
        (destination a)
  else a.

(** The two sides handed to [gen_sync_script]. *)
Definition sources (cwd : string) (a : arguments) : option (list string) :=
  if negb (truthy (source a)) && truthy (destination a) then Some [cwd]
  else source a.

Definition destinations (cwd : string) (a : arguments)
  : option (list string) :=
  if truthy (source a) && negb (truthy (destination a)) then Some [cwd]
  else destination a.

Section Run.

Variable md5 : bytes -> N.
Variable o : options.
Variable cwd : string.

(** [gen_sync_script(sources, destinations)]: the loops [for path in
    sources] and [for path in dests] raise on [None]. *)
Definition plan_sides (s d : option (list string)) (w : world)
  : result (Planner.state * Planner.report) :=
  match s, d with
  | Some s', Some d' => Engine.gen_sync_script o cwd s' d' w
  | _, _ => Raise TypeError
  end.

(** The block: the world after the update, and the script and the
    report when a script was asked for. *)
Definition main (a : arguments) (w : world)
  : result (world * option (Planner.state * Planner.report)) :=
  let a1 := infer cwd a in
  w1 <- match update a1 with
        | Some (p :: ps) => update_paths md5 o cwd (p :: ps) w
        | _ => Ok w
        end ;;
  if gen_sync_script a1 then
    r <- plan_sides (sources cwd a1) (destinations cwd a1) w1 ;;
    Ok (w1, Some r)
  else Ok (w1, None).

End Run.

End Driver.

(* ================================================================== *)
(** * The form of the catalogs *)
(* ================================================================== *)

Module Forms.

Import Sqlite Fingerprint Os Engine.










End Forms.

Module CatalogSamples.

Import Sqlite Os Engine Scenarios.












End CatalogSamples.

(* ================================================================== *)
(** * Facts about the SQLite fragment *)
(* ================================================================== *)

Module SqliteFacts.

Import Sqlite Engine.

(** ** Strings *)

Lemma append_assoc (a b c : string) : (a +++ b) +++ c = a +++ (b +++ c).
Proof. induction a; simpl; congruence. Qed.

Lemma append_empty_r s : s +++ "" = s.
Proof. induction s; simpl; congruence. Qed.

Lemma append_snoc s c t : snoc s c +++ t = s +++ String c t.
Proof. unfold snoc. induction s; simpl; congruence. Qed.

Lemma mem_char_app c s t :
  mem_char c (s +++ t) = mem_char c s || mem_char c t.
Proof.
  induction s as [|a s IH]; simpl; [reflexivity|].
  now rewrite IH, orb_assoc.
Qed.

(** ** The tokenizer as a scan *)

Lemma scan_app m s1 s2 :
  scan m (s1 +++ s2) =
  (fst (scan (fst (scan m s1)) s2),
   snd (scan m s1) ++ snd (scan (fst (scan m s1)) s2)).
Proof.
  revert m. induction s1 as [|c s1 IH]; intros m; simpl.
  - destruct (scan m s2); reflexivity.
  - destruct (lstep m c) as [m1 ts]. rewrite IH.
    destruct (scan m1 s1) as [m2 ts2]; simpl.
    destruct (scan m2 s2) as [m3 ts3]; simpl.
    now rewrite app_assoc.
Qed.

Lemma lex_scan m s :
  lex_from m s =
  match lfinish (fst (scan m s)) with
  | Some r => Some (snd (scan m s) ++ r)
  | None => None
  end.
Proof.
  revert m. induction s as [|c s IH]; intros m; simpl.
  - destruct (lfinish m); reflexivity.
  - destruct (lstep m c) as [m1 ts]. rewrite IH.
    destruct (scan m1 s) as [m2 ts2]; simpl.
    destruct (lfinish m2); [rewrite app_assoc|]; reflexivity.
Qed.

Lemma scan_dq_plain x : forall acc,
  mem_char DQ x = false -> scan (LDq acc) x = (LDq (acc +++ x), []).
Proof.
  induction x as [|c x IH]; intros acc H; simpl in *.
  - now rewrite append_empty_r.
  - apply orb_false_iff in H as [Hc Hx].
    rewrite Hc. rewrite (IH _ Hx). now rewrite append_snoc.
Qed.

Lemma scan_sq_plain x : forall acc,
  mem_char SQ x = false -> scan (LSq acc) x = (LSq (acc +++ x), []).
Proof.
  induction x as [|c x IH]; intros acc H; simpl in *.
  - now rewrite append_empty_r.
  - apply orb_false_iff in H as [Hc Hx].
    rewrite Hc. rewrite (IH _ Hx). now rewrite append_snoc.
Qed.

Lemma scan_dq_start x :
  mem_char DQ x = false -> scan (LDq "") x = (LDq x, []).
Proof. intros H. now rewrite scan_dq_plain. Qed.

Lemma scan_sq_start x :
  mem_char SQ x = false -> scan (LSq "") x = (LSq x, []).
Proof. intros H. now rewrite scan_sq_plain. Qed.

Lemma scan_tabs_start n : scan LStart (tabs n) = (LStart, []).
Proof. induction n; simpl; [reflexivity|]. now rewrite IHn. Qed.

(** ** Integers in a statement text *)

Lemma scan_digits x : forall acc,
  all_digits x = true -> scan (LNum acc) x = (LNum (acc +++ x), []).
Proof.
  induction x as [|c x IH]; intros acc H; simpl in *.
  - now rewrite append_empty_r.
  - apply andb_true_iff in H as [Hc Hx].
    rewrite Hc. rewrite (IH _ Hx). now rewrite append_snoc.
Qed.

Lemma all_digits_uint d : all_digits (NilEmpty.string_of_uint d) = true.
Proof. induction d; simpl; auto. Qed.

Lemma digit_not_space c : is_digit c = true -> is_space c = false.
Proof.
  destruct c as [[] [] [] [] [] [] [] []]; try discriminate; reflexivity.
Qed.

Lemma str_Z_nonneg n :
  0 <= n ->
  exists d, d <> Decimal.Nil /\ str_Z n = NilEmpty.string_of_uint d
            /\ Z.of_N (N.of_uint d) = n.
Proof.
  intros Hn. unfold str_Z. destruct n as [|p|p]; try lia.
  - exists (Decimal.D0 Decimal.Nil). repeat split; discriminate.
  - exists (Pos.to_uint p). split; [|split].
    + apply DecimalPos.Unsigned.to_uint_nonnil.
    + simpl. pose proof (DecimalPos.Unsigned.to_uint_nonnil p).
      destruct (Pos.to_uint p); try reflexivity. congruence.
    + unfold N.of_uint. now rewrite DecimalPos.Unsigned.of_to.
Qed.

Lemma scan_number n :
  0 <= n -> scan LStart (str_Z n) = (LNum (str_Z n), []).
Proof.
  intros Hn. destruct (str_Z_nonneg n Hn) as (d & Hnil & E & _).
  pose proof (all_digits_uint d) as Hd. rewrite <- E in Hd.
  destruct (str_Z n) as [|c s] eqn:Es.
  - destruct d; try congruence; discriminate.
  - simpl in Hd. apply andb_true_iff in Hd as [Hc Hs].
    simpl. unfold lstart. rewrite (digit_not_space c Hc), Hc.
    rewrite (scan_digits s _ Hs). reflexivity.
Qed.

Lemma num_token_str_Z n :
  0 <= n <= max_int64 -> num_token (str_Z n) = TInt n.
Proof.
  intros [Hn Hmax]. destruct (str_Z_nonneg n Hn) as (d & Hnil & E & Hv).
  unfold num_token. rewrite E.
  assert (NilZero.uint_of_string (NilEmpty.string_of_uint d) = Some d) as ->.
  { rewrite <- (NilZero.usu d Hnil). f_equal.
    destruct d; try congruence; reflexivity. }
  rewrite Hv. apply Z.leb_le in Hmax. now rewrite Hmax.
Qed.

(** Scanning the next piece of a text: a constant piece is computed, a
    variable one is rewritten with the lemma for it. *)
Ltac scan_const :=
  match goal with
  | |- context [scan ?m (?c +++ ?rest)] =>
      rewrite (scan_app m c rest);
      let v := eval vm_compute in (scan m c) in
      replace (scan m c) with v by (vm_compute; reflexivity);
      cbn [fst snd]
  end.

Ltac scan_var lem :=
  match goal with
  | |- context [scan ?m (?c +++ ?rest)] =>
      rewrite (scan_app m c rest);
      rewrite lem;
      cbn [fst snd]
  end.

Ltac scan_last :=
  match goal with
  | |- context [scan ?m ?c] =>
      let v := eval vm_compute in (scan m c) in
      replace (scan m c) with v by (vm_compute; reflexivity);
      cbn [fst snd]
  end.

(** ** The statements of the engine on well-behaved values *)

Lemma strip_app pre rest :
  forallb (fun t => token_eqb t t) pre = true -> strip pre (pre ++ rest) = Some rest.
Proof.
  induction pre as [|p pre IH]; simpl; intros H; [reflexivity|].
  apply andb_true_iff in H as [Hp Hpre]. rewrite Hp. auto.
Qed.

(** The text of an INSERT with its pieces abstracted. *)
Lemma tokenize_insert_pieces f rel ds h p :
  mem_char DQ f = false -> mem_char DQ rel = false ->
  mem_char DQ h = false -> mem_char DQ p = false ->
  scan LStart ds = (LNum ds, []) ->
  tokenize (nl +++ tabs 4 +++ "INSERT INTO files VALUES" +++ nl +++ tabs 4
            +++ "(" +++ quoted f +++ ", " +++ quoted rel +++ ", " +++ ds
            +++ ", " +++ quoted h +++ ", " +++ quoted p +++ ")" +++ nl
            +++ tabs 4) =
  Some (head_insert ++
        [TDq f; TSym ","; TDq rel; TSym ","; num_token ds; TSym ",";
         TDq h; TSym ","; TDq p; TSym ")"]).
Proof.
  intros Hf Hrel Hh Hp Hds. unfold tokenize, quoted.
  rewrite lex_scan. repeat rewrite append_assoc.
  scan_const. scan_const. scan_const. scan_const. scan_const. scan_const.
  scan_const. scan_var (scan_dq_start f Hf). scan_const. scan_const.
  scan_const. scan_var (scan_dq_start rel Hrel). scan_const. scan_const.
  scan_var Hds.
  match goal with
  | |- context [scan ?m (?c +++ ?rest)] =>
      rewrite (scan_app m c rest);
      replace (scan m c) with (LStart, [num_token ds; TSym ","])
        by reflexivity;
      cbn [fst snd]
  end.
  scan_const.
  scan_var (scan_dq_start h Hh). scan_const. scan_const. scan_const.
  scan_var (scan_dq_start p Hp). scan_const. scan_const. scan_const.
  scan_last. reflexivity.
Qed.

Lemma tokenize_insert_plain f rel n hs ps :
  mem_char DQ f = false -> mem_char DQ rel = false ->
  mem_char DQ (str_opt hs) = false -> mem_char DQ (str_opt ps) = false ->
  0 <= n <= max_int64 ->
  tokenize (insert_sql f rel n hs ps) =
  Some (head_insert ++
        [TDq f; TSym ","; TDq rel; TSym ","; TInt n; TSym ",";
         TDq (str_opt hs); TSym ","; TDq (str_opt ps); TSym ")"]).
Proof.
  intros Hf Hrel Hh Hp Hn. unfold insert_sql.
  rewrite (tokenize_insert_pieces f rel (str_Z n) _ _ Hf Hrel Hh Hp
             (scan_number n (proj1 Hn))).
  now rewrite (num_token_str_Z n Hn).
Qed.

Theorem update_insert_plain d f rel n hs ps :
  mem_char DQ f = false -> mem_char DQ rel = false ->
  mem_char DQ (str_opt hs) = false -> mem_char DQ (str_opt ps) = false ->
  0 <= n <= max_int64 ->
  Sqlite.update d (insert_sql f rel n hs ps) =
  Ok (Db (files d ++ [FRow (VText f) (VText rel) (VInt n)
                            (VText (str_opt hs)) (VText (str_opt ps))])
         (sub_dbs d)).
Proof.
  intros Hf Hrel Hh Hp Hn. unfold Sqlite.update, execute.
  rewrite (tokenize_insert_plain f rel n hs ps Hf Hrel Hh Hp Hn).
  reflexivity.
Qed.

Lemma tokenize_delete_file_plain indent x :
  mem_char DQ x = false ->
  tokenize (delete_file_sql indent (VText x)) =
  Some (head_delete_file ++ [TDq x]).
Proof.
  intros Hx. unfold tokenize, delete_file_sql, quoted, py_str.
  rewrite lex_scan. repeat rewrite append_assoc.
  scan_const. scan_var scan_tabs_start. scan_const. scan_const.
  scan_var (scan_dq_start x Hx). scan_const. scan_const.
  rewrite scan_tabs_start. reflexivity.
Qed.

Theorem update_delete_file_plain d indent x :
  mem_char DQ x = false -> resolve_files x = Literal x ->
  Sqlite.update d (delete_file_sql indent (VText x)) =
  Ok (Db (keep (fun r => sql_eqb (relpath r) (VText x)) (files d)) (sub_dbs d)).
Proof.
  intros Hx Hr. unfold Sqlite.update, execute.
  rewrite (tokenize_delete_file_plain indent x Hx).
  replace (parse (head_delete_file ++ [TDq x])) with (Some (DeleteFile x))
    by reflexivity.
  cbn [run]. rewrite Hr. reflexivity.
Qed.

(** ** Queries *)

Lemma query_select_files d : query_files d select_files_sql = Ok (files d).
Proof. reflexivity. Qed.

Lemma query_select_sub_dbs d :
  query_sub_dbs d select_sub_dbs_sql = Ok (sub_dbs d).
Proof. reflexivity. Qed.

Lemma query_positive d :
  query_files d Planner.positive_query =
  Ok (filter (fun r => sql_gtb_int (size r) 0) (files d)).
Proof. reflexivity. Qed.

Lemma tokenize_by_size_pieces (head : string) ds hd :
  scan LStart head = (LStart, hd) ->
  scan LStart ds = (LNum ds, []) ->
  tokenize (head +++ ds) = Some (hd ++ [num_token ds]).
Proof.
  intros Hh Hds. unfold tokenize. rewrite lex_scan, scan_app, Hh.
  cbn [fst snd]. rewrite Hds. cbn [fst snd lfinish]. now rewrite app_nil_r.
Qed.

Lemma query_by_size d n :
  0 <= n <= max_int64 ->
  query_files d (select_by_size_sql n) =
  Ok (filter (fun r => sql_eqb (size r) (VInt n)) (files d)).
Proof.
  intros Hn. unfold query_files, execute, select_by_size_sql.
  rewrite (tokenize_by_size_pieces _ (str_Z n) (head_select5 ++ where_size_eq))
    by (reflexivity || apply scan_number, Hn).
  rewrite (num_token_str_Z n Hn). reflexivity.
Qed.

Lemma query_same_size d n :
  0 <= n <= max_int64 ->
  query_files d (select_same_size_sql (VInt n)) =
  Ok (filter (fun r => sql_eqb (size r) (VInt n)) (files d)).
Proof.
  intros Hn. unfold query_files, execute, select_same_size_sql, py_str.
  rewrite (tokenize_by_size_pieces _ (str_Z n)
             (head_select_star ++ where_size_eq))
    by (reflexivity || apply scan_number, Hn).
  rewrite (num_token_str_Z n Hn). reflexivity.
Qed.

Lemma tokenize_key_pieces ds p :
  scan LStart ds = (LNum ds, []) -> mem_char SQ p = false ->
  tokenize ("SELECT * FROM files WHERE size == " +++ ds
            +++ " AND parthash == '" +++ p +++ "'") =
  Some (head_select_star ++ where_size_eq ++ [num_token ds]
        ++ and_parthash_eq ++ [TSq p]).
Proof.
  intros Hds Hp. unfold tokenize. rewrite lex_scan.
  scan_const. scan_var Hds.
  match goal with
  | |- context [scan ?m (?c +++ ?rest)] =>
      rewrite (scan_app m c rest);
      replace (scan m c)
        with (LSq "", num_token ds :: and_parthash_eq) by reflexivity;
      cbn [fst snd]
  end.
  scan_var (scan_sq_start p Hp). scan_last. reflexivity.
Qed.

(** The query of the planner for a record with an integer size and a
    text fingerprint free of single quotes. *)
Lemma query_key d e n p :
  size e = VInt n -> 0 <= n <= max_int64 ->
  parthash e = VText p -> mem_char SQ p = false ->
  query_files d (Planner.key_query e) =
  Ok (filter (fun r => sql_eqb (size r) (VInt n)
                       && sql_eqb (parthash r) (VText p)) (files d)).
Proof.
  intros Hs Hn Hp Hq. unfold query_files, execute, Planner.key_query.
  rewrite Hs, Hp. unfold py_str.
  rewrite (tokenize_key_pieces (str_Z n) p (scan_number n (proj1 Hn)) Hq).
  rewrite (num_token_str_Z n Hn). reflexivity.
Qed.

(** ** What a statement of the engine can do at all *)

(** Whatever is interpolated, an INSERT of the engine that succeeds
    appends one row of text and integer values, and a DELETE only
    removes rows of the relation it names. *)

Lemma tokenize_insert_head f rel n hs ps ts :
  tokenize (insert_sql f rel n hs ps) = Some ts ->
  exists r, ts = head_insert ++ r.
Proof.
  unfold tokenize, insert_sql. rewrite lex_scan.
  scan_const. scan_const. scan_const. scan_const. scan_const. scan_const.
  destruct (lfinish _) as [l|]; [|discriminate].
  intros [= <-]. eexists. cbn [app]. reflexivity.
Qed.

Lemma tokenize_delete_file_head indent v ts :
  tokenize (delete_file_sql indent v) = Some ts ->
  exists r, ts = head_delete_file ++ r.
Proof.
  unfold tokenize, delete_file_sql. rewrite lex_scan.
  scan_const. scan_var scan_tabs_start. scan_const.
  destruct (lfinish _) as [l|]; [|discriminate].
  intros [= <-]. eexists. cbn [app]. reflexivity.
Qed.

Lemma tokenize_delete_sub_head v ts :
  tokenize (delete_sub_db_sql v) = Some ts ->
  exists r, ts = head_delete_sub ++ r.
Proof.
  unfold tokenize, delete_sub_db_sql. rewrite lex_scan.
  scan_const. scan_const. scan_const.
  destruct (lfinish _) as [l|]; [|discriminate].
  intros [= <-]. eexists. cbn [app]. reflexivity.
Qed.

Lemma parse_insert_shape r s :
  parse (head_insert ++ r) = Some s ->
  exists f rel n h p, s = InsertFile f rel n h p.
Proof.
  unfold parse.
  replace (strip head_insert (head_insert ++ r)) with (Some r)
    by (symmetry; apply strip_app; reflexivity).
  do 10 (destruct r as [|[] r]; try discriminate).
  destruct r; try discriminate.
  destruct (_ && _); [|discriminate].
  intros [= <-]. repeat eexists.
Qed.

Lemma parse_delete_file_shape r s :
  parse (head_delete_file ++ r) = Some s -> exists tok, s = DeleteFile tok.
Proof.
  unfold parse.
  replace (strip head_insert (head_delete_file ++ r)) with (@None (list token))
    by reflexivity.
  replace (strip head_delete_file (head_delete_file ++ r)) with (Some r)
    by (symmetry; apply strip_app; reflexivity).
  destruct r as [|[] [|]]; try discriminate.
  intros [= <-]. eexists; reflexivity.
Qed.

Lemma parse_delete_sub_shape r s :
  parse (head_delete_sub ++ r) = Some s -> exists tok, s = DeleteSubDb tok.
Proof.
  unfold parse.
  replace (strip head_insert (head_delete_sub ++ r)) with (@None (list token))
    by reflexivity.
  replace (strip head_delete_file (head_delete_sub ++ r))
    with (@None (list token)) by reflexivity.
  replace (strip head_delete_sub (head_delete_sub ++ r)) with (Some r)
    by (symmetry; apply strip_app; reflexivity).
  destruct r as [|[] [|]]; try discriminate.
  intros [= <-]. eexists; reflexivity.
Qed.

Lemma update_inv d sql d' :
  Sqlite.update d sql = Ok d' ->
  exists ts s rows, tokenize sql = Some ts /\ parse ts = Some s
                    /\ run s d = Ok (d', rows).
Proof.
  unfold Sqlite.update, execute.
  destruct (tokenize sql) as [ts|]; [|discriminate].
  destruct (parse ts) as [s|] eqn:P; [|discriminate].
  cbn [bind]. destruct (run s d) as [[d1 rows]| |] eqn:E; try discriminate.
  cbn. intros [= <-]. exists ts, s, rows. auto.
Qed.

Lemma update_insert_effect d f rel n hs ps d' :
  Sqlite.update d (insert_sql f rel n hs ps) = Ok d' ->
  sub_dbs d' = sub_dbs d /\
  exists f' rel' n' h' p',
    files d' = files d ++ [FRow (VText f') (VText rel') (VInt n')
                                (VText h') (VText p')].
Proof.
  intros H. apply update_inv in H as (ts & s & rows & Ht & Hp & Hr).
  apply tokenize_insert_head in Ht as [r ->].
  apply parse_insert_shape in Hp as (f' & rel' & n' & h' & p' & ->).
  cbn in Hr. injection Hr as <- _. split; [reflexivity|].
  now exists f', rel', n', h', p'.
Qed.

Lemma update_delete_file_effect d indent v d' :
  Sqlite.update d (delete_file_sql indent v) = Ok d' ->
  sub_dbs d' = sub_dbs d /\ exists p, files d' = keep p (files d).
Proof.
  intros H. apply update_inv in H as (ts & s & rows & Ht & Hp & Hr).
  apply tokenize_delete_file_head in Ht as [r ->].
  apply parse_delete_file_shape in Hp as (tok & ->).
  cbn in Hr. destruct (resolve_files tok); try discriminate;
    injection Hr as <- _; (split; [reflexivity|eexists; reflexivity]).
Qed.

Lemma update_delete_sub_effect d v d' :
  Sqlite.update d (delete_sub_db_sql v) = Ok d' ->
  files d' = files d /\ exists p, sub_dbs d' = keep p (sub_dbs d).
Proof.
  intros H. apply update_inv in H as (ts & s & rows & Ht & Hp & Hr).
  apply tokenize_delete_sub_head in Ht as [r ->].
  apply parse_delete_sub_shape in Hp as (tok & ->).
  cbn in Hr.
  destruct (String.eqb (lower tok) "relpath");
    [|destruct (is_rowid_name (lower tok)); try discriminate];
    injection Hr as <- _; (split; [reflexivity|eexists; reflexivity]).
Qed.

Lemma In_keep {A} (p : A -> bool) l x : In x (keep p l) -> In x l.
Proof. unfold keep. intros H. now apply filter_In in H. Qed.

End SqliteFacts.

(* ================================================================== *)
(** * Facts about fingerprints *)
(* ================================================================== *)

Module FingerprintFacts.

Import Fingerprint.

Section Digest.

Variable md5 : bytes -> N.

(** ** [hash_file] digests the whole content *)

Lemma firstn_then_rest {A} (k : nat) (l : list A) :
  firstn k l ++ skipn (List.length (firstn k l)) l = l.
Proof.
  rewrite length_firstn.
  destruct (Nat.le_ge_cases k (List.length l)).
  - rewrite Nat.min_l by assumption. apply firstn_skipn.
  - rewrite Nat.min_r by assumption.
    rewrite firstn_all2, skipn_all2 by lia. apply app_nil_r.
Qed.

Lemma hash_file_loop_reads_rest (data : bytes) (bufsize : Z) :
  0 < bufsize ->
  forall fuel p h,
    0 <= p ->
    (List.length (skipn (Z.to_nat p) data) < fuel)%nat ->
    hash_file_loop fuel bufsize (Handle data p) h
    = Some (h ++ skipn (Z.to_nat p) data).
Proof.
  intros Hb. induction fuel as [|fuel IH]; intros p h Hp Hfuel; [lia|].
  cbn [hash_file_loop]. unfold read. cbn [content pos].
  assert ((bufsize <? 0) = false) as -> by (apply Z.ltb_ge; lia).
  set (rest := skipn (Z.to_nat p) data) in *.
  set (out := firstn (Z.to_nat bufsize) rest).
  destruct (List.length out =? 0)%nat eqn:E.
  - apply Nat.eqb_eq in E. f_equal.
    assert (rest = []) as ->.
    { destruct rest as [|b rest']; [reflexivity|].
      subst out. destruct (Z.to_nat bufsize) eqn:Eb; [lia|]. discriminate. }
    now rewrite app_nil_r.
  - apply Nat.eqb_neq in E.
    rewrite IH.
    + f_equal. unfold update. rewrite <- app_assoc. f_equal.
      replace (Z.to_nat (p + Z.of_nat (List.length out)))
        with (List.length out + Z.to_nat p)%nat by lia.
      rewrite <- skipn_skipn. fold rest.
      subst out. apply firstn_then_rest.
    + lia.
    + replace (Z.to_nat (p + Z.of_nat (List.length out)))
        with (List.length out + Z.to_nat p)%nat by lia.
      rewrite <- skipn_skipn. fold rest. rewrite length_skipn.
      subst out. rewrite length_firstn in *. lia.
Qed.

Lemma hash_file_with_whole (bufsize : Z) (data : bytes) :
  0 < bufsize ->
  hash_file_with md5 bufsize data = Some (hexdigest md5 data).
Proof.
  intros Hb. unfold hash_file_with, open.
  rewrite (hash_file_loop_reads_rest data bufsize Hb); cbn; [reflexivity|lia|lia].
Qed.

(** [hash_file] returns, and returns the digest of the content. *)
Theorem hash_file_whole (data : bytes) :
  hash_file md5 data = Some (hexdigest md5 data).
Proof. apply hash_file_with_whole. lia. Qed.

(** ** [hash_file_partial] *)

Lemma partial_message_small (data : bytes) (chunk : Z) :
  st_size data <= chunk * 2 ->
  partial_message data chunk = Ok data.
Proof.
  intros H. unfold partial_message.
  apply Z.leb_le in H. rewrite H. reflexivity.
Qed.

Lemma partial_message_large (data : bytes) (chunk : Z) :
  0 < chunk -> chunk * 2 < st_size data ->
  partial_message data chunk = Ok (firstn (Z.to_nat chunk) data).
Proof.
  intros Hc H. unfold partial_message, st_size in *.
  assert ((Z.of_nat (List.length data) <=? chunk * 2) = false) as ->
    by (apply Z.leb_gt; lia).
  unfold read, open, seek_end, st_size. cbn [content pos].
  assert ((chunk <? 0) = false) as -> by (apply Z.ltb_ge; lia).
  cbn [skipn Z.to_nat content].
  assert ((Z.of_nat (List.length data) + chunk <? 0) = false) as ->
    by (apply Z.ltb_ge; lia).
  cbn [bind content pos].
  rewrite skipn_all2 by lia.
  rewrite firstn_nil. unfold update. cbn [app]. now rewrite app_nil_r.
Qed.

End Digest.

(** ** Digests are plain text *)

Lemma hex_char_not (c : ascii) (d : N) :
  (d < 16)%N -> (c = DQ \/ c = SQ) -> Ascii.eqb (hex_char d) c = false.
Proof.
  intros Hd Hc.
  assert (d = 0 \/ d = 1 \/ d = 2 \/ d = 3 \/ d = 4 \/ d = 5 \/ d = 6 \/ d = 7
          \/ d = 8 \/ d = 9 \/ d = 10 \/ d = 11 \/ d = 12 \/ d = 13 \/ d = 14
          \/ d = 15)%N as H by lia.
  destruct Hc as [-> | ->];
    repeat (destruct H as [-> | H]; [reflexivity|]); subst; reflexivity.
Qed.

Lemma hex_of_plain (c : ascii) (k : nat) :
  (c = DQ \/ c = SQ) -> forall v, mem_char c (hex_of k v) = false.
Proof.
  intros Hc. induction k as [|k IH]; intros v; cbn [hex_of]; [reflexivity|].
  rewrite SqliteFacts.mem_char_app, IH. cbn [mem_char orb].
  rewrite hex_char_not; auto.
  apply N.mod_lt. discriminate.
Qed.

Lemma hexdigest_no_dq md5 h : mem_char DQ (hexdigest md5 h) = false.
Proof. apply hex_of_plain. now left. Qed.

Lemma hexdigest_no_sq md5 h : mem_char SQ (hexdigest md5 h) = false.
Proof. apply hex_of_plain. now right. Qed.

End FingerprintFacts.

(* ================================================================== *)
(** * Properties of the fingerprints *)
(* ================================================================== *)

Module FingerprintClaims.

Import Fingerprint FingerprintFacts.

(** For a file of at most two chunks the partial fingerprint is the
    digest of the whole file. *)
Lemma hash_file_partial_small md5 (data : bytes) (chunk : Z) :
  st_size data <= chunk * 2 ->
  hash_file_partial md5 data chunk = Ok (hexdigest md5 data).
Proof.
  intros H. unfold hash_file_partial.
  now rewrite (partial_message_small data chunk H).
Qed.

(** C1.  For a file of more than two chunks, and a positive chunk, the
    partial fingerprint is the digest of the first chunk ALONE: the
    program seeks to [chunk] bytes PAST the end ([f.seek(chunk_size, 2)])
    and the second read returns nothing.  The message that is digested is
    not the first chunk followed by the last one. *)
Theorem partial_fingerprint_of_large_file md5 (data : bytes) (chunk : Z) :
  0 < chunk -> chunk * 2 < st_size data ->
  partial_message data chunk = Ok (firstn (Z.to_nat chunk) data)
  /\ hash_file_partial md5 data chunk
     = Ok (hexdigest md5 (firstn (Z.to_nat chunk) data))
  /\ partial_message data chunk <> Ok (head_and_tail data chunk).
Proof.
  intros Hc Hs.
  pose proof (partial_message_large data chunk Hc Hs) as Hm.
  split; [exact Hm|]. split.
  - unfold hash_file_partial. now rewrite Hm.
  - rewrite Hm. intros [= H]. unfold head_and_tail in H.
    apply (f_equal (@List.length byte)) in H.
    rewrite length_app, length_skipn in H. unfold st_size in Hs. lia.
Qed.

Lemma partial_fingerprint_of_large_file_witness :
  0 < 1 /\ 1 * 2 < st_size [x01; x02; x03]
  /\ hash_file_partial Md5.md5 [x01; x02; x03] 1
     = Ok "55a54008ad1ba589aa210d2629c1df41"
  /\ hexdigest Md5.md5 (head_and_tail [x01; x02; x03] 1)
     = "706acf3204a3d094942c7bc49eba2aa8".
Proof.
  assert (H0 : 0 < 1) by lia.
  assert (H1 : 1 * 2 < st_size [x01; x02; x03]) by (cbn; lia).
  split; [exact H0|]. split; [exact H1|]. split.
  - rewrite (proj1 (proj2 (partial_fingerprint_of_large_file
                             Md5.md5 [x01; x02; x03] 1 H0 H1))).
    vm_compute. reflexivity.
  - vm_compute. reflexivity.
Defined.

End FingerprintClaims.

(* ================================================================== *)
(** * Facts about the planner *)
(* ================================================================== *)

Module PlannerFacts.

Import Sqlite Planner SqliteFacts.

(** ** Loops *)

Lemma for_each_preserves {A S} (P : S -> Prop) (body : A -> S -> result S) xs :
  (forall x s s', In x xs -> P s -> body x s = Ok s' -> P s') ->
  forall st st', P st -> for_each body xs st = Ok st' -> P st'.
Proof.
  induction xs as [|x xs IH]; simpl; intros Hstep st st' HP H.
  - now injection H as <-.
  - destruct (body x st) as [s1| |] eqn:E; simpl in H; try discriminate.
    apply (IH (fun y s s' Hy => Hstep y s s' (or_intror Hy)) s1 st');
      [|assumption].
    apply (Hstep x st s1); auto.
Qed.



Lemma py_eqb_refl v : py_eqb v v = true.
Proof.
  destruct v; simpl; auto using Z.eqb_refl, String.eqb_refl.
Qed.

(** ** Steps that leave the books alone *)

Lemma missing_total_app s l :
  missing_total (s ++ [l]) = missing_total s + missing_size l.
Proof.
  unfold missing_total. induction s as [|x s IH]; simpl; [lia|].
  rewrite IH. lia.
Qed.

Lemma steady_refl st : steady_step st st.
Proof. repeat split. Qed.

Lemma steady_trans a b c : steady_step a b -> steady_step b c -> steady_step a c.
Proof. unfold steady_step. intuition congruence. Qed.

Lemma steady_write l st : missing_size l = 0 -> steady_step st (write l st).
Proof.
  intros H. unfold steady_step, write; cbn.
  rewrite missing_total_app, H. repeat split. lia.
Qed.

Lemma steady_add_action st : steady_step st (add_action st).
Proof. repeat split. Qed.

Lemma steady_ensure_mkdir dir st : steady_step st (ensure_mkdir dir st).
Proof.
  unfold ensure_mkdir. destruct (mem _ _ _); [apply steady_refl|].
  unfold steady_step, write; cbn. rewrite missing_total_app. cbn.
  repeat split. lia.
Qed.

(** Steps made of [ensure_mkdir], a write of a line that is not a
    missing line, and [add_action]. *)
Ltac steady :=
  repeat first
    [ apply steady_refl
    | apply steady_ensure_mkdir
    | eapply steady_trans; [|apply steady_add_action]
    | eapply steady_trans; [|apply steady_write; reflexivity] ].

Lemma one_to_one_steady l_all r_all st st' :
  one_to_one l_all r_all st = Ok st' -> steady_step st st'.
Proof.
  unfold one_to_one.
  destruct (first_of_first l_all) as [src| |]; try discriminate.
  destruct (first_of_first r_all) as [dst| |]; try discriminate.
  cbn [bind]. destruct (negb _).
  - destruct (dirname_of (relpath src)) as [mkdir| |]; try discriminate.
    cbn [bind]. destruct (String.eqb mkdir "").
    + intros [= <-]. apply steady_refl.
    + intros [= <-].
      steady.
  - intros [= <-]. apply steady_refl.
Qed.

Lemma place_steady dbpath e r_num l rs st found l' rs' st' found' :
  place dbpath e r_num l (rs, st, found) = Ok (l', (rs', st', found')) ->
  steady_step st st'.
Proof.
  unfold place. destruct (matched l).
  - intros [= _ _ <- _]. apply steady_refl.
  - destruct (take_unmatched rs) as [[r rs1]|].
    + destruct (dirname_of _) as [mkdir| |]; try discriminate.
      cbn [bind]. intros [= _ _ <- _].
      steady.
    + destruct rs as [|r rs0].
      * destruct (0 <? r_num)%nat; try discriminate.
        intros [= _ _ <- _]. apply steady_refl.
      * destruct (dirname_of _) as [mkdir| |]; try discriminate.
        cbn [bind]. intros [= _ _ <- _].
        steady.
Qed.

Lemma move_pass_steady dbpath e r_num ls :
  forall rs st found ls' rs' st' found',
    move_pass dbpath e r_num ls (rs, st, found) = Ok (ls', (rs', st', found')) ->
    steady_step st st'.
Proof.
  induction ls as [|l ls IH]; intros rs st found ls' rs' st' found';
    cbn [move_pass].
  - intros [= _ _ <- _]. apply steady_refl.
  - destruct (place dbpath e r_num l (rs, st, found))
      as [[l1 [[rs1 st1] f1]]| |] eqn:E; try discriminate.
    cbn [bind snd].
    destruct (move_pass dbpath e r_num ls (rs1, st1, f1))
      as [[ls2 [[rs2 st2] f2]]| |] eqn:E2; try discriminate.
    cbn [bind fst snd]. intros H. inversion H; subst.
    apply (steady_trans st st1 st').
    + eapply place_steady; exact E.
    + eapply IH; exact E2.
Qed.

Lemma many_to_many_steady dbpath e l_all r_all st st' :
  many_to_many dbpath e l_all r_all st = Ok st' -> steady_step st st'.
Proof.
  unfold many_to_many.
  destruct (identity_pass _ _ _ _ _) as [[ls1 rs1] found1].
  destruct (move_pass _ _ _ _ _) as [[ls2 [[rs2 st2] f2]]| |] eqn:E;
    try discriminate.
  cbn [bind].
  destruct (existsb _ _); try discriminate.
  destruct (_ && _); try discriminate.
  destruct (_ && _); try discriminate.
  intros [= <-]. eapply move_pass_steady; eauto.
Qed.

(** ** The body of the loop over the entries *)

(** What [plan_entry] does to the books: nothing when the fingerprint
    was seen before; otherwise the fingerprint joins [done], and the byte
    counter moves together with the missing lines. *)
Lemma plan_entry_books src dst dbpath e st st' :
  plan_entry src dst dbpath e st = Ok st' ->
  (mem py_eqb (parthash e) (done st) = true /\ st' = st)
  \/ (mem py_eqb (parthash e) (done st) = false
      /\ done st' = done st ++ [parthash e]
      /\ transfer_bytes st' - missing_total (script st')
         = transfer_bytes st - missing_total (script st)).
Proof.
  unfold plan_entry.
  destruct (mem py_eqb (parthash e) (done st)) eqn:Hdone.
  - intros [= <-]. now left.
  - intros H. right. split; [reflexivity|].
    destruct (query_each src (key_query e)) as [l_all| |]; try discriminate.
    destruct (query_each dst (key_query e)) as [r_all| |]; try discriminate.
    cbn [bind] in H.
    set (st1 := mark_done (parthash e) st) in *.
    assert (Hst1 : done st1 = done st ++ [parthash e]
                   /\ transfer_bytes st1 = transfer_bytes st
                   /\ script st1 = script st) by (repeat split).
    destruct Hst1 as (Hd & Ht & Hs).
    destruct (_ && _).
    + apply one_to_one_steady in H as (A & B & C).
      rewrite A, B, C, Ht, Hs. split; [assumption|reflexivity].
    + destruct (count l_all =? 0)%nat; try discriminate.
      destruct (count r_all =? 0)%nat.
      * unfold add_transfer in H. cbn in H.
        destruct (size e) as [|z|] eqn:Es; try discriminate.
        injection H as <-. cbn. rewrite missing_total_app. cbn.
        rewrite Es. split; [reflexivity|]. lia.
      * apply many_to_many_steady in H as (A & B & C).
        rewrite A, B, C, Ht, Hs. split; [assumption|reflexivity].
Qed.

(** ** Transfer accounting *)

Lemma plan_entry_balanced src dst dbpath e st st' :
  balanced st -> plan_entry src dst dbpath e st = Ok st' -> balanced st'.
Proof.
  unfold balanced. intros Hb H.
  apply plan_entry_books in H as [[_ ->] | (_ & _ & H)]; [assumption|lia].
Qed.

Lemma plan_db_balanced src dst x st st' :
  balanced st -> plan_db src dst x st = Ok st' -> balanced st'.
Proof.
  destruct x as [dbpath d]. unfold plan_db. rewrite query_positive.
  cbn [bind]. intros Hb H.
  eapply for_each_preserves; [| |exact H].
  - intros e s s' _. apply plan_entry_balanced.
  - unfold balanced in *. destruct (subdir st); cbn;
      rewrite ?missing_total_app; cbn; lia.
Qed.

(** The byte counter at the end of planning is the sum of the sizes of
    the records that got a "missing on destination" line. *)
Theorem transfer_accounting src dst st :
  plan src dst = Ok st -> transfer_bytes st = missing_total (script st).
Proof.
  unfold plan.
  destruct (for_each (plan_db src dst) src initial) as [s1| |] eqn:E;
    try discriminate.
  cbn [bind]. intros H.
  assert (Hb : balanced s1).
  { eapply for_each_preserves; [| |exact E].
    - intros x s s' _. apply plan_db_balanced.
    - reflexivity. }
  unfold balanced in Hb.
  destruct (subdir s1); injection H as <-; cbn;
    rewrite ?missing_total_app; cbn; lia.
Qed.

(** ** The iterated record is among its own matches *)

Lemma query_each_keyed dbs e n p :
  size e = VInt n -> 0 <= n <= max_int64 ->
  parthash e = VText p -> mem_char SQ p = false ->
  query_each dbs (key_query e) =
  Ok (map (fun x => (fst x, filter (key_match n p) (files (snd x)))) dbs).
Proof.
  intros Hs Hn Hp Hq. induction dbs as [|[path d] dbs IH]; cbn [query_each map].
  - reflexivity.
  - rewrite (query_key d e n p Hs Hn Hp Hq), IH. reflexivity.
Qed.

Lemma key_match_self e n p :
  size e = VInt n -> parthash e = VText p -> key_match n p e = true.
Proof.
  intros Hs Hp. unfold key_match. rewrite Hs, Hp. cbn.
  now rewrite Z.eqb_refl, String.eqb_refl.
Qed.

Lemma count_member per_db path rows (e : frow) :
  In (path, rows) per_db -> In e rows -> (1 <= count per_db)%nat.
Proof.
  unfold count. induction per_db as [|x per_db IH]; cbn; intros Hin He.
  - contradiction.
  - destruct Hin as [-> | Hin].
    + cbn. destruct rows; [contradiction|cbn; lia].
    + specialize (IH Hin He). lia.
Qed.







(** ** One fingerprint for all source records *)





(** ** The closing report *)

(** Rounding the quotient to 53 bits does not reach the next integer
    while the divisor is below twice the scale. *)
Lemma round_then_floor a b P :
  0 <= a -> 0 < b -> 0 < P -> b < 2 * P ->
  round_half_even (a * P) b / P = a / b.
Proof.
  intros Ha Hb HP HbP.
  pose proof (Z.div_mod a b ltac:(lia)) as Hab.
  pose proof (Z.mod_pos_bound a b Hb) as Hr.
  set (q := a / b) in *. set (r := a mod b) in *.
  pose proof (Z.div_mod (a * P) b ltac:(lia)) as HN.
  pose proof (Z.mod_pos_bound (a * P) b Hb) as HR.
  unfold round_half_even.
  set (Q := (a * P) / b) in *. set (R := (a * P) mod b) in *.
  assert (HQ1 : q * P <= Q) by nia.
  assert (HQ2 : Q < (q + 1) * P) by nia.
  destruct ((b <? 2 * R) || ((b =? 2 * R) && Z.odd Q)) eqn:Eup.
  - assert (Hup : b <= 2 * R).
    { apply Bool.orb_true_iff in Eup as [E | E].
      - apply Z.ltb_lt in E. lia.
      - apply Bool.andb_true_iff in E as [E _]. apply Z.eqb_eq in E. lia. }
    assert (Q + 1 < (q + 1) * P) by nia.
    symmetry. apply (Z.div_unique (Q + 1) P q (Q + 1 - q * P)); nia.
  - symmetry. apply (Z.div_unique Q P q (Q - q * P)); nia.
Qed.

Lemma quotient_exponent_low a b :
  0 < a -> 0 < b ->
  let e := quotient_exponent a b in
  (0 <= e -> b * 2 ^ e <= a) /\ (e < 0 -> b <= a * 2 ^ (- e))
  /\ Z.log2 a - Z.log2 b - 1 <= e.
Proof.
  intros Ha Hb. unfold quotient_exponent.
  pose proof (Z.log2_spec a Ha) as [Ha1 Ha2].
  pose proof (Z.log2_spec b Hb) as [Hb1 Hb2].
  pose proof (Z.log2_nonneg a) as Hla. pose proof (Z.log2_nonneg b) as Hlb.
  set (la := Z.log2 a) in *. set (lb := Z.log2 b) in *.
  destruct (0 <=? la - lb) eqn:Ed.
  - apply Z.leb_le in Ed.
    destruct (b * 2 ^ (la - lb) <=? a) eqn:Et.
    + apply Z.leb_le in Et. cbn zeta. repeat split; lia.
    + apply Z.leb_gt in Et. cbn zeta. repeat split; try lia.
      * intros He.
        assert (2 ^ la = 2 ^ (lb + 1) * 2 ^ (la - lb - 1))
          by (rewrite <- Z.pow_add_r by lia; f_equal; lia).
        assert (0 < 2 ^ (la - lb - 1)) by (apply Z.pow_pos_nonneg; lia).
        nia.
      * intros He. assert (la - lb = 0) by lia.
        replace (- (la - lb - 1)) with 1 by lia.
        replace (Z.succ lb) with (la + 1) in Hb2 by lia.
        rewrite Z.pow_add_r in Hb2 by lia. lia.
  - apply Z.leb_gt in Ed.
    destruct (b <=? a * 2 ^ (- (la - lb))) eqn:Et.
    + apply Z.leb_le in Et. cbn zeta. repeat split; lia.
    + cbn zeta. repeat split; try lia.
      intros _.
      assert (2 ^ (lb + 1) = 2 ^ la * 2 ^ (- (la - lb - 1)))
        by (rewrite <- Z.pow_add_r by lia; f_equal; lia).
      assert (0 < 2 ^ (- (la - lb - 1))) by (apply Z.pow_pos_nonneg; lia).
      replace (Z.succ lb) with (lb + 1) in Hb2 by lia.
      nia.
Qed.

(** [int(a / b)] is the integer quotient as long as the dividend is
    below 2^53. *)
Lemma truediv_int_floor a b :
  0 <= a < 2 ^ 53 -> 1 <= b <= 1000 ^ 4 -> truediv_int a b = Ok (a / b).
Proof.
  intros [Ha Ha53] [Hb Hbmax]. unfold truediv_int.
  assert ((b <=? 0) = false) as -> by (apply Z.leb_gt; lia).
  destruct (a =? 0) eqn:E0.
  { apply Z.eqb_eq in E0. subst a. now rewrite Z.div_0_l by lia. }
  apply Z.eqb_neq in E0.
  assert ((0 <? a) = true) as -> by (apply Z.ltb_lt; lia).
  unfold truediv_int_pos.
  destruct (quotient_exponent_low a b ltac:(lia) ltac:(lia)) as (Hlow1 & Hlow2 & Hmin).
  set (e := quotient_exponent a b) in *.
  assert (Hlb : Z.log2 b < 40).
  { apply Z.log2_lt_pow2; lia. }
  pose proof (Z.log2_nonneg a).
  assert ((e <? -1022) = false) as -> by (apply Z.ltb_ge; lia).
  assert (He52 : e <= 52).
  { destruct (Z_le_gt_dec e 52) as [|Hgt]; [assumption|exfalso].
    assert (2 ^ 53 <= 2 ^ e) by (apply Z.pow_le_mono_r; lia).
    specialize (Hlow1 ltac:(lia)). nia. }
  destruct (0 <=? e - 52) eqn:Esh.
  - apply Z.leb_le in Esh. assert (e = 52) by lia. subst e.
    replace (quotient_exponent a b) with 52 in * by lia.
    specialize (Hlow1 ltac:(lia)).
    assert (b = 1) by lia. subst b.
    replace (52 - 52) with 0 by lia. change (2 ^ 0) with 1.
    rewrite !Z.mul_1_r. unfold round_half_even.
    rewrite Z.div_1_r, Z.mod_1_r.
    replace ((1 <? 2 * 0) || ((1 =? 2 * 0) && Z.odd a)) with false
      by reflexivity.
    assert ((2 ^ 1024 <=? a) = false) as ->.
    { apply Z.leb_gt.
      assert (2 ^ 53 < 2 ^ 1024) by (apply Z.pow_lt_mono_r; lia). lia. }
    reflexivity.
  - apply Z.leb_gt in Esh. f_equal.
    apply round_then_floor; [lia|lia|apply Z.pow_pos_nonneg; lia|].
    replace (2 * 2 ^ (- (e - 52))) with (2 ^ (53 - e))
      by (replace (53 - e) with (1 + - (e - 52)) by lia;
          rewrite Z.pow_add_r by lia; reflexivity).
    destruct (Z_le_gt_dec 0 e) as [He|He].
    + specialize (Hlow1 He).
      assert (2 ^ 53 = 2 ^ e * 2 ^ (53 - e))
        by (rewrite <- Z.pow_add_r by lia; f_equal; lia).
      assert (0 < 2 ^ e) by (apply Z.pow_pos_nonneg; lia).
      nia.
    + specialize (Hlow2 ltac:(lia)).
      assert (2 ^ (53 - e) = 2 ^ 53 * 2 ^ (- e))
        by (rewrite <- Z.pow_add_r by lia; f_equal; lia).
      assert (0 < 2 ^ (- e)) by (apply Z.pow_pos_nonneg; lia).
      nia.
Qed.

Lemma pick_unit_spec tb :
  let u := pick_unit tb (seq 0 (List.length units)) 0 in
  (u <= 4)%nat
  /\ ((u < 4)%nat -> tb < 1000 ^ (Z.of_nat u + 1))
  /\ ((0 < u)%nat -> 1000 ^ Z.of_nat u <= tb).
Proof.
  cbn [units List.length seq pick_unit].
  repeat match goal with
         | |- context [if ?c then _ else _] =>
             let E := fresh "E" in
             destruct c eqn:E;
             [apply Z.ltb_lt in E | apply Z.ltb_ge in E]
         end;
    cbn zeta; repeat split; intros; try lia;
    cbn [Z.of_nat Pos.of_succ_nat Pos.succ Z.add Pos.add] in *; lia.
Qed.

End PlannerFacts.

(* ================================================================== *)
(** * Properties of the planner *)
(* ================================================================== *)

Module PlannerClaims.

Import Sqlite Planner SqliteFacts PlannerFacts Scenarios.

(** C2.  In the pure rename of the specification (source [a.txt],
    destination [b.txt], same size and fingerprint) the planner writes
    no [mv] line: the script only changes directory and no action is
    counted.  The source path has no directory part, and the branch for
    one source and one destination leaves the iteration at
    [if not mkdir: continue], before the [mv] is written. *)
Theorem pure_rename_writes_no_mv :
  exists st,
    plan rename_src rename_dst = Ok st
    /\ script st = [Shebang; CdInto "/src"; CdBack false "/src"]
    /\ n_actions st = 0.
Proof. eexists. vm_compute. repeat split. Qed.

(** The same in general: whenever the source record of the one-to-one
    branch lies directly under the root of its catalog, the branch
    changes nothing. *)
Lemma one_to_one_top_level_is_silent l_all r_all st st' src s :
  first_of_first l_all = Ok src -> relpath src = VText s -> dirname s = "" ->
  one_to_one l_all r_all st = Ok st' -> st' = st.
Proof.
  intros Hsrc Hrel Hdir. unfold one_to_one. rewrite Hsrc. cbn [bind].
  destruct (first_of_first r_all) as [dst| |]; try discriminate. cbn [bind].
  destruct (negb _).
  - rewrite Hrel. cbn. rewrite Hdir. cbn. now intros [= <-].
  - now intros [= <-].
Qed.

(** C9.  A source record of 16384999999999999 bytes is missing on the
    destination: the byte counter holds that size, the unit is TB, and
    the reported value is 16385 although the size contains only 16384
    whole units of 1000^4 bytes.  The program computes
    [int(transfer_bytes / pow(1000, u))], a division of floating-point
    numbers, and the quotient rounds to 16385.0. *)
Theorem report_not_rounded_down :
  exists st,
    plan_and_report huge_src huge_dst = Ok (st, Report 0 16385 "TB")
    /\ transfer_bytes st = huge
    /\ missing_total (script st) = huge
    /\ huge / 1000 ^ 4 = 16384.
Proof. eexists. vm_compute. repeat split. Qed.

(** Below 2^53 bytes the report is the total divided by the unit and
    rounded down, in the largest unit that fits. *)
Lemma report_rounds_down_below_2_53 st :
  0 <= transfer_bytes st < 2 ^ 53 ->
  exists u,
    summary st =
    Ok (Report (n_actions st) (transfer_bytes st / 1000 ^ Z.of_nat u)
               (nth u units EmptyString))
    /\ (u <= 4)%nat
    /\ ((u < 4)%nat -> transfer_bytes st < 1000 ^ (Z.of_nat u + 1))
    /\ ((0 < u)%nat -> 1000 ^ Z.of_nat u <= transfer_bytes st).
Proof.
  intros Htb. destruct (pick_unit_spec (transfer_bytes st)) as (H4 & Hlt & Hge).
  set (u := pick_unit _ _ _) in *.
  exists u. split; [|auto].
  unfold summary. fold u.
  rewrite truediv_int_floor; [reflexivity|assumption|].
  split.
  - assert (0 < 1000 ^ Z.of_nat u) by (apply Z.pow_pos_nonneg; lia). lia.
  - apply Z.pow_le_mono_r; lia.
Qed.


End PlannerClaims.

(* ================================================================== *)
(** * Facts about the engine *)
(* ================================================================== *)

Module EngineFacts.

Import Sqlite Fingerprint Os Engine SqliteFacts FingerprintFacts PlannerFacts.

Section Run.

Variable md5 : bytes -> N.
Variable o : options.
Variable cwd : string.

(** ** The loop over the files *)

Lemma store_note_new root_dir filelist_gen root f st :
  store (note_new root_dir filelist_gen root f st) = store st.
Proof.
  unfold note_new. destruct (new_files st) as [nf|]; [|reflexivity].
  match goal with
  | |- store (if ?b then _ else _) = _ => destruct b
  end; reflexivity.
Qed.

(** A call of the loop body leaves the catalog as it is or appends one
    row, whose five values are four texts and an integer. *)
Lemma visit_file_effect t path root_dir gather_only filelist_gen root f st st' :
  visit_file md5 o cwd t path root_dir gather_only filelist_gen root f st
  = Ok st' ->
  sub_dbs (store st') = sub_dbs (store st)
  /\ (files (store st') = files (store st)
      \/ exists f' rel' n' h' p',
           files (store st')
           = files (store st)
             ++ [FRow (VText f') (VText rel') (VInt n') (VText h') (VText p')]).
Proof.
  unfold visit_file.
  destruct (String.eqb f (dbfilename o)); [intros [= <-]; auto|].
  destruct (stat_size t cwd _) as [fsize| |]; try discriminate. cbn [bind].
  destruct (query_files _ _) as [entries| |]; try discriminate. cbn [bind].
  destruct (existsb _ entries); [intros [= <-]; auto|].
  destruct gather_only.
  { intros [= <-]. rewrite store_note_new. auto. }
  destruct (read_file t cwd _) as [data| |]; try discriminate. cbn [bind].
  destruct (digests md5 o data) as [h| |]; try discriminate. cbn [bind].
  destruct (Sqlite.update _ _) as [d| |] eqn:E; try discriminate. cbn [bind].
  intros [= <-]. cbn [store with_store print] in *.
  apply update_insert_effect in E as [Hs Hf].
  rewrite store_note_new in *. auto.
Qed.

Lemma visit_all_sub_dbs t path root_dir gather_only filelist_gen filegen st st' :
  visit_all md5 o cwd t path root_dir gather_only filelist_gen filegen st
  = Ok st' ->
  sub_dbs (store st') = sub_dbs (store st).
Proof.
  unfold visit_all. intros H.
  apply (for_each_preserves
           (fun s => sub_dbs (store s) = sub_dbs (store st)) _ _
           (fun x s s' _ Hs Hx =>
              for_each_preserves
                (fun s => sub_dbs (store s) = sub_dbs (store st)) _ _
                (fun f s s' _ Hs Hf =>
                   eq_trans (proj1 (visit_file_effect _ _ _ _ _ _ _ _ _ Hf)) Hs)
                s s' Hs Hx)
           st st' eq_refl H).
Qed.

(** ** The loop over the markers *)

Lemma prune_marker_effect t marker st st' :
  prune_marker cwd t marker st = Ok st' ->
  files (store st') = files (store st)
  /\ incl (sub_dbs (store st')) (sub_dbs (store st)).
Proof.
  unfold prune_marker.
  destruct (marker_isfile cwd t marker) as [present| |]; try discriminate.
  cbn [bind]. destruct present.
  - intros [= <-]. split; [reflexivity|apply incl_refl].
  - destruct (Sqlite.update _ _) as [d| |] eqn:E; try discriminate.
    cbn [bind]. intros [= <-]. cbn [store with_store print] in *.
    apply update_delete_sub_effect in E as [Hf [p Hs]].
    split; [assumption|]. rewrite Hs. intros x. apply In_keep.
Qed.

Lemma prune_markers_effect t markers st st' :
  for_each (prune_marker cwd t) markers st = Ok st' ->
  files (store st') = files (store st)
  /\ incl (sub_dbs (store st')) (sub_dbs (store st)).
Proof.
  apply (for_each_preserves
           (fun s => files (store s) = files (store st)
                     /\ incl (sub_dbs (store s)) (sub_dbs (store st)))).
  - intros m s s' _ [Hf Hs] H. apply prune_marker_effect in H as [Hf' Hs'].
    split; [congruence|]. eapply incl_tran; eassumption.
  - split; [reflexivity|apply incl_refl].
Qed.

(** ** The loop over the records *)

Lemma gone_incl rel d d' :
  incl (files d') (files d) -> gone rel d -> gone rel d'.
Proof. intros Hi Hg r Hr. apply Hg, Hi, Hr. Qed.

Lemma gone_after_delete rel d :
  gone rel (Db (keep (fun r => sql_eqb (relpath r) (VText rel)) (files d))
               (sub_dbs d)).
Proof.
  intros r Hr Heq. cbn in Hr. unfold keep in Hr.
  apply filter_In in Hr as [_ Hr]. rewrite Heq in Hr. cbn in Hr.
  now rewrite String.eqb_refl in Hr.
Qed.

Lemma reclaim_effect path fpath entry sub_db st st' :
  reclaim path fpath entry sub_db st = Ok st' ->
  sub_dbs (store st') = sub_dbs (store st)
  /\ incl (files (store st')) (files (store st))
  /\ forall rel,
       relpath entry = VText rel -> mem_char DQ rel = false ->
       resolve_files rel = Literal rel ->
       startswith path sub_db = false -> startswith fpath sub_db = true ->
       gone rel (store st').
Proof.
  unfold reclaim. destruct (startswith path sub_db) eqn:Hp.
  { intros [= <-]. repeat split; [apply incl_refl|discriminate]. }
  destruct (startswith fpath sub_db) eqn:Hf.
  2:{ intros [= <-]. repeat split; [apply incl_refl|discriminate]. }
  destruct (Sqlite.update _ _) as [d| |] eqn:E; try discriminate.
  cbn [bind]. intros [= <-]. cbn [store with_store print] in *.
  pose proof (update_delete_file_effect _ _ _ _ E) as [Hs [p Hk]].
  split; [assumption|]. split.
  - rewrite Hk. intros x. apply In_keep.
  - intros rel Hrel Hq Hres _ _. rewrite Hrel in E.
    rewrite (update_delete_file_plain _ _ _ Hq Hres) in E.
    injection E as <-. apply gone_after_delete.
Qed.

Lemma reclaim_loop_effect path fpath entry sub_roots :
  forall st st',
    for_each (reclaim path fpath entry) sub_roots st = Ok st' ->
    sub_dbs (store st') = sub_dbs (store st)
    /\ incl (files (store st')) (files (store st))
    /\ forall rel sub_db,
         relpath entry = VText rel -> mem_char DQ rel = false ->
         resolve_files rel = Literal rel -> In sub_db sub_roots ->
         startswith path sub_db = false -> startswith fpath sub_db = true ->
         gone rel (store st').
Proof.
  induction sub_roots as [|s sub_roots IH]; intros st st'; cbn [for_each].
  - intros [= <-]. repeat split; [apply incl_refl|contradiction].
  - destruct (reclaim path fpath entry s st) as [s1| |] eqn:E;
      try discriminate.
    cbn [bind]. intros H.
    apply reclaim_effect in E as (Hs1 & Hi1 & Hg1).
    apply IH in H as (Hs2 & Hi2 & Hg2).
    split; [congruence|]. split; [eapply incl_tran; eassumption|].
    intros rel sub_db Hrel Hq Hres [<- | Hin] Hp Hf.
    + eapply gone_incl; [exact Hi2|]. now apply Hg1.
    + now apply (Hg2 rel sub_db).
Qed.

Lemma prune_file_effect t path root_dir sub_roots entry st st' :
  prune_file cwd t path root_dir sub_roots entry st = Ok st' ->
  sub_dbs (store st') = sub_dbs (store st)
  /\ incl (files (store st')) (files (store st))
  /\ forall rel sub_db,
       relpath entry = VText rel -> mem_char DQ rel = false ->
       resolve_files rel = Literal rel -> In sub_db sub_roots ->
       startswith path sub_db = false ->
       startswith (root_dir +++ "/" +++ rel) sub_db = true ->
       gone rel (store st').
Proof.
  unfold prune_file, path_of.
  destruct (relpath entry) as [|z|s] eqn:Hrel; try discriminate.
  cbn [bind].
  destruct (for_each _ sub_roots st) as [s1| |] eqn:E; try discriminate.
  cbn [bind]. apply reclaim_loop_effect in E as (Hs & Hi & Hg).
  assert (Hgoal :
    sub_dbs (store s1) = sub_dbs (store st)
    /\ incl (files (store s1)) (files (store st))
    /\ forall rel sub_db,
         VText s = VText rel -> mem_char DQ rel = false ->
         resolve_files rel = Literal rel -> In sub_db sub_roots ->
         startswith path sub_db = false ->
         startswith (root_dir +++ "/" +++ rel) sub_db = true ->
         gone rel (store s1)).
  { repeat split; try assumption.
    intros rel sub_db [= <-]. now apply (Hg s sub_db). }
  destruct (negb _).
  - intros [= <-]. exact Hgoal.
  - destruct (stat_size t cwd _) as [fsize| |]; try discriminate.
    cbn [bind]. destruct (negb _); intros [= <-]; exact Hgoal.
Qed.

Lemma prune_files_effect t path root_dir sub_roots entries :
  forall st st',
    for_each (prune_file cwd t path root_dir sub_roots) entries st = Ok st' ->
    sub_dbs (store st') = sub_dbs (store st)
    /\ incl (files (store st')) (files (store st))
    /\ forall e rel sub_db,
         In e entries ->
         relpath e = VText rel -> mem_char DQ rel = false ->
         resolve_files rel = Literal rel -> In sub_db sub_roots ->
         startswith path sub_db = false ->
         startswith (root_dir +++ "/" +++ rel) sub_db = true ->
         gone rel (store st').
Proof.
  induction entries as [|x entries IH]; intros st st'; cbn [for_each].
  - intros [= <-]. repeat split; [apply incl_refl|contradiction].
  - destruct (prune_file cwd t path root_dir sub_roots x st)
      as [s1| |] eqn:E; try discriminate.
    cbn [bind]. intros H.
    apply prune_file_effect in E as (Hs1 & Hi1 & Hg1).
    apply IH in H as (Hs2 & Hi2 & Hg2).
    split; [congruence|]. split; [eapply incl_tran; eassumption|].
    intros e rel sub_db [<- | Hin] Hrel Hq Hres Hsub Hp Hf.
    + eapply gone_incl; [exact Hi2|]. now apply (Hg1 rel sub_db).
    + now apply (Hg2 e rel sub_db).
Qed.

End Run.

End EngineFacts.

(* ================================================================== *)
(** * The rows the engine inserts *)
(* ================================================================== *)

Module EngineRows.

Import Sqlite Fingerprint Os Engine.
Import SqliteFacts FingerprintFacts PlannerFacts EngineFacts.

Lemma num_token_big n : max_int64 < n -> num_token (str_Z n) = TOther.
Proof.
  intros Hn. assert (H0 : 0 <= n) by (unfold max_int64 in Hn; lia).
  destruct (str_Z_nonneg n H0) as (d & Hnil & E & Hv).
  unfold num_token. rewrite E.
  assert (NilZero.uint_of_string (NilEmpty.string_of_uint d) = Some d) as ->.
  { rewrite <- (NilZero.usu d Hnil). f_equal.
    destruct d; try congruence; reflexivity. }
  rewrite Hv. apply Z.leb_gt in Hn. now rewrite Hn.
Qed.

(** On plain names an INSERT of the engine succeeds exactly when the
    size fits 63 bits, and then adds the row it was given. *)
Lemma update_insert_plain_inv d f rel n hs ps d' :
  mem_char DQ f = false -> mem_char DQ rel = false ->
  mem_char DQ (str_opt hs) = false -> mem_char DQ (str_opt ps) = false ->
  0 <= n ->
  Sqlite.update d (insert_sql f rel n hs ps) = Ok d' ->
  n <= max_int64
  /\ d' = Db (files d ++ [FRow (VText f) (VText rel) (VInt n)
                               (VText (str_opt hs)) (VText (str_opt ps))])
             (sub_dbs d).
Proof.
  intros Hf Hrel Hh Hp Hn H.
  destruct (Z_le_gt_dec n max_int64) as [Hle | Hgt].
  - rewrite update_insert_plain in H by auto. injection H as <-. auto.
  - exfalso. unfold Sqlite.update, execute, insert_sql in H.
    rewrite (tokenize_insert_pieces f rel (str_Z n) _ _ Hf Hrel Hh Hp
               (scan_number n Hn)) in H.
    rewrite num_token_big in H by lia.
    match type of H with
    | context [parse ?ts] =>
        replace (parse ts) with (@None stmt) in H by reflexivity
    end.
    discriminate.
Qed.

Section Run.

Variable md5 : bytes -> N.
Variable o : options.
Variable cwd : string.

(** The texts interpolated for the two digests. *)
Lemma digests_texts data h :
  digests md5 o data = Ok h ->
  mem_char DQ (str_opt (fst h)) = false
  /\ mem_char DQ (str_opt (snd h)) = false
  /\ mem_char SQ (str_opt (snd h)) = false
  /\ (partial_hash o = true -> str_opt (fst h) = "None")
  /\ (partial_hash o = false -> str_opt (snd h) = "None").
Proof.
  unfold digests. destruct (partial_hash o).
  - unfold hash_file_partial.
    destruct (partial_message data _) as [m| |]; try discriminate.
    cbn [bind]. intros [= <-]. cbn [fst snd str_opt].
    repeat split; try reflexivity; try discriminate.
    + apply hexdigest_no_dq.
    + apply hexdigest_no_sq.
  - rewrite hash_file_whole. intros [= <-]. cbn [fst snd str_opt].
    repeat split; try reflexivity; try discriminate.
    apply hexdigest_no_dq.
Qed.

(** For a file whose name and relpath hold no double quote, the loop
    body leaves the catalog as it is or appends a row the planner can
    key on; in partial mode its [hash] is the text [None], in full mode
    its [parthash] is. *)
Lemma visit_file_row t path root_dir gather_only filelist_gen root f st st' :
  mem_char DQ f = false ->
  mem_char DQ (drop (String.length root_dir + 1) (root +++ "/" +++ f)) = false ->
  visit_file md5 o cwd t path root_dir gather_only filelist_gen root f st
  = Ok st' ->
  files (store st') = files (store st)
  \/ exists r,
       files (store st') = files (store st) ++ [r]
       /\ Planner.keyed r
       /\ (partial_hash o = true -> hash r = VText "None")
       /\ (partial_hash o = false -> parthash r = VText "None").
Proof.
  intros Hf Hrel. unfold visit_file.
  destruct (String.eqb f (dbfilename o)); [intros [= <-]; auto|].
  unfold stat_size.
  destruct (lookup t cwd _) as [[data0|]|]; try discriminate. cbn [bind].
  destruct (query_files _ _) as [entries| |]; try discriminate. cbn [bind].
  destruct (existsb _ entries); [intros [= <-]; auto|].
  destruct gather_only.
  { intros [= <-]. rewrite store_note_new. auto. }
  destruct (read_file t cwd _) as [data| |]; try discriminate. cbn [bind].
  destruct (digests md5 o data) as [h| |] eqn:Eh; try discriminate.
  cbn [bind].
  destruct (Sqlite.update _ _) as [d| |] eqn:E; try discriminate. cbn [bind].
  intros [= <-]. cbn [store with_store print] in *.
  rewrite store_note_new in *.
  apply digests_texts in Eh as (Hh1 & Hh2 & Hq & Hpart & Hfull).
  apply update_insert_plain_inv in E as [Hmax ->]; auto;
    [|unfold st_size; lia].
  right. eexists. split; [reflexivity|]. split; [|split].
  - exists (st_size data0), (str_opt (snd h)). cbn.
    repeat split; try assumption. unfold st_size. lia.
  - intros Hp. cbn. now rewrite Hpart.
  - intros Hp. cbn. now rewrite Hfull.
Qed.

(** In full mode every row the loop body adds has the text [None] as
    its [parthash]. *)
Lemma full_mode_parthash t path root_dir gather_only filelist_gen root f st st' :
  partial_hash o = false ->
  mem_char DQ f = false ->
  mem_char DQ (drop (String.length root_dir + 1) (root +++ "/" +++ f)) = false ->
  visit_file md5 o cwd t path root_dir gather_only filelist_gen root f st
  = Ok st' ->
  forall r, In r (files (store st')) ->
    In r (files (store st)) \/ parthash r = VText "None".
Proof.
  intros Hfull Hf Hrel H r Hr.
  apply visit_file_row in H as [H | (r' & H & _ & _ & Hp)]; auto.
  - left. now rewrite <- H.
  - rewrite H in Hr. apply in_app_or in Hr as [Hr | [<- | []]]; auto.
Qed.

End Run.

End EngineRows.

(* ================================================================== *)
(** * Properties of the engine *)
(* ================================================================== *)

Module EngineClaims.

Import Sqlite Fingerprint Os Engine Scenarios.
Import SqliteFacts FingerprintFacts PlannerFacts EngineFacts.

(** C3, as the code has it.  The program never inserts into [sub_dbs]:
    after [process_dbpath] the relation holds no marker that was not
    there before.  And when the call returns, the catalog holds no
    record with a plain relpath (no double quote, not the name of a
    column) whose path starts with the root of a catalog found by the
    walk, unless the path of the catalog itself starts with that root. *)
Theorem sub_catalog_reclaimed_without_marker
    md5 o cwd t path root_dir gather_only filelist_gen all_files st st' :
  process_store md5 o cwd t path root_dir gather_only filelist_gen all_files st
  = Ok st' ->
  incl (sub_dbs (store st')) (sub_dbs (store st))
  /\ forall r rel sub_db,
       In r (files (store st')) -> relpath r = VText rel ->
       mem_char DQ rel = false -> resolve_files rel = Literal rel ->
       In sub_db (keys all_files) -> startswith path sub_db = false ->
       startswith (root_dir +++ "/" +++ rel) sub_db = false.
Proof.
  unfold process_store.
  destruct (visit_all _ _ _ _ _ _ _ _ _ _) as [s1| |] eqn:E1; try discriminate.
  cbn [bind]. rewrite query_select_sub_dbs. cbn [bind].
  destruct (for_each (prune_marker cwd t) _ s1) as [s2| |] eqn:E2;
    try discriminate.
  cbn [bind]. rewrite query_select_files. cbn [bind]. intros E3.
  apply visit_all_sub_dbs in E1.
  apply prune_markers_effect in E2 as [Hf2 Hs2].
  apply prune_files_effect in E3 as (Hs3 & Hi3 & Hg3).
  split.
  - rewrite Hs3, <- E1. exact Hs2.
  - intros r rel sub_db Hr Hrel Hq Hres Hsub Hp.
    destruct (startswith (root_dir +++ "/" +++ rel) sub_db) eqn:Hstart;
      [exfalso|reflexivity].
    apply (Hg3 r rel sub_db (Hi3 r Hr) Hrel Hq Hres Hsub Hp Hstart r Hr Hrel).
Qed.

Lemma nested_after_is_the_run :
  process_store Md5.md5 defaults "/" nested_tree "/P" "/P" true
    (get "/P" nested_all_files) nested_all_files nested_start
  = Ok nested_after.
Proof. vm_compute. reflexivity. Defined.

Lemma sub_catalog_reclaimed_without_marker_witness :
  process_store Md5.md5 defaults "/" nested_tree "/P" "/P" true
    (get "/P" nested_all_files) nested_all_files nested_start
  = Ok nested_after
  /\ files (store nested_after) = []
  /\ incl (sub_dbs (store nested_after)) (sub_dbs (store nested_start)).
Proof.
  split; [exact nested_after_is_the_run|]. split; [reflexivity|].
  exact (proj1 (sub_catalog_reclaimed_without_marker _ _ _ _ _ _ _ _ _ _ _
                  nested_after_is_the_run)).
Defined.

(** C3, as stated, fails: the parent of [nested_world] holds a record
    for [sub/g] and the walk finds the catalog in [sub]; after
    [update_paths] the record is gone from the parent, and the parent's
    [sub_dbs] is empty: there is no marker for [sub]. *)
Lemma nested_catalog_gets_no_marker :
  exists w',
    update_paths Md5.md5 defaults "/" ["/P"] nested_world = Ok w'
    /\ files (store_at "/P/.dir.db" (stores w')) = []
    /\ sub_dbs (store_at "/P/.dir.db" (stores w')) = []
    /\ ~ In (VText "sub") (sub_dbs (store_at "/P/.dir.db" (stores w'))).
Proof.
  eexists. split; [vm_compute; reflexivity|].
  repeat split; try reflexivity. intros [].
Qed.

(** C4.  Whatever the file, a row the loop body adds to the catalog has
    a text in the column [hash] and a text in the column [parthash]:
    neither is NULL.  The variable of the digest that is not computed
    holds [None], and the statement interpolates it between quotes. *)
Theorem inserted_digests_are_never_null
    md5 o cwd t path root_dir gather_only filelist_gen root f st st' :
  visit_file md5 o cwd t path root_dir gather_only filelist_gen root f st
  = Ok st' ->
  forall r, In r (files (store st')) ->
    In r (files (store st))
    \/ exists h p, hash r = VText h /\ parthash r = VText p.
Proof.
  intros H r Hr. apply visit_file_effect in H as [_ [Hf | Hf]].
  - left. now rewrite <- Hf.
  - destruct Hf as (f' & rel' & n' & h' & p' & Hf). rewrite Hf in Hr.
    apply in_app_or in Hr as [Hr | [<- | []]]; [now left|].
    right. now exists h', p'.
Qed.

Lemma one_file_after_is_the_run :
  visit_file Md5.md5 defaults "/" one_file_tree "/P" "/P" false
    (Some [("/P", ["a.txt"])]) "/P" "a.txt" nothing
  = Ok one_file_after.
Proof. vm_compute. reflexivity. Defined.

Lemma inserted_digests_are_never_null_witness :
  visit_file Md5.md5 defaults "/" one_file_tree "/P" "/P" false
    (Some [("/P", ["a.txt"])]) "/P" "a.txt" nothing
  = Ok one_file_after
  /\ files (store one_file_after)
     = [FRow (VText "a.txt") (VText "a.txt") (VInt 1) (VText "None") (VText H2)]
  /\ forall r, In r (files (store one_file_after)) ->
       In r (files (store nothing))
       \/ exists h p, hash r = VText h /\ parthash r = VText p.
Proof.
  split; [exact one_file_after_is_the_run|]. split; [reflexivity|].
  exact (inserted_digests_are_never_null _ _ _ _ _ _ _ _ _ _ _ _
           one_file_after_is_the_run).
Defined.

(** C5.  In [replaced_world] the file [gone.txt] of 5 bytes has vanished
    and a file of 3 bytes is new.  The record is deleted, and the output
    holds two "moved" lines for it and no "removed" line: the first names
    the vanished record itself, the second names nothing, although no
    record of 5 bytes is left in any open catalog. *)
Theorem vanished_record_is_reported_moved :
  exists w',
    update_paths Md5.md5 defaults "/" ["/P"] replaced_world = Ok w'
    /\ log w' = [Adding "new.txt" "/P";
                 Moved "/P/gone.txt" [VText "gone.txt"];
                 Moved "/P/gone.txt" []]
    /\ map relpath (files (store_at "/P/.dir.db" (stores w')))
       = [VText "new.txt"].
Proof. eexists. vm_compute. repeat split. Qed.

(** The reason: with an open cursor, the loop over the cursors sets
    [found] whatever the query returns. *)
Lemma removed_is_never_printed dbpath entry w w' v :
  cursors w <> [] ->
  report_missing dbpath entry w = Ok w' ->
  In (Removed v) (log w') ->
  In (Removed v) (log w).
Proof.
  intros Hc. unfold report_missing.
  assert (Hloop : forall cs acc r,
            for_each (candidates_in (stores w) dbpath entry) cs acc = Ok r ->
            (cs <> [] -> snd r = true)
            /\ (In (Removed v) (fst r) -> In (Removed v) (fst acc))).
  { induction cs as [|c cs IH]; intros acc r; cbn [for_each].
    - intros [= <-]. split; [congruence|auto].
    - unfold candidates_in at 1.
      destruct (query_files _ _) as [rows| |]; try discriminate. cbn [bind].
      destruct (path_of _ _) as [what| |]; try discriminate. cbn [bind].
      intros H. destruct cs as [|c' cs'].
      + cbn in H. injection H as <-. cbn. split; [reflexivity|].
        intros Hin. apply in_app_or in Hin as [Hin | [Hin | []]];
          [assumption|discriminate].
      + apply IH in H as [H1 H2]. split; [intros _; apply H1; discriminate|].
        intros Hin. apply H2 in Hin. cbn in Hin.
        apply in_app_or in Hin as [Hin | [Hin | []]];
          [assumption|discriminate]. }
  destruct (for_each _ (cursors w) (log w, false)) as [r| |] eqn:E;
    try discriminate.
  cbn [bind]. apply Hloop in E as [H1 H2]. rewrite (H1 Hc).
  destruct (get dbpath (cursors w)); try discriminate.
  destruct (Sqlite.update _ _); try discriminate.
  cbn [bind]. intros [= <-]. cbn [log]. exact H2.
Qed.

(** C6, as the code has it.  Every dynamic value is interpolated into
    the statement text.  For a file name and a relpath without a double
    quote (single quotes, semicolons and comment marks included), two
    digest texts without a double quote and a size of at most 63 bits:
    the INSERT adds the record, the listing returns it, and, when the
    relpath is not the name of a column of [files] or of the row id, the
    DELETE by relpath succeeds and removes exactly the records with
    that relpath. *)
Theorem interpolated_statements_on_plain_values d f rel n hs ps indent :
  mem_char DQ f = false -> mem_char DQ rel = false ->
  mem_char DQ (str_opt hs) = false -> mem_char DQ (str_opt ps) = false ->
  0 <= n <= max_int64 ->
  resolve_files rel = Literal rel ->
  let inserted :=
    FRow (VText f) (VText rel) (VInt n) (VText (str_opt hs))
         (VText (str_opt ps)) in
  let d1 := Db (files d ++ [inserted]) (sub_dbs d) in
  let d2 := Db (keep (fun r => sql_eqb (relpath r) (VText rel)) (files d1))
               (sub_dbs d1) in
  Sqlite.update d (insert_sql f rel n hs ps) = Ok d1
  /\ query_files d1 select_files_sql = Ok (files d ++ [inserted])
  /\ Sqlite.update d1 (delete_file_sql indent (VText rel)) = Ok d2
  /\ forall r, In r (files d2) <-> In r (files d1) /\ relpath r <> VText rel.
Proof.
  intros Hf Hrel Hh Hp Hn Hres inserted d1 d2.
  split; [now apply update_insert_plain|].
  split; [apply query_select_files|].
  split; [now apply update_delete_file_plain|].
  intros r. subst d2. cbn [files]. unfold keep. rewrite filter_In.
  split; intros [Hin Hne]; (split; [assumption|]).
  - intros Heq. rewrite Heq in Hne. cbn in Hne.
    now rewrite String.eqb_refl in Hne.
  - destruct (relpath r) as [|z|s]; cbn; try reflexivity.
    destruct (String.eqb s rel) eqn:E; [|reflexivity].
    apply String.eqb_eq in E. congruence.
Qed.

Lemma interpolated_statements_on_plain_values_witness :
  Sqlite.update empty_db (insert_sql odd_name odd_name 3 None (Some H1))
  = Ok (Db [FRow (VText odd_name) (VText odd_name) (VInt 3) (VText "None")
                 (VText H1)] [])
  /\ Sqlite.update
       (Db [FRow (VText odd_name) (VText odd_name) (VInt 3) (VText "None")
                 (VText H1)] [])
       (delete_file_sql 5 (VText odd_name))
     = Ok empty_db.
Proof.
  assert (Hn : 0 <= 3 <= max_int64) by (unfold max_int64; lia).
  destruct (interpolated_statements_on_plain_values empty_db odd_name odd_name
              3 None (Some H1) 5 eq_refl eq_refl eq_refl eq_refl Hn eq_refl)
    as (A & _ & B & _).
  split; [exact A | exact B].
Defined.

(** C6, as stated, fails.  A relpath of one double quote makes the
    DELETE a text SQLite rejects, so the statement raises; and a file
    name with two double quotes in a row is stored with one, so the
    listing does not return the record that was inserted. *)
Lemma quotes_reach_the_statement_text :
  Sqlite.update (Db [row "a.txt" 10 H1] [])
                (delete_file_sql 5 (VText quote_name))
  = Raise OperationalError
  /\ exists d1 r,
       Sqlite.update empty_db
         (insert_sql doubled_name doubled_name 3 None (Some H1)) = Ok d1
       /\ query_files d1 select_files_sql = Ok [r]
       /\ relpath r = VText ("a" +++ dq +++ "b")
       /\ relpath r <> VText doubled_name.
Proof.
  split; [vm_compute; reflexivity|].
  eexists. eexists. split; [vm_compute; reflexivity|].
  split; [vm_compute; reflexivity|].
  split; [reflexivity|]. vm_compute. discriminate.
Qed.

(** C8.  In [prefix_world] the parent owns [subway/f], and [sub] holds
    a catalog.  The first run adds the record and deletes it again,
    because the path of the file starts with the letters of the root of
    the sub-catalog.  The second run, on the tree and the catalogs the
    first one left, adds and deletes the same record once more. *)
Theorem second_run_inserts_and_deletes_again :
  exists w1 w2,
    update_paths Md5.md5 defaults "/" ["/P"] prefix_world = Ok w1
    /\ tree w1 = prefix_tree
    /\ files (store_at "/P/.dir.db" (stores w1)) = []
    /\ update_paths Md5.md5 defaults "/" ["/P"] (next_run w1) = Ok w2
    /\ log w2 = [Adding "subway/f" "/P";
                 WillRemove (VText "subway/f") "/P/sub"]
    /\ files (store_at "/P/.dir.db" (stores w2)) = [].
Proof.
  eexists. eexists. split; [vm_compute; reflexivity|].
  vm_compute. repeat split.
Qed.

(** The pure rename from the files on: both trees are catalogued, the
    two records get the same size and fingerprint, and the script written
    for them holds no [mv] line. *)
Lemma pure_rename_end_to_end :
  exists w st r,
    update_paths Md5.md5 defaults "/" ["/src"; "/dst"] rename_world = Ok w
    /\ map (fun x => map relpath (files (snd x))) (stores w)
       = [[VText "a.txt"]; [VText "b.txt"]]
    /\ map (fun x => map parthash (files (snd x))) (stores w)
       = [[VText "781e5e245d69b566979b86e28d23f2c7"];
          [VText "781e5e245d69b566979b86e28d23f2c7"]]
    /\ gen_sync_script defaults "/" ["/src"] ["/dst"] w = Ok (st, r)
    /\ Planner.script st
       = [Planner.Shebang; Planner.CdInto "/src"; Planner.CdBack false "/src"]
    /\ Planner.actions r = 0.
Proof.
  eexists. eexists. eexists. split; [vm_compute; reflexivity|].
  vm_compute. repeat split.
Qed.

End EngineClaims.

(* ================================================================== *)
(** * Further properties of the fingerprints *)
(* ================================================================== *)

Module FingerprintProps.

Import Fingerprint FingerprintFacts.

(** X1.  [hash_file] returns the digest of the whole content of the
    file, whatever the size of the buffer it reads with: the loop ends
    (within one more read than the file has bytes) and the pieces it
    hands to the digest add up to the content. *)
Theorem hash_file_ignores_the_buffer_size md5 (data : bytes) (bufsize : Z) :
  0 < bufsize ->
  hash_file_with md5 bufsize data = Some (hexdigest md5 data)
  /\ hash_file_with md5 bufsize data = hash_file md5 data.
Proof.
  intros Hb. rewrite (hash_file_with_whole md5 bufsize data Hb).
  split; [reflexivity|]. unfold hash_file.
  now rewrite hash_file_with_whole by lia.
Qed.

Lemma hash_file_ignores_the_buffer_size_witness :
  hash_file_with Md5.md5 2 [x01; x02; x03]
  = Some "5289df737df57326fcdd22597afb1fac"
  /\ hash_file Md5.md5 [x01; x02; x03]
     = Some "5289df737df57326fcdd22597afb1fac".
Proof.
  destruct (hash_file_ignores_the_buffer_size Md5.md5 [x01; x02; x03] 2
              ltac:(lia)) as [A B].
  split; [exact A|]. rewrite <- B. exact A.
Defined.

(** With a chunk size that is not negative, the message
    [hash_file_partial] digests is the whole content of a file of at
    most two chunks and the first chunk of a larger one. *)
Lemma partial_message_nonneg (data : bytes) (chunk : Z) :
  0 <= chunk ->
  partial_message data chunk
  = Ok (if st_size data <=? chunk * 2 then data
        else firstn (Z.to_nat chunk) data).
Proof.
  intros Hc. destruct (st_size data <=? chunk * 2) eqn:E.
  - apply partial_message_small. now apply Z.leb_le.
  - apply Z.leb_gt in E. destruct (Z.eq_dec chunk 0) as [-> | Hne].
    + unfold partial_message.
      assert ((st_size data <=? 0 * 2) = false) as -> by (apply Z.leb_gt; lia).
      cbn [read open Z.ltb Z.compare Z.to_nat firstn skipn pos content
           List.length Z.of_nat update app].
      unfold seek_end. cbn [content].
      destruct (st_size data + 0 <? 0) eqn:E2; [|reflexivity].
      apply Z.ltb_lt in E2. unfold st_size in E2. lia.
    + apply partial_message_large; lia.
Qed.

(** X2.  For a file of at most two chunks the partial fingerprint is
    the full one: [hash_file_partial] and [hash_file] return the same
    text. *)
Theorem small_file_partial_is_full md5 (data : bytes) (chunk : Z) :
  st_size data <= chunk * 2 ->
  exists s, hash_file md5 data = Some s
            /\ hash_file_partial md5 data chunk = Ok s.
Proof.
  intros Hs. exists (hexdigest md5 data). split.
  - apply hash_file_whole.
  - unfold hash_file_partial. now rewrite partial_message_small.
Qed.

Lemma small_file_partial_is_full_witness :
  exists s, hash_file Md5.md5 [x01; x02; x03] = Some s
            /\ hash_file_partial Md5.md5 [x01; x02; x03] 2 = Ok s.
Proof.
  apply (small_file_partial_is_full Md5.md5 [x01; x02; x03] 2).
  vm_compute. discriminate.
Defined.

(** X3.  With [--partial-hash-size 0] every file, empty or not, gets
    the same partial fingerprint: the digest of the empty message. *)
Theorem zero_chunk_fingerprint_is_constant md5 (data : bytes) :
  hash_file_partial md5 data 0 = Ok (hexdigest md5 []).
Proof.
  unfold hash_file_partial. rewrite partial_message_nonneg by lia.
  destruct (st_size data <=? 0 * 2) eqn:E; [|reflexivity].
  apply Z.leb_le in E. unfold st_size in E.
  destruct data; [reflexivity|cbn [List.length] in E; lia].
Qed.

End FingerprintProps.

(* ================================================================== *)
(** * Further properties of the planner *)
(* ================================================================== *)

Module PlannerProps.

Import Sqlite Planner PlannerNotions SqliteFacts PlannerFacts Scenarios Samples.

(** ** Records without a match, and records with one *)

Lemma filter_none {A} (f : A -> bool) l :
  (forall x, In x l -> f x = false) -> filter f l = [].
Proof.
  induction l as [|a l IH]; intros H; [reflexivity|].
  cbn [filter]. rewrite (H a) by (now left). apply IH.
  intros x Hx. apply H. now right.
Qed.

Lemma count_cons (x : string * list frow) per_db :
  count (x :: per_db) = (List.length (snd x) + count per_db)%nat.
Proof. reflexivity. Qed.

Lemma count_none dbs n p :
  (forall path d r, In (path, d) dbs -> In r (files d) -> key_match n p r = false) ->
  count (map (fun x => (fst x, filter (key_match n p) (files (snd x)))) dbs)
  = 0%nat.
Proof.
  induction dbs as [|[path d] dbs IH]; intros H; [reflexivity|].
  cbn [map]. rewrite count_cons. cbn [fst snd].
  rewrite IH by (intros q d' r Hq; apply (H q d' r); now right).
  rewrite filter_none; [reflexivity|].
  intros r Hr. apply (H path d r); [now left|assumption].
Qed.

Lemma count_some dbs n p path d e :
  In (path, d) dbs -> In e (files d) -> key_match n p e = true ->
  (1 <= count (map (fun x => (fst x, filter (key_match n p) (files (snd x)))) dbs))%nat.
Proof.
  intros Hd He Hk.
  apply (count_member _ path (filter (key_match n p) (files d)) e).
  - apply in_map_iff. now exists (path, d).
  - apply filter_In. now split.
Qed.

(** X4.  A source record that is not yet in [done] and whose size and
    fingerprint match no record of any destination catalog is marked
    done and gets exactly one "missing on destination" line; its size
    is added to the byte counter, and nothing else changes. *)
Theorem record_without_destination_match_is_missing
    src dst dbpath d e st n p :
  size e = VInt n -> 0 <= n <= max_int64 ->
  parthash e = VText p -> mem_char SQ p = false ->
  In (dbpath, d) src -> In e (files d) ->
  mem py_eqb (parthash e) (done st) = false ->
  (forall path d' r,
     In (path, d') dst -> In r (files d') -> key_match n p r = false) ->
  plan_entry src dst dbpath e st
  = Ok (State (script st ++ [Missing e]) (mkdirs st) (transfer_bytes st + n)
              (n_actions st) (done st ++ [parthash e]) (subdir st)).
Proof.
  intros Hs Hn Hp Hq Hd He Hdone Hdst. unfold plan_entry. rewrite Hdone.
  rewrite (query_each_keyed src e n p Hs Hn Hp Hq).
  rewrite (query_each_keyed dst e n p Hs Hn Hp Hq). cbn [bind].
  rewrite (count_none dst n p Hdst).
  pose proof (count_some src n p dbpath d e Hd He (key_match_self e n p Hs Hp))
    as Hl.
  destruct (count _) as [|k]; [lia|].
  rewrite andb_false_r. cbn [Nat.eqb].
  rewrite Hs. reflexivity.
Qed.

Lemma record_without_destination_match_is_missing_witness :
  plan_entry huge_src huge_dst "/src" (row "big" huge H1) initial
  = Ok (State [Shebang; Missing (row "big" huge H1)] [] (0 + huge) 0
              [VText H1] None).
Proof.
  apply (record_without_destination_match_is_missing
           huge_src huge_dst "/src" (Db [row "big" huge H1] [])
           (row "big" huge H1) initial huge H1);
    try reflexivity.
  - unfold max_int64, huge. lia.
  - now left.
  - now left.
  - intros path d' r [[= <- <-] | []] [].
Defined.

(** X5.  One source catalog and one destination catalog with exactly
    one record each for the size and fingerprint of [e]: when the two
    relpaths are equal nothing is written; when they differ and the
    source relpath has a directory part, the planner writes the [mkdir]
    line for it (once) and the [mv] line from the destination relpath to
    the source relpath, and counts one action; when the source relpath
    has no directory part, nothing is written. *)
Theorem single_match_is_moved_into_place sp dp sd dd e x st n p se sx :
  size e = VInt n -> 0 <= n <= max_int64 ->
  parthash e = VText p -> mem_char SQ p = false ->
  mem py_eqb (parthash e) (done st) = false ->
  filter (key_match n p) (files sd) = [e] ->
  filter (key_match n p) (files dd) = [x] ->
  relpath e = VText se -> relpath x = VText sx ->
  plan_entry [(sp, sd)] [(dp, dd)] sp e st
  = Ok (let st1 := mark_done (parthash e) st in
        if String.eqb se sx then st1
        else if String.eqb (dirname se) "" then st1
        else add_action (write (Mv sx se) (ensure_mkdir (dirname se) st1))).
Proof.
  intros Hs Hn Hp Hq Hdone Hl Hr Hse Hsx. unfold plan_entry. rewrite Hdone.
  rewrite (query_each_keyed _ e n p Hs Hn Hp Hq).
  rewrite (query_each_keyed _ e n p Hs Hn Hp Hq). cbn [bind map fst snd].
  rewrite Hl, Hr. cbn [count fold_right snd List.length Nat.add Nat.eqb andb].
  unfold one_to_one. cbn [first_of_first bind]. rewrite Hse, Hsx.
  cbn [py_eqb dirname_of bind py_str].
  destruct (String.eqb se sx); cbn [negb]; [reflexivity|].
  destruct (String.eqb (dirname se) ""); reflexivity.
Qed.

Lemma single_match_is_moved_into_place_witness :
  plan_entry [("/src", moved_src)] [("/dst", moved_dst)] "/src"
    (nested_row "a.txt" "new/a.txt" 10 H1) initial
  = Ok (State [Shebang; Mkdir "new"; Mv "old/a.txt" "new/a.txt"] ["new"] 0 1
              [VText H1] None).
Proof.
  apply (single_match_is_moved_into_place "/src" "/dst" moved_src moved_dst
           (nested_row "a.txt" "new/a.txt" 10 H1)
           (nested_row "a.txt" "old/a.txt" 10 H1) initial 10 H1
           "new/a.txt" "old/a.txt");
    try reflexivity.
  unfold max_int64. lia.
Defined.

(** ** Counting the marks of the matching passes *)

Lemma unmarked_cons c cs :
  unmarked (c :: cs) = ((if matched c then 0 else 1) + unmarked cs)%nat.
Proof. unfold unmarked. cbn [filter]. now destruct (matched c). Qed.

Lemma marked_cons c cs :
  marked (c :: cs) = ((if matched c then 1 else 0) + marked cs)%nat.
Proof. unfold marked. cbn [filter]. now destruct (matched c). Qed.

Lemma mark_same_path_count rel rs : forall rs',
  mark_same_path rel rs = Some rs' ->
  List.length rs' = List.length rs
  /\ (unmarked rs <= S (unmarked rs'))%nat.
Proof.
  induction rs as [|r rs IH]; intros rs'; cbn [mark_same_path];
    [discriminate|].
  destruct (py_eqb rel (relpath (entry r))).
  - intros [= <-]. cbn [List.length]. rewrite !unmarked_cons.
    cbn [set_matched matched]. split; [reflexivity|].
    destruct (matched r); lia.
  - destruct (mark_same_path rel rs) as [rs1|]; [|discriminate].
    intros [= <-]. destruct (IH rs1 eq_refl) as [Hl Hu].
    cbn [List.length]. rewrite !unmarked_cons. split; lia.
Qed.

Lemma identity_pass_count dbpath e ls : forall rs found ls' rs' found',
  (forall l, In l ls -> matched l = false) ->
  identity_pass dbpath e ls rs found = (ls', rs', found') ->
  List.length ls' = List.length ls
  /\ List.length rs' = List.length rs
  /\ map entry ls' = map entry ls
  /\ (unmarked rs <= unmarked rs' + marked ls')%nat.
Proof.
  induction ls as [|l ls IH]; intros rs found ls' rs' found' Hfresh;
    cbn [identity_pass].
  - intros [= <- <- <-]. repeat split. cbn. lia.
  - assert (Hrest : forall x, In x ls -> matched x = false)
      by (intros x Hx; apply Hfresh; now right).
    destruct (mark_same_path _ rs) as [rs1|] eqn:E.
    + destruct (identity_pass dbpath e ls rs1 _) as [[ls2 rs2] found2] eqn:E2.
      intros [= <- <- <-].
      destruct (IH _ _ _ _ _ Hrest E2) as (A & B & C & D).
      destruct (mark_same_path_count _ _ _ E) as [Hl Hu].
      cbn [List.length map]. rewrite marked_cons.
      cbn [set_matched matched entry]. repeat split; try congruence; lia.
    + destruct (identity_pass dbpath e ls rs found) as [[ls2 rs2] found2] eqn:E2.
      intros [= <- <- <-].
      destruct (IH _ _ _ _ _ Hrest E2) as (A & B & C & D).
      cbn [List.length map]. rewrite marked_cons.
      repeat split; try congruence. lia.
Qed.

Lemma take_unmatched_count rs : forall r rs1,
  take_unmatched rs = Some (r, rs1) ->
  List.length rs1 = List.length rs /\ unmarked rs = S (unmarked rs1).
Proof.
  induction rs as [|x rs IH]; intros r rs1; cbn [take_unmatched];
    [discriminate|].
  destruct (matched x) eqn:Hx.
  - destruct (take_unmatched rs) as [[y rs2]|]; [|discriminate].
    intros [= <- <-]. destruct (IH y rs2 eq_refl) as [Hl Hu].
    cbn [List.length]. rewrite !unmarked_cons, Hx. split; lia.
  - intros [= <- <-]. cbn [List.length]. rewrite !unmarked_cons, Hx.
    cbn [set_matched matched]. split; lia.
Qed.

Lemma place_count dbpath e r_num l rs st found l' rs' st' found' :
  place dbpath e r_num l (rs, st, found) = Ok (l', (rs', st', found')) ->
  List.length rs' = List.length rs
  /\ (unmarked rs <= unmarked rs' + (if matched l then 0 else 1))%nat.
Proof.
  unfold place. destruct (matched l).
  - intros [= <- <- <- <-]. split; lia.
  - destruct (take_unmatched rs) as [[r rs1]|] eqn:E.
    + destruct (dirname_of _) as [mkdir| |]; try discriminate. cbn [bind].
      intros [= <- <- <- <-].
      destruct (take_unmatched_count _ _ _ E) as [Hl Hu]. split; lia.
    + destruct rs as [|r rs2].
      * destruct (0 <? r_num)%nat; [discriminate|].
        intros [= <- <- <- <-]. split; lia.
      * destruct (dirname_of _) as [mkdir| |]; try discriminate. cbn [bind].
        intros [= <- <- <- <-]. split; lia.
Qed.

Lemma move_pass_count dbpath e r_num ls : forall rs st found ls' rs' st' found',
  move_pass dbpath e r_num ls (rs, st, found) = Ok (ls', (rs', st', found')) ->
  List.length rs' = List.length rs
  /\ (unmarked rs + marked ls <= unmarked rs' + List.length ls)%nat.
Proof.
  induction ls as [|l ls IH]; intros rs st found ls' rs' st' found';
    cbn [move_pass].
  - intros [= <- <- <- <-]. split; [reflexivity|]. cbn. lia.
  - destruct (place dbpath e r_num l (rs, st, found))
      as [[l1 [[rs1 st1] found1]]| |] eqn:E; try discriminate.
    cbn [bind snd fst].
    destruct (move_pass dbpath e r_num ls (rs1, st1, found1))
      as [[ls2 [[rs2 st2] found2]]| |] eqn:E2; try discriminate.
    cbn [bind snd fst]. intros [= <- <- <- <-].
    destruct (place_count _ _ _ _ _ _ _ _ _ _ _ E) as [Hl Hu].
    destruct (IH _ _ _ _ _ _ _ E2) as [Hl2 Hu2].
    cbn [List.length]. rewrite marked_cons. split; [congruence|].
    destruct (matched l); lia.
Qed.

(** With a destination entry at hand and a text relpath, a source entry
    is always placed. *)
Lemma place_runs dbpath e r_num l rs st found :
  (exists s, relpath (entry l) = VText s) -> rs <> [] ->
  exists y, place dbpath e r_num l (rs, st, found) = Ok y.
Proof.
  intros [s Hs] Hne. unfold place. destruct (matched l); [eauto|].
  rewrite Hs. cbn [dirname_of bind].
  destruct (take_unmatched rs) as [[r rs1]|]; [eauto|].
  destruct rs as [|r rs2]; [congruence|eauto].
Qed.

Lemma move_pass_runs dbpath e r_num ls : forall rs st found,
  (forall l, In l ls -> exists s, relpath (entry l) = VText s) -> rs <> [] ->
  exists y, move_pass dbpath e r_num ls (rs, st, found) = Ok y.
Proof.
  induction ls as [|l ls IH]; intros rs st found Htext Hne; cbn [move_pass];
    [eauto|].
  destruct (place_runs dbpath e r_num l rs st found
              (Htext l (or_introl eq_refl)) Hne) as [[l1 [[rs1 st1] found1]] E].
  rewrite E. cbn [bind snd fst].
  destruct (place_count _ _ _ _ _ _ _ _ _ _ _ E) as [Hl _].
  assert (Hne1 : rs1 <> []).
  { intros ->. destruct rs; [congruence|discriminate]. }
  destruct (IH rs1 st1 found1 (fun x Hx => Htext x (or_intror Hx)) Hne1)
    as [y E2].
  rewrite E2. cbn [bind]. eauto.
Qed.

Lemma candidates_cons (x : string * list frow) per_db :
  candidates (x :: per_db) = tagged (fst x) false (snd x) ++ candidates per_db.
Proof. reflexivity. Qed.

Lemma unmarked_app a b : unmarked (a ++ b) = (unmarked a + unmarked b)%nat.
Proof. unfold unmarked. now rewrite filter_app, length_app. Qed.

Lemma unmarked_fresh p rows : unmarked (tagged p false rows) = List.length rows.
Proof.
  induction rows as [|r rows IH]; [reflexivity|].
  unfold tagged in *. cbn [map]. rewrite unmarked_cons. cbn [matched].
  cbn [List.length]. lia.
Qed.

Lemma candidates_count per_db :
  List.length (candidates per_db) = count per_db
  /\ unmarked (candidates per_db) = count per_db
  /\ (forall l, In l (candidates per_db) ->
        matched l = false
        /\ exists path rows, In (path, rows) per_db /\ In (entry l) rows).
Proof.
  induction per_db as [|[path rows] per_db (A & B & C)].
  - repeat split; contradiction.
  - rewrite candidates_cons, count_cons, length_app, unmarked_app,
      unmarked_fresh. cbn [fst snd]. unfold tagged at 1.
    rewrite length_map. split; [lia|]. split; [lia|].
    intros l Hl. apply in_app_or in Hl as [Hl | Hl].
    + unfold tagged in Hl. apply in_map_iff in Hl as (r & <- & Hr).
      split; [reflexivity|]. exists path, rows. split; [now left|exact Hr].
    + destruct (C l Hl) as (Hm & q & rs & Hq & Hin).
      split; [exact Hm|]. exists q, rs. split; [now right|exact Hin].
Qed.

Lemma unmarked_positive rs :
  (0 < unmarked rs)%nat -> existsb (fun r => negb (matched r)) rs = true.
Proof.
  induction rs as [|r rs IH]; [cbn; lia|].
  rewrite unmarked_cons. cbn [existsb].
  destruct (matched r); cbn [negb orb]; [|reflexivity].
  intros H. apply IH. lia.
Qed.

(** X7.  When the destinations hold more records with the size and
    fingerprint of [e] than the sources do (and the sources at least
    one, with text relpaths), the processing of [e] does not complete:
    each source entry marks at most one destination entry, one is left
    without a mark, and the planner stops at "unmatched r". *)
Theorem surplus_destination_copies_stop_the_planner
    src dst dbpath e st l_all r_all :
  mem py_eqb (parthash e) (done st) = false ->
  query_each src (key_query e) = Ok l_all ->
  query_each dst (key_query e) = Ok r_all ->
  (1 <= count l_all < count r_all)%nat ->
  (forall path rows r,
     In (path, rows) l_all -> In r rows -> exists s, relpath r = VText s) ->
  plan_entry src dst dbpath e st = Raise Pdb_unmatched_r.
Proof.
  intros Hdone Hl Hr [Hone Hlt] Htext. unfold plan_entry.
  rewrite Hdone, Hl, Hr. cbn [bind].
  assert ((count l_all =? 1)%nat && (count r_all =? 1)%nat = false) as ->.
  { destruct (Nat.eqb_spec (count l_all) 1); [|reflexivity].
    destruct (Nat.eqb_spec (count r_all) 1); [lia|reflexivity]. }
  assert ((count l_all =? 0)%nat = false) as -> by (apply Nat.eqb_neq; lia).
  assert ((count r_all =? 0)%nat = false) as -> by (apply Nat.eqb_neq; lia).
  unfold many_to_many.
  destruct (candidates_count l_all) as (Ll & _ & Lfresh).
  destruct (candidates_count r_all) as (Rl & Ru & _).
  destruct (identity_pass dbpath e (candidates l_all) (candidates r_all) false)
    as [[ls1 rs1] found1] eqn:E1.
  destruct (identity_pass_count _ _ _ _ _ _ _ _
              (fun l Hl => proj1 (Lfresh l Hl)) E1) as (A & B & C & D).
  assert (Htext1 : forall l, In l ls1 -> exists s, relpath (entry l) = VText s).
  { intros l Hin. apply (in_map entry) in Hin. rewrite C in Hin.
    apply in_map_iff in Hin as (l0 & Heq & Hin0). rewrite <- Heq.
    destruct (Lfresh l0 Hin0) as (_ & q & rows & Hq & Hr0).
    now apply (Htext q rows). }
  assert (Hne : rs1 <> []).
  { intros ->. cbn in B. lia. }
  destruct (move_pass_runs dbpath e (count r_all) ls1 rs1
              (mark_done (parthash e) st) found1 Htext1 Hne)
    as [[ls2 [[rs2 st2] found2]] E2].
  rewrite E2. cbn [bind].
  destruct (move_pass_count _ _ _ _ _ _ _ _ _ _ _ E2) as [_ F].
  rewrite unmarked_positive; [reflexivity|]. lia.
Qed.

Lemma surplus_destination_copies_stop_the_planner_witness :
  plan_entry surplus_src surplus_dst "/src" (row "a" 10 H1) initial
  = Raise Pdb_unmatched_r.
Proof.
  apply (surplus_destination_copies_stop_the_planner
           surplus_src surplus_dst "/src" (row "a" 10 H1) initial
           [("/src", [row "a" 10 H1])]
           [("/dst", [row "b" 10 H1; row "c" 10 H1])]);
    try reflexivity.
  - cbn. lia.
  - intros path rows r [[= <- <-] | []] [<- | []]. now exists "a".
Defined.

(** ** The same catalog on both sides *)

Lemma py_eqb_eq a b : py_eqb a b = true -> a = b.
Proof.
  destruct a, b; cbn; try discriminate; try reflexivity.
  - intros H. apply Z.eqb_eq in H. now subst.
  - intros H. apply String.eqb_eq in H. now subst.
Qed.

Lemma tagged_app p m a b : tagged p m (a ++ b) = tagged p m a ++ tagged p m b.
Proof. apply map_app. Qed.

(** Among rows with pairwise distinct relpaths, the path-identity pass
    finds the row itself. *)
Lemma mark_same_path_distinct p x post : forall pre,
  ~ In (relpath x) (map relpath pre) ->
  mark_same_path (relpath x) (tagged p true pre ++ tagged p false (x :: post))
  = Some (tagged p true (pre ++ [x]) ++ tagged p false post).
Proof.
  induction pre as [|a pre IH]; intros Hnew.
  - cbn. now rewrite py_eqb_refl.
  - cbn [tagged map app mark_same_path entry].
    destruct (py_eqb (relpath x) (relpath a)) eqn:E.
    + apply py_eqb_eq in E. exfalso. apply Hnew. left. now symmetry.
    + fold (tagged p true pre). fold (tagged p false post).
      change (Cand p x false :: tagged p false post)
        with (tagged p false (x :: post)).
      rewrite IH by (intros H; apply Hnew; now right).
      reflexivity.
Qed.

Lemma identity_pass_same dbpath e p p' post : forall pre found,
  NoDup (map relpath (pre ++ post)) ->
  identity_pass dbpath e (tagged p false post)
    (tagged p' true pre ++ tagged p' false post) found
  = (tagged p true post, tagged p' true (pre ++ post),
     found || existsb (is_iterated dbpath e) (tagged p false post)).
Proof.
  induction post as [|x post IH]; intros pre found Hnd.
  - cbn [tagged map identity_pass existsb]. unfold tagged.
    now rewrite !app_nil_r, orb_false_r.
  - change (tagged p false (x :: post))
      with (Cand p x false :: tagged p false post) at 1.
    cbn [identity_pass entry].
    rewrite mark_same_path_distinct.
    2:{ rewrite map_app in Hnd. cbn [map] in Hnd.
        apply NoDup_remove_2 in Hnd. intros H. apply Hnd.
        apply in_or_app. now left. }
    rewrite IH by (now rewrite <- app_assoc).
    rewrite <- app_assoc. cbn [app tagged map existsb set_matched owner entry].
    now rewrite orb_assoc.
Qed.

Lemma move_pass_settled dbpath e r_num ls : forall acc,
  (forall l, In l ls -> matched l = true) ->
  move_pass dbpath e r_num ls acc = Ok (ls, acc).
Proof.
  induction ls as [|l ls IH]; intros acc Hall; [reflexivity|].
  cbn [move_pass]. unfold place. destruct acc as [[rs st] found].
  rewrite (Hall l) by (now left). cbn [bind snd fst].
  rewrite IH by (intros x Hx; apply Hall; now right). reflexivity.
Qed.

Lemma tagged_matched p m rows l : In l (tagged p m rows) -> matched l = m.
Proof. intros H. apply in_map_iff in H as (r & <- & _). reflexivity. Qed.

Lemma last_matched ls d :
  (forall l, In l ls -> matched l = true) -> matched d = true ->
  matched (last ls d) = true.
Proof.
  induction ls as [|l ls IH]; intros Hall Hd; [exact Hd|].
  destruct ls as [|l' ls'].
  - apply Hall. now left.
  - change (last (l :: l' :: ls') d) with (last (l' :: ls') d).
    apply IH; [|exact Hd]. intros x Hx. apply Hall. now right.
Qed.

Lemma none_unmarked p rows :
  existsb (fun r => negb (matched r)) (tagged p true rows) = false.
Proof. induction rows as [|r rows IH]; [reflexivity|exact IH]. Qed.

Lemma iterated_among p e rows :
  In e rows -> existsb (is_iterated p e) (tagged p false rows) = true.
Proof.
  intros H. apply existsb_exists. exists (Cand p e false). split.
  - unfold tagged. apply in_map_iff. now exists e.
  - unfold is_iterated. cbn [owner entry].
    now rewrite String.eqb_refl, py_eqb_refl.
Qed.

(** The same rows on both sides, with pairwise distinct relpaths: every
    entry is matched by the path-identity pass and nothing is written. *)
Lemma many_to_many_same p p' e rows st :
  NoDup (map relpath rows) -> In e rows ->
  many_to_many p e [(p, rows)] [(p', rows)] st = Ok st.
Proof.
  intros Hnd He. unfold many_to_many.
  rewrite !candidates_cons. cbn [candidates flat_map fst snd].
  rewrite !app_nil_r.
  pose proof (identity_pass_same p e p p' rows [] false) as H.
  cbn [tagged map app] in H. fold (tagged p false rows) in H.
  fold (tagged p' false rows) in H. fold (tagged p true rows) in H.
  fold (tagged p' true rows) in H.
  rewrite H by exact Hnd. clear H.
  rewrite move_pass_settled by (intros l Hl; now apply tagged_matched in Hl).
  cbn [bind]. rewrite none_unmarked.
  rewrite last_matched;
    [|intros l Hl; now apply tagged_matched in Hl|reflexivity].
  cbn [negb andb orb]. now rewrite iterated_among.
Qed.

Lemma NoDup_map_filter {A B} (f : A -> B) (g : A -> bool) l :
  NoDup (map f l) -> NoDup (map f (filter g l)).
Proof.
  induction l as [|a l IH]; intros H; [constructor|].
  cbn [map] in H. inversion H as [|? ? Hnot Hrest]; subst.
  cbn [filter]. destruct (g a); [|now apply IH].
  cbn [map]. constructor; [|now apply IH].
  intros Hin. apply Hnot. apply in_map_iff in Hin as (x & Hx & Hf).
  apply in_map_iff. exists x. split; [assumption|].
  now apply filter_In in Hf.
Qed.

(** A record whose catalog is the same on both sides is only noted in
    [done]. *)
Lemma plan_entry_same p p' d e st :
  keyed e -> In e (files d) -> NoDup (map relpath (files d)) ->
  plan_entry [(p, d)] [(p', d)] p e st
  = Ok (if mem py_eqb (parthash e) (done st) then st
        else mark_done (parthash e) st).
Proof.
  intros (n & q & Hs & Hn & Hp & Hq) He Hnd. unfold plan_entry.
  destruct (mem py_eqb (parthash e) (done st)); [reflexivity|].
  rewrite !(query_each_keyed _ e n q Hs Hn Hp Hq). cbn [bind map fst snd].
  set (rows := filter (key_match n q) (files d)).
  assert (Hin : In e rows).
  { apply filter_In. split; [assumption|]. now apply key_match_self. }
  assert (Hnd' : NoDup (map relpath rows)) by now apply NoDup_map_filter.
  cbn [count fold_right snd]. rewrite Nat.add_0_r.
  destruct rows as [|x [|y rows']] eqn:E; [contradiction| |].
  - cbn [List.length Nat.eqb andb]. unfold one_to_one.
    cbn [first_of_first bind]. now rewrite py_eqb_refl.
  - cbn [List.length Nat.eqb andb]. rewrite <- E in *.
    now apply many_to_many_same.
Qed.

Lemma for_each_total {A S} (P : S -> Prop) (body : A -> S -> result S) xs :
  (forall x s, In x xs -> P s -> exists s', body x s = Ok s' /\ P s') ->
  forall st, P st -> exists st', for_each body xs st = Ok st' /\ P st'.
Proof.
  induction xs as [|x xs IH]; intros Hbody st Hst; cbn [for_each].
  - eauto.
  - destruct (Hbody x st (or_introl eq_refl) Hst) as (s1 & E & H1).
    rewrite E. cbn [bind]. apply IH; [|exact H1].
    intros y s Hy. apply Hbody. now right.
Qed.

(** X6.  A source catalog and a destination catalog with the same
    records, keyed as the engine inserts them and with pairwise distinct
    relpaths: the plan completes, the script only changes directory,
    no action is counted and no byte is left to transfer. *)
Theorem identical_catalogs_need_no_operation p p' d :
  keyed_catalogs [(p, d)] -> NoDup (map relpath (files d)) ->
  exists st,
    plan [(p, d)] [(p', d)] = Ok st
    /\ script st = [Shebang; CdInto p; CdBack false p]
    /\ n_actions st = 0 /\ transfer_bytes st = 0.
Proof.
  intros Hk Hnd. unfold plan. cbn [for_each]. unfold plan_db at 1.
  rewrite query_positive. cbn [bind]. unfold initial at 1. cbn [subdir].
  set (Inv := fun s : state =>
    script s = [Shebang; CdInto p] /\ subdir s = Some p
    /\ n_actions s = 0 /\ transfer_bytes s = 0).
  destruct (for_each_total Inv (plan_entry [(p, d)] [(p', d)] p)
              (filter (fun r => sql_gtb_int (size r) 0) (files d)))
    with (st := set_subdir p (write (CdInto p) initial))
    as (s1 & E & Hs & Hsub & Ha & Ht).
  - intros e s He HI. apply filter_In in He as [He _].
    rewrite plan_entry_same;
      [|apply (Hk p d e); [now left|assumption]|assumption|assumption].
    eexists. split; [reflexivity|].
    destruct (mem py_eqb (parthash e) (done s)); exact HI.
  - repeat split.
  - rewrite E. cbn [bind]. rewrite Hsub. eexists. split; [reflexivity|].
    cbn [write script n_actions transfer_bytes]. rewrite Hs. repeat split.
    + exact Ha.
    + exact Ht.
Qed.

Lemma identical_catalogs_need_no_operation_witness :
  exists st,
    plan [("/src", twins)] [("/dst", twins)] = Ok st
    /\ script st = [Shebang; CdInto "/src"; CdBack false "/src"]
    /\ n_actions st = 0 /\ transfer_bytes st = 0.
Proof.
  apply (identical_catalogs_need_no_operation "/src" "/dst" twins).
  - intros path d r [[= <- <-] | []] Hr. cbn in Hr.
    destruct Hr as [<- | [<- | [<- | []]]].
    + exists 10, H1. repeat split; (reflexivity || (vm_compute; discriminate)).
    + exists 10, H1. repeat split; (reflexivity || (vm_compute; discriminate)).
    + exists 7, H2. repeat split; (reflexivity || (vm_compute; discriminate)).
  - cbn. repeat constructor; cbn; intuition discriminate.
Defined.

(** ** The books of the planner *)

Lemma mem_In d l : mem String.eqb d l = true <-> In d l.
Proof.
  unfold mem. rewrite existsb_exists. split.
  - intros (x & Hx & E). apply String.eqb_eq in E. now subst.
  - intros H. exists d. split; [assumption|apply String.eqb_refl].
Qed.

Lemma mem_same d a b :
  (forall x, In x a <-> In x b) ->
  mem String.eqb d a = mem String.eqb d b.
Proof.
  intros H. destruct (mem String.eqb d b) eqn:E.
  - apply mem_In. apply H. now apply mem_In.
  - destruct (mem String.eqb d a) eqn:E'; [|reflexivity].
    apply mem_In, H, mem_In in E'. congruence.
Qed.

Lemma made_snoc s l :
  made (s ++ [l]) = made s ++ match l with Mkdir d => [d] | _ => [] end.
Proof. unfold made. rewrite flat_map_app. cbn. now rewrite app_nil_r. Qed.

Lemma actions_snoc s l :
  actions_in (s ++ [l]) = actions_in s + (if is_action l then 1 else 0).
Proof.
  unfold actions_in. rewrite filter_app, length_app. cbn [filter].
  destruct (is_action l); cbn [List.length]; lia.
Qed.

Lemma ready_snoc s l : forall known,
  ready known (s ++ [l])
  = ready known s
    && match l with
       | Mv _ to | Cp _ to =>
           mem String.eqb (dirname to) (rev (made s) ++ known)
       | _ => true
       end.
Proof.
  induction s as [|x s IH]; intros known.
  - cbn. destruct l; cbn; now rewrite ?andb_true_r.
  - destruct x; cbn [app ready]; rewrite IH;
      try (cbn [made flat_map app]; fold (made s); reflexivity).
    + cbn [made flat_map app]. fold (made s). cbn [rev].
      now rewrite <- app_assoc.
    + cbn [made flat_map app]. fold (made s). now rewrite andb_assoc.
    + cbn [made flat_map app]. fold (made s). now rewrite andb_assoc.
Qed.

Lemma tidy_write l st :
  is_action l = false -> (forall d, l <> Mkdir d) ->
  tidy st -> tidy (write l st).
Proof.
  intros Ha Hm (A & B & C & D). unfold tidy, write.
  cbn [script mkdirs n_actions]. rewrite made_snoc, actions_snoc, ready_snoc.
  rewrite Ha, D.
  destruct l; try discriminate; try (now exfalso; eapply Hm);
    rewrite app_nil_r, Z.add_0_r; auto.
Qed.

Lemma tidy_ensure_mkdir dir st :
  tidy st -> tidy (ensure_mkdir dir st) /\ In dir (mkdirs (ensure_mkdir dir st)).
Proof.
  intros (A & B & C & D). unfold ensure_mkdir.
  destruct (mem String.eqb dir (mkdirs st)) eqn:E.
  - split; [repeat split; assumption|]. now apply mem_In.
  - split; [|cbn; apply in_or_app; right; now left].
    unfold tidy, write. cbn [script mkdirs n_actions].
    rewrite made_snoc, actions_snoc, ready_snoc, D, <- A. cbn [is_action].
    repeat split; try lia.
    apply NoDup_app; [assumption|repeat constructor; intros []|].
    intros x Hx [<- | []]. apply mem_In in Hx. congruence.
Qed.

Lemma tidy_emit a to st (l : line) :
  l = Mv a to \/ l = Cp a to ->
  tidy st -> tidy (emit (dirname to) l st).
Proof.
  intros Hl Hst. unfold emit.
  destruct (tidy_ensure_mkdir (dirname to) st Hst) as [(A & B & C & D) Hin].
  set (st1 := ensure_mkdir (dirname to) st) in *.
  unfold tidy, add_action, write. cbn [script mkdirs n_actions].
  rewrite made_snoc, actions_snoc, ready_snoc, D.
  assert (Hmem : mem String.eqb (dirname to) (rev (made (script st1)) ++ []) = true).
  { apply mem_In. rewrite app_nil_r. apply -> in_rev. now rewrite <- A. }
  destruct Hl as [-> | ->]; cbn [is_action]; rewrite Hmem, app_nil_r;
    repeat split; try assumption; lia.
Qed.

Lemma tidy_emits st st' : emits st st' -> tidy st -> tidy st'.
Proof.
  intros [-> | (a & to & l & Hl & ->)] H; [assumption|].
  now apply (tidy_emit a to).
Qed.

Lemma one_to_one_emits l_all r_all st st' :
  one_to_one l_all r_all st = Ok st' -> emits st st'.
Proof.
  unfold one_to_one.
  destruct (first_of_first l_all) as [src| |]; try discriminate.
  destruct (first_of_first r_all) as [dst| |]; try discriminate.
  cbn [bind]. destruct (negb _); [|intros [= <-]; now left].
  destruct (relpath src) as [|z|s]; try discriminate. cbn [dirname_of bind].
  destruct (String.eqb (dirname s) ""); intros [= <-]; [now left|].
  right. exists (py_str (relpath dst)), s, (Mv (py_str (relpath dst)) s).
  split; [now left|reflexivity].
Qed.

Lemma place_emits dbpath e r_num l rs st found l' rs' st' found' :
  place dbpath e r_num l (rs, st, found) = Ok (l', (rs', st', found')) ->
  emits st st'.
Proof.
  unfold place. destruct (matched l); [intros [= <- <- <- <-]; now left|].
  destruct (take_unmatched rs) as [[r rs1]|].
  - destruct (relpath (entry l)) as [|z|s]; try discriminate.
    cbn [dirname_of bind]. intros [= <- <- <- <-].
    right. exists (py_str (relpath (entry r))), s,
             (Mv (py_str (relpath (entry r))) s).
    split; [now left|reflexivity].
  - destruct rs as [|r rs2].
    + destruct (0 <? r_num)%nat; [discriminate|].
      intros [= <- <- <- <-]. now left.
    + destruct (relpath (entry l)) as [|z|s]; try discriminate.
      cbn [dirname_of bind]. intros [= <- <- <- <-].
      right. exists (py_str (relpath (entry r))), s,
               (Cp (py_str (relpath (entry r))) s).
      split; [now right|reflexivity].
Qed.

Lemma move_pass_tidy dbpath e r_num ls :
  forall rs st found ls' rs' st' found',
    move_pass dbpath e r_num ls (rs, st, found) = Ok (ls', (rs', st', found')) ->
    tidy st -> tidy st'.
Proof.
  induction ls as [|l ls IH]; intros rs st found ls' rs' st' found';
    cbn [move_pass].
  - now intros [= <- <- <- <-].
  - destruct (place dbpath e r_num l (rs, st, found))
      as [[l1 [[rs1 st1] found1]]| |] eqn:E; try discriminate.
    cbn [bind snd fst].
    destruct (move_pass dbpath e r_num ls (rs1, st1, found1))
      as [[ls2 [[rs2 st2] found2]]| |] eqn:E2; try discriminate.
    cbn [bind snd fst]. intros [= <- <- <- <-] Hst.
    apply (IH _ _ _ _ _ _ _ E2).
    apply (tidy_emits st); [|exact Hst]. eapply place_emits; exact E.
Qed.

Lemma many_to_many_tidy dbpath e l_all r_all st st' :
  many_to_many dbpath e l_all r_all st = Ok st' -> tidy st -> tidy st'.
Proof.
  unfold many_to_many.
  destruct (identity_pass _ _ _ _ _) as [[ls1 rs1] found1].
  destruct (move_pass _ _ _ ls1 _) as [[ls2 [[rs2 st2] found2]]| |] eqn:E;
    try discriminate.
  cbn [bind]. destruct (existsb _ rs2); [discriminate|].
  destruct (_ && _); [discriminate|].
  destruct (_ && _); [discriminate|].
  intros [= <-]. eapply move_pass_tidy; exact E.
Qed.

Lemma tidy_mark_done v st : tidy st -> tidy (mark_done v st).
Proof. intros H. exact H. Qed.

Lemma plan_entry_tidy src dst dbpath e st st' :
  plan_entry src dst dbpath e st = Ok st' -> tidy st -> tidy st'.
Proof.
  unfold plan_entry.
  destruct (mem py_eqb _ _); [now intros [= <-]|].
  destruct (query_each src _) as [l_all| |]; try discriminate.
  destruct (query_each dst _) as [r_all| |]; try discriminate.
  cbn [bind]. destruct (_ && _).
  { intros H Hst. apply (tidy_emits (mark_done (parthash e) st));
      [eapply one_to_one_emits; exact H|exact Hst]. }
  destruct (_ =? 0)%nat; [discriminate|].
  destruct (_ =? 0)%nat.
  - unfold add_transfer. destruct (size e); try discriminate.
    intros [= <-] Hst.
    apply (tidy_write (Missing e) (mark_done (parthash e) st));
      [reflexivity|discriminate|exact Hst].
  - intros H Hst. eapply many_to_many_tidy; [exact H|exact Hst].
Qed.

Lemma plan_db_tidy src dst x st st' :
  plan_db src dst x st = Ok st' -> tidy st -> tidy st'.
Proof.
  destruct x as [dbpath d]. unfold plan_db.
  destruct (query_files d positive_query) as [entries| |]; try discriminate.
  cbn [bind]. intros H Hst.
  eapply (for_each_preserves tidy); [| |exact H].
  - intros e s s' _ Hs He. eapply plan_entry_tidy; eassumption.
  - apply (tidy_write (CdInto dbpath)); [reflexivity|discriminate|].
    destruct (subdir st); [|exact Hst].
    apply tidy_write; [reflexivity|discriminate|exact Hst].
Qed.

Lemma plan_tidy src dst st : plan src dst = Ok st -> tidy st.
Proof.
  unfold plan.
  destruct (for_each (plan_db src dst) src initial) as [s1| |] eqn:E;
    try discriminate.
  cbn [bind]. intros H.
  assert (H1 : tidy s1).
  { eapply (for_each_preserves tidy); [| |exact E].
    - intros x s s' _ Hs Hx. eapply plan_db_tidy; eassumption.
    - repeat split. constructor. }
  destruct (subdir s1); injection H as <-; [|exact H1].
  apply tidy_write; [reflexivity|discriminate|exact H1].
Qed.



(** X9.  The closing report agrees with the script: the action count
    is the number of [mv] and [cp] lines, and, when the sizes of the
    "missing on destination" lines sum to less than 2^53, the value
    shown is that sum divided by the unit and rounded down, in the
    largest unit that fits. *)
Theorem report_totals_the_missing_lines src dst st r :
  plan_and_report src dst = Ok (st, r) ->
  0 <= missing_total (script st) < 2 ^ 53 ->
  actions r = actions_in (script st)
  /\ exists u,
       (u <= 4)%nat
       /\ unit r = nth u units EmptyString
       /\ display_value r = missing_total (script st) / 1000 ^ Z.of_nat u
       /\ ((u < 4)%nat -> missing_total (script st) < 1000 ^ (Z.of_nat u + 1))
       /\ ((0 < u)%nat -> 1000 ^ Z.of_nat u <= missing_total (script st)).
Proof.
  unfold plan_and_report.
  destruct (plan src dst) as [s1| |] eqn:E; try discriminate. cbn [bind].
  destruct (summary s1) as [r1| |] eqn:Er; try discriminate. cbn [bind].
  intros [= <- <-] Hlt.
  pose proof (transfer_accounting _ _ _ E) as Hacc.
  destruct (plan_tidy _ _ _ E) as (_ & _ & Hn & _).
  rewrite <- Hacc in *.
  destruct (PlannerClaims.report_rounds_down_below_2_53 s1 Hlt) as (u & Hsum & H4 & Hup & Hlow).
  rewrite Hsum in Er. injection Er as <-. cbn [actions display_value unit].
  split; [exact Hn|]. exists u. auto.
Qed.

Lemma report_totals_the_missing_lines_witness :
  exists st,
    plan_and_report full_src huge_dst = Ok (st, Report 0 1 "KB")
    /\ missing_total (script st) = 1000
    /\ actions_in (script st) = 0.
Proof.
  eexists. split; [vm_compute; reflexivity|]. split; [reflexivity|].
  symmetry.
  refine (proj1 (report_totals_the_missing_lines full_src huge_dst _
                   (Report 0 1 "KB") _ _)).
  - vm_compute. reflexivity.
  - split; [vm_compute; discriminate|vm_compute; reflexivity].
Defined.

End PlannerProps.

(* ================================================================== *)
(** * Further properties of the engine *)
(* ================================================================== *)

(** ** Dictionaries *)

Module DictFacts.

Import Engine.

Lemma get_set_same {V} k (v : V) d : get k (set k v d) = Some v.
Proof.
  induction d as [|[k' v'] d IH]; cbn [set get].
  - now rewrite String.eqb_refl.
  - destruct (String.eqb k' k) eqn:E; cbn [get]; rewrite E; [reflexivity|exact IH].
Qed.

Lemma get_set_other {V} k k' (v : V) d :
  k <> k' -> get k (set k' v d) = get k d.
Proof.
  intros Hne. induction d as [|[k0 v0] d IH]; cbn [set get].
  - destruct (String.eqb k' k) eqn:E; [|reflexivity].
    apply String.eqb_eq in E. congruence.
  - destruct (String.eqb k0 k') eqn:E; cbn [get].
    + apply String.eqb_eq in E. subst k0.
      destruct (String.eqb k' k) eqn:E'; [|reflexivity].
      apply String.eqb_eq in E'. congruence.
    + now rewrite IH.
Qed.

Lemma get_append_other {A} k k' (x : A) d :
  k <> k' -> get k (append_at k' x d) = get k d.
Proof.
  intros Hne. unfold append_at.
  destruct (get k' d); apply get_set_other; exact Hne.
Qed.

End DictFacts.

Module EngineProps.

Import Sqlite Fingerprint Os Engine EngineNotions Scenarios Samples.
Import SqliteFacts FingerprintFacts PlannerFacts EngineFacts EngineRows.
Import FingerprintProps DictFacts.

Lemma listed_append_at path e m :
  listed path (append_at path e m) = listed path m ++ [e].
Proof.
  unfold listed, append_at.
  destruct (get path m) as [l|]; now rewrite get_set_same.
Qed.

Section Run.

Variable md5 : bytes -> N.
Variable o : options.
Variable cwd : string.

(** ** The loop over the files *)

Lemma st_size_nonneg (data : bytes) : 0 <= st_size data.
Proof. unfold st_size. lia. Qed.

Lemma sql_eqb_int v n : sql_eqb v (VInt n) = true <-> v = VInt n.
Proof.
  destruct v as [|z|s]; cbn; split; try discriminate.
  - intros H. apply Z.eqb_eq in H. now subst.
  - intros [= ->]. apply Z.eqb_refl.
Qed.

(** X11.  A file for which the catalog holds a record with its size
    and its relpath is skipped, in the gathering and in the hashing
    pass: the loop body returns the state unchanged. *)
Theorem catalogued_file_is_skipped t path root_dir gather_only filelist_gen
    root f st data r :
  lookup t cwd (root +++ "/" +++ f) = Some (File data) ->
  st_size data <= max_int64 ->
  In r (files (store st)) -> size r = VInt (st_size data) ->
  relpath r = VText (drop (String.length root_dir + 1) (root +++ "/" +++ f)) ->
  visit_file md5 o cwd t path root_dir gather_only filelist_gen root f st
  = Ok st.
Proof.
  intros Hfile Hmax Hin Hsize Hrel. unfold visit_file.
  destruct (String.eqb f (dbfilename o)); [reflexivity|].
  unfold stat_size. rewrite Hfile. cbn [bind].
  rewrite query_by_size by (split; [apply st_size_nonneg|assumption]). cbn [bind].
  assert (existsb
            (fun e => py_eqb (relpath e)
               (VText (drop (String.length root_dir + 1) (root +++ "/" +++ f))))
            (filter (fun r0 => sql_eqb (size r0) (VInt (st_size data)))
                    (files (store st))) = true) as ->; [|reflexivity].
  apply existsb_exists. exists r. split.
  - apply filter_In. split; [assumption|]. now apply sql_eqb_int.
  - rewrite Hrel. apply py_eqb_refl.
Qed.

Lemma digests_nonneg data :
  (partial_hash o = true -> 0 <= partial_hash_size o) ->
  digests md5 o data
  = Ok (if partial_hash o
        then (None, Some (hexdigest md5 (sample data (partial_hash_size o))))
        else (Some (hexdigest md5 data), None)).
Proof.
  intros Hc. unfold digests. destruct (partial_hash o).
  - unfold hash_file_partial.
    rewrite partial_message_nonneg by (now apply Hc). reflexivity.
  - now rewrite hash_file_whole.
Qed.

(** X10.  A regular file other than the database file, with a name
    and a relpath without a double quote and no record of its size and
    relpath: the hashing pass appends exactly one record, with the file
    name, the relpath, the size on disk and the digest of the mode ([hash]
    is the text [None] and [parthash] the partial digest in partial mode,
    the other way round in full mode), prints one "adding" line and
    leaves [sub_dbs] alone. *)
Theorem new_file_is_recorded t path root_dir filelist_gen root f st data rel :
  String.eqb f (dbfilename o) = false ->
  lookup t cwd (root +++ "/" +++ f) = Some (File data) ->
  st_size data <= max_int64 ->
  rel = drop (String.length root_dir + 1) (root +++ "/" +++ f) ->
  mem_char DQ f = false -> mem_char DQ rel = false ->
  (forall r, In r (files (store st)) ->
     size r = VInt (st_size data) -> relpath r <> VText rel) ->
  (partial_hash o = true -> 0 <= partial_hash_size o) ->
  exists st',
    visit_file md5 o cwd t path root_dir false filelist_gen root f st = Ok st'
    /\ files (store st')
       = files (store st)
         ++ [FRow (VText f) (VText rel) (VInt (st_size data))
               (VText (if partial_hash o then "None" else hexdigest md5 data))
               (VText (if partial_hash o
                       then hexdigest md5 (sample data (partial_hash_size o))
                       else "None"))]
    /\ sub_dbs (store st') = sub_dbs (store st)
    /\ printed st' = printed st ++ [Adding rel path].
Proof.
  intros Hname Hfile Hmax -> Hf Hrel Hnew Hc. unfold visit_file.
  rewrite Hname. unfold stat_size, read_file. rewrite Hfile. cbn [bind].
  rewrite query_by_size by (split; [apply st_size_nonneg|assumption]). cbn [bind].
  set (rel := drop (String.length root_dir + 1) (root +++ "/" +++ f)) in *.
  assert (existsb (fun e => py_eqb (relpath e) (VText rel))
            (filter (fun r0 => sql_eqb (size r0) (VInt (st_size data)))
                    (files (store st))) = false) as ->.
  { apply not_true_is_false. intros H. apply existsb_exists in H as (r & Hr & E).
    apply filter_In in Hr as [Hin Hs]. apply sql_eqb_int in Hs.
    apply (Hnew r Hin Hs). destruct (relpath r) as [|z|s]; try discriminate.
    cbn in E. apply String.eqb_eq in E. now subst. }
  rewrite (digests_nonneg data Hc). cbn [bind].
  set (st1 := note_new root_dir filelist_gen root f st).
  assert (Hstore : store st1 = store st) by apply store_note_new.
  assert (Hprinted : printed st1 = printed st).
  { subst st1. unfold note_new. destruct (new_files st); [|reflexivity].
    match goal with |- printed (if ?b then _ else _) = _ => destruct b end;
      reflexivity. }
  assert (Hins : forall hs ps,
            mem_char DQ (str_opt hs) = false ->
            mem_char DQ (str_opt ps) = false ->
            exists st',
              (d <- Sqlite.update (store (print (Adding rel path) st1))
                      (insert_sql f rel (st_size data) hs ps) ;;
               Ok (with_store d (print (Adding rel path) st1))) = Ok st'
              /\ files (store st')
                 = files (store st)
                   ++ [FRow (VText f) (VText rel) (VInt (st_size data))
                            (VText (str_opt hs)) (VText (str_opt ps))]
              /\ sub_dbs (store st') = sub_dbs (store st)
              /\ printed st' = printed st ++ [Adding rel path]).
  { intros hs ps Hh Hp. cbn [print store].
    rewrite update_insert_plain;
      [|assumption|assumption|assumption|assumption|
       split; [apply st_size_nonneg|assumption]].
    cbn [bind]. eexists. split; [reflexivity|].
    cbn [with_store print store files sub_dbs printed].
    now rewrite Hstore, Hprinted. }
  destruct (partial_hash o); cbn [fst snd].
  - apply (Hins None (Some _)); [reflexivity|apply hexdigest_no_dq].
  - apply (Hins (Some _) None); [apply hexdigest_no_dq|reflexivity].
Qed.

(** X12.  Once the hashing pass has gone through a file (with a name
    and a relpath without a double quote), a further visit of the same
    file, gathering or hashing, changes nothing: the record it left is
    the one the skip looks for. *)
Theorem ingested_file_is_skipped_afterwards
    t path root_dir filelist_gen root f st st' :
  mem_char DQ f = false ->
  mem_char DQ (drop (String.length root_dir + 1) (root +++ "/" +++ f)) = false ->
  visit_file md5 o cwd t path root_dir false filelist_gen root f st = Ok st' ->
  forall gather_only filelist_gen',
    visit_file md5 o cwd t path root_dir gather_only filelist_gen' root f st'
    = Ok st'.
Proof.
  intros Hf Hrel H gather_only filelist_gen'.
  set (rel := drop (String.length root_dir + 1) (root +++ "/" +++ f)) in *.
  unfold visit_file in H |- *.
  destruct (String.eqb f (dbfilename o)); [reflexivity|].
  unfold stat_size in H |- *.
  destruct (lookup t cwd (root +++ "/" +++ f)) as [[data|]|] eqn:Hfile;
    try discriminate.
  cbn [bind] in H |- *.
  destruct (query_files (store st) _) as [entries| |] eqn:Q; try discriminate.
  cbn [bind] in H. fold rel in H |- *.
  destruct (existsb _ entries) eqn:X.
  { injection H as <-. rewrite Q. cbn [bind]. now rewrite X. }
  unfold read_file in H. rewrite Hfile in H. cbn [bind] in H.
  destruct (digests md5 o data) as [h| |] eqn:Eh; try discriminate.
  cbn [bind] in H.
  destruct (Sqlite.update _ _) as [d| |] eqn:E; try discriminate.
  cbn [bind] in H. injection H as <-. cbn [store with_store print] in *.
  rewrite store_note_new in E.
  apply digests_texts in Eh as (Hh1 & Hh2 & _).
  apply update_insert_plain_inv in E as [Hmax ->]; auto;
    [|apply st_size_nonneg].
  rewrite query_by_size by (split; [apply st_size_nonneg|assumption]). cbn [bind files].
  match goal with
  | |- (if existsb ?p ?l then _ else _) = _ =>
      assert (existsb p l = true) as ->; [|reflexivity]
  end.
  apply existsb_exists. eexists. split.
  - apply filter_In. split; [apply in_or_app; right; now left|].
    cbn [size]. cbn. apply Z.eqb_refl.
  - cbn [relpath]. apply py_eqb_refl.
Qed.

(** ** What the engine prints *)

Lemma keeps_refl P l : keeps P l l.
Proof. intros e _ H. exact H. Qed.

Lemma keeps_trans P a b c : keeps P a b -> keeps P b c -> keeps P a c.
Proof. intros H1 H2 e He Hin. apply (H1 e He), (H2 e He), Hin. Qed.

Lemma keeps_snoc P l x : P x = false -> keeps P l (l ++ [x]).
Proof.
  intros Hx e He Hin. apply in_app_or in Hin as [Hin | [<- | []]];
    [assumption|congruence].
Qed.

Lemma for_each_keeps {A S} (P : event -> bool) (out : S -> list event)
    (body : A -> S -> result S) xs :
  (forall x s s', In x xs -> body x s = Ok s' -> keeps P (out s) (out s')) ->
  forall st st', for_each body xs st = Ok st' -> keeps P (out st) (out st').
Proof.
  induction xs as [|x xs IH]; intros Hbody st st'; cbn [for_each].
  - intros [= <-]. apply keeps_refl.
  - destruct (body x st) as [s1| |] eqn:E; try discriminate. cbn [bind].
    intros H. apply (keeps_trans P _ (out s1)).
    + apply (Hbody x st s1); [now left|exact E].
    + apply IH; [|exact H]. intros y s s' Hy. apply Hbody. now right.
Qed.

Lemma printed_note_new root_dir filelist_gen root f st :
  printed (note_new root_dir filelist_gen root f st) = printed st.
Proof.
  unfold note_new. destruct (new_files st); [|reflexivity].
  match goal with |- printed (if ?b then _ else _) = _ => destruct b end;
    reflexivity.
Qed.

Lemma visit_file_keeps P t path root_dir gather_only filelist_gen root f st st' :
  (gather_only = false -> forall rel p, P (Adding rel p) = false) ->
  visit_file md5 o cwd t path root_dir gather_only filelist_gen root f st
  = Ok st' ->
  keeps P (printed st) (printed st').
Proof.
  intros HP. unfold visit_file.
  destruct (String.eqb f (dbfilename o)); [intros [= <-]; apply keeps_refl|].
  destruct (stat_size t cwd _) as [fsize| |]; try discriminate. cbn [bind].
  destruct (query_files _ _) as [entries| |]; try discriminate. cbn [bind].
  destruct (existsb _ entries); [intros [= <-]; apply keeps_refl|].
  destruct gather_only.
  { intros [= <-]. rewrite printed_note_new. apply keeps_refl. }
  destruct (read_file t cwd _) as [data| |]; try discriminate. cbn [bind].
  destruct (digests md5 o data) as [h| |]; try discriminate. cbn [bind].
  destruct (Sqlite.update _ _) as [d| |]; try discriminate. cbn [bind].
  intros [= <-]. cbn [with_store print printed]. rewrite printed_note_new.
  apply keeps_snoc. now apply HP.
Qed.

Lemma visit_file_gather_store t path root_dir filelist_gen root f st st' :
  visit_file md5 o cwd t path root_dir true filelist_gen root f st = Ok st' ->
  store st' = store st.
Proof.
  unfold visit_file.
  destruct (String.eqb f (dbfilename o)); [now intros [= <-]|].
  destruct (stat_size t cwd _) as [fsize| |]; try discriminate. cbn [bind].
  destruct (query_files _ _) as [entries| |]; try discriminate. cbn [bind].
  destruct (existsb _ entries); intros [= <-]; [reflexivity|].
  apply store_note_new.
Qed.

Lemma prune_marker_keeps P t marker st st' :
  (forall m, P (RemovedDb m) = false) ->
  prune_marker cwd t marker st = Ok st' -> keeps P (printed st) (printed st').
Proof.
  intros HP. unfold prune_marker.
  destruct (marker_isfile cwd t marker) as [present| |]; try discriminate.
  cbn [bind]. destruct present; [intros [= <-]; apply keeps_refl|].
  destruct (Sqlite.update _ _) as [d| |]; try discriminate.
  cbn [bind]. intros [= <-]. cbn [with_store print printed].
  apply keeps_snoc, HP.
Qed.

Lemma reclaim_keeps P path fpath entry sub_db st st' :
  (forall r s, P (WillRemove r s) = false) ->
  reclaim path fpath entry sub_db st = Ok st' ->
  keeps P (printed st) (printed st').
Proof.
  intros HP. unfold reclaim. destruct (startswith path sub_db);
    [intros [= <-]; apply keeps_refl|].
  destruct (startswith fpath sub_db); [|intros [= <-]; apply keeps_refl].
  destruct (Sqlite.update _ _) as [d| |]; try discriminate.
  cbn [bind]. intros [= <-]. cbn [with_store print printed].
  apply keeps_snoc, HP.
Qed.

Lemma prune_file_keeps P t path root_dir sub_roots entry st st' :
  (forall r s, P (WillRemove r s) = false) ->
  (forall n v, P (SizeDiffers n v) = false) ->
  prune_file cwd t path root_dir sub_roots entry st = Ok st' ->
  keeps P (printed st) (printed st').
Proof.
  intros HW HS. unfold prune_file.
  destruct (path_of root_dir _) as [fpath| |]; try discriminate. cbn [bind].
  destruct (for_each _ sub_roots st) as [s1| |] eqn:E; try discriminate.
  cbn [bind].
  assert (H1 : keeps P (printed st) (printed s1)).
  { eapply (for_each_keeps P printed); [|exact E].
    intros x s s' _. now apply reclaim_keeps. }
  destruct (negb (isfile t cwd fpath)); [intros [= <-]; exact H1|].
  destruct (stat_size t cwd fpath) as [fsize| |]; try discriminate.
  cbn [bind]. destruct (negb _); intros [= <-]; [|exact H1].
  apply (keeps_trans P _ (printed s1)); [exact H1|].
  cbn [print printed]. apply keeps_snoc, HS.
Qed.

(** The lines [process_dbpath] prints on its cursor are "adding" (when
    it is not gathering), "removed db", "will remove" and "size
    differs". *)
Lemma process_store_keeps P t path root_dir gather_only filelist_gen all_files
    st st' :
  (gather_only = false -> forall rel p, P (Adding rel p) = false) ->
  (forall m, P (RemovedDb m) = false) ->
  (forall r s, P (WillRemove r s) = false) ->
  (forall n v, P (SizeDiffers n v) = false) ->
  process_store md5 o cwd t path root_dir gather_only filelist_gen all_files st
  = Ok st' ->
  keeps P (printed st) (printed st').
Proof.
  intros HA HR HW HS. unfold process_store.
  destruct (visit_all _ _ _ _ _ _ _ _ _ _) as [s1| |] eqn:E1; try discriminate.
  cbn [bind]. rewrite query_select_sub_dbs. cbn [bind].
  destruct (for_each (prune_marker cwd t) _ s1) as [s2| |] eqn:E2;
    try discriminate.
  cbn [bind]. rewrite query_select_files. cbn [bind]. intros E3.
  apply (keeps_trans P _ (printed s1)).
  - unfold visit_all in E1. eapply (for_each_keeps P printed); [|exact E1].
    intros x s s' _ Hx. eapply (for_each_keeps P printed); [|exact Hx].
    intros f s0 s0' _. now apply visit_file_keeps.
  - apply (keeps_trans P _ (printed s2)).
    + eapply (for_each_keeps P printed); [|exact E2]. intros m s s' _.
      now apply prune_marker_keeps.
    + eapply (for_each_keeps P printed); [|exact E3]. intros e s s' _.
      now apply prune_file_keeps.
Qed.

(** ** The gathering pass *)

(** X13.  A gathering call of [process_dbpath] adds no record and
    prints no "adding" line: the records it leaves are among those it
    found. *)
Theorem gathering_adds_no_record
    t path root_dir filelist_gen all_files st st' :
  process_store md5 o cwd t path root_dir true filelist_gen all_files st
  = Ok st' ->
  incl (files (store st')) (files (store st))
  /\ forall rel p,
       In (Adding rel p) (printed st') -> In (Adding rel p) (printed st).
Proof.
  intros H. split.
  - unfold process_store in H.
    destruct (visit_all _ _ _ _ _ _ _ _ _ _) as [s1| |] eqn:E1;
      try discriminate.
    cbn [bind] in H. rewrite query_select_sub_dbs in H. cbn [bind] in H.
    destruct (for_each (prune_marker cwd t) _ s1) as [s2| |] eqn:E2;
      try discriminate.
    cbn [bind] in H. rewrite query_select_files in H. cbn [bind] in H.
    assert (H1 : store s1 = store st).
    { unfold visit_all in E1.
      eapply (for_each_preserves (fun s => store s = store st));
        [|reflexivity|exact E1].
      intros x s s' _ Hs Hx.
      eapply (for_each_preserves (fun s => store s = store st));
        [|exact Hs|exact Hx].
      intros f s0 s0' _ Hs0 Hf.
      apply visit_file_gather_store in Hf. congruence. }
    apply prune_markers_effect in E2 as [Hf2 _].
    apply prune_files_effect in H as (_ & Hi & _).
    rewrite <- H1, <- Hf2. exact Hi.
  - intros rel p.
    apply (process_store_keeps is_adding) in H;
      [exact (H (Adding rel p) eq_refl)|intro; discriminate|reflexivity..].
Qed.

(** ** The records of vanished files *)

Lemma reclaim_missing path fpath entry sub_roots : forall st st',
  for_each (reclaim path fpath entry) sub_roots st = Ok st' ->
  missing st' = missing st.
Proof.
  induction sub_roots as [|s sub_roots IH]; intros st st'; cbn [for_each].
  - now intros [= <-].
  - unfold reclaim at 1. destruct (startswith path s); cbn [bind];
      [apply IH|].
    destruct (startswith fpath s); cbn [bind]; [|apply IH].
    destruct (Sqlite.update _ _) as [d| |]; try discriminate. cbn [bind].
    intros H. now apply IH in H.
Qed.

Lemma prune_file_missing t path root_dir sub_roots e st st' :
  prune_file cwd t path root_dir sub_roots e st = Ok st' ->
  listed path (missing st')
  = listed path (missing st) ++ (if absent cwd t root_dir e then [e] else []).
Proof.
  unfold prune_file, path_of, absent.
  destruct (relpath e) as [|z|rel]; try discriminate. cbn [bind].
  destruct (for_each _ sub_roots st) as [s1| |] eqn:E; try discriminate.
  cbn [bind]. apply reclaim_missing in E.
  destruct (negb (isfile t cwd _)).
  - intros [= <-]. cbn [missing]. now rewrite listed_append_at, E.
  - destruct (stat_size t cwd _) as [fsize| |]; try discriminate.
    cbn [bind]. destruct (negb _); intros [= <-]; cbn [print missing];
      now rewrite E, app_nil_r.
Qed.

(** X14.  After the loop over the records, [missing_files[path]] is
    what it was, followed by the records of the loop whose file is not
    there, in the order of the loop. *)
Theorem vanished_files_are_listed t path root_dir sub_roots entries :
  forall st st',
    for_each (prune_file cwd t path root_dir sub_roots) entries st = Ok st' ->
    listed path (missing st')
    = listed path (missing st) ++ filter (absent cwd t root_dir) entries.
Proof.
  induction entries as [|e entries IH]; intros st st'; cbn [for_each].
  - intros [= <-]. cbn. now rewrite app_nil_r.
  - destruct (prune_file cwd t path root_dir sub_roots e st) as [s1| |] eqn:E;
      try discriminate.
    cbn [bind]. intros H. rewrite (IH _ _ H), (prune_file_missing _ _ _ _ _ _ _ E).
    cbn [filter]. rewrite <- app_assoc.
    now destruct (absent cwd t root_dir e).
Qed.

(** ** The output of a whole run *)

Lemma connect_log path dbpath w w' :
  connect cwd path dbpath w = Ok w' -> log w' = log w.
Proof.
  unfold connect. destruct (has path (cursors w)); [now intros [= <-]|].
  destruct (touch (tree w) cwd dbpath); [|discriminate].
  now intros [= <-].
Qed.

Lemma process_dbpath_keeps P path0 gather_only filelist_gen nf all_files w r :
  (forall p, P (Creating p) = false) ->
  (gather_only = false -> forall rel p, P (Adding rel p) = false) ->
  (forall m, P (RemovedDb m) = false) ->
  (forall x s, P (WillRemove x s) = false) ->
  (forall n v, P (SizeDiffers n v) = false) ->
  process_dbpath md5 o cwd path0 gather_only filelist_gen nf all_files w = Ok r ->
  keeps P (log w) (log (fst r)).
Proof.
  intros HC HA HR HW HS. unfold process_dbpath.
  set (path := rstrip_slash path0).
  set (dbpath := if isdir (tree w) cwd path then _ else _).
  set (w1 := if isfile (tree w) cwd dbpath then w else _).
  assert (H1 : keeps P (log w) (log w1)).
  { subst w1. destruct (isfile (tree w) cwd dbpath); [apply keeps_refl|].
    cbn [log]. apply keeps_snoc, HC. }
  destruct (connect cwd path dbpath w1) as [w2| |] eqn:E; try discriminate.
  cbn [bind]. apply connect_log in E.
  destruct (process_store _ _ _ _ _ _ _ _ _ _) as [st| |] eqn:E2;
    try discriminate.
  cbn [bind]. intros [= <-]. cbn [fst log].
  apply (keeps_trans P _ (log w1)); [exact H1|]. rewrite <- E.
  apply (process_store_keeps P) in E2; assumption.
Qed.

Lemma candidates_in_loop stores dbpath entry v cs : forall acc r,
  for_each (candidates_in stores dbpath entry) cs acc = Ok r ->
  (cs <> [] -> snd r = true)
  /\ (In (Removed v) (fst r) -> In (Removed v) (fst acc)).
Proof.
  induction cs as [|c cs IH]; intros acc r; cbn [for_each].
  - intros [= <-]. split; [congruence|auto].
  - unfold candidates_in at 1.
    destruct (query_files _ _) as [rows| |]; try discriminate. cbn [bind].
    destruct (path_of _ _) as [what| |]; try discriminate. cbn [bind].
    intros H. destruct cs as [|c' cs'].
    + cbn in H. injection H as <-. cbn. split; [reflexivity|].
      intros Hin. apply in_app_or in Hin as [Hin | [Hin | []]];
        [assumption|discriminate].
    + apply IH in H as [H1 H2]. split; [intros _; apply H1; discriminate|].
      intros Hin. apply H2 in Hin. cbn in Hin.
      apply in_app_or in Hin as [Hin | [Hin | []]];
        [assumption|discriminate].
Qed.

(** The deletion that ends [report_missing] goes through
    [cursors[dbpath]]: when it succeeds a cursor is open, the loop over
    the cursors has run, and [found] is set. *)
Lemma report_missing_keeps dbpath entry w w' :
  report_missing dbpath entry w = Ok w' -> keeps is_removed (log w) (log w').
Proof.
  unfold report_missing.
  destruct (for_each _ (cursors w) (log w, false)) as [r| |] eqn:E;
    try discriminate.
  cbn [bind].
  destruct (get dbpath (cursors w)) as [dbfile|] eqn:G; try discriminate.
  destruct (Sqlite.update _ _); try discriminate.
  cbn [bind]. intros [= <-]. cbn [log].
  intros [| | | | | |v] He; try discriminate He.
  apply (candidates_in_loop _ _ _ v) in E as [H1 H2].
  rewrite H1 by (intros Hc; rewrite Hc in G; discriminate).
  exact H2.
Qed.

(** X16.  A run of [update_paths] that completes prints no "removed"
    line. *)
Theorem no_record_is_reported_removed paths w w' v :
  update_paths md5 o cwd paths w = Ok w' ->
  In (Removed v) (log w') -> In (Removed v) (log w).
Proof.
  unfold update_paths.
  set (all_files := fold_left _ _ _). set (calls := match all_files with [] => _ | _ => _ end).
  destruct (for_each (gather md5 o cwd all_files) calls (w, [])) as [g| |] eqn:E1;
    try discriminate.
  cbn [bind].
  destruct (for_each (ingest md5 o cwd all_files) (snd g) (fst g)) as [w1| |] eqn:E2;
    try discriminate.
  cbn [bind]. intros E3.
  assert (H1 : keeps is_removed (log w) (log (fst g))).
  { apply (for_each_keeps is_removed (fun a : world * dict filelist => log (fst a)))
      in E1; [exact E1|].
    intros x s s' _. unfold gather.
    destruct (process_dbpath _ _ _ _ _ _ _ _ _) as [r| |] eqn:E; try discriminate.
    cbn [bind]. intros [= <-]. cbn [fst].
    apply (process_dbpath_keeps is_removed) in E; auto. }
  assert (H2 : keeps is_removed (log (fst g)) (log w1)).
  { apply (for_each_keeps is_removed log) in E2; [exact E2|].
    intros x s s' _. unfold ingest.
    destruct (process_dbpath _ _ _ _ _ _ _ _ _) as [r| |] eqn:E; try discriminate.
    cbn [bind]. intros [= <-].
    apply (process_dbpath_keeps is_removed) in E; auto. }
  assert (H3 : keeps is_removed (log w1) (log w')).
  { apply (for_each_keeps is_removed log) in E3; [exact E3|].
    intros x s s' _ Hx.
    apply (for_each_keeps is_removed log) in Hx; [exact Hx|].
    intros e s0 s0' _. apply report_missing_keeps. }
  intros Hin.
  apply (H1 (Removed v) eq_refl), (H2 (Removed v) eq_refl),
    (H3 (Removed v) eq_refl), Hin.
Qed.

End Run.

(** ** The report on the vanished records *)

(** X15.  [report_missing] on a record with a plain relpath (no
    double quote, not the name of a column) leaves the tree alone and
    deletes from the catalog behind [cursors[dbpath]] exactly the
    records with that relpath. *)
Theorem reported_record_is_deleted dbpath entry w w' rel dbfile :
  report_missing dbpath entry w = Ok w' ->
  relpath entry = VText rel -> mem_char DQ rel = false ->
  resolve_files rel = Literal rel ->
  get dbpath (cursors w) = Some dbfile ->
  tree w' = tree w
  /\ forall r,
       In r (files (store_at dbfile (stores w')))
       <-> In r (files (store_at dbfile (stores w))) /\ relpath r <> VText rel.
Proof.
  intros H Hrel Hq Hres Hcur. unfold report_missing in H.
  destruct (for_each _ (cursors w) _) as [r0| |]; try discriminate.
  cbn [bind] in H. rewrite Hcur, Hrel in H.
  rewrite (update_delete_file_plain _ _ _ Hq Hres) in H. cbn [bind] in H.
  injection H as <-. cbn [tree stores]. split; [reflexivity|].
  intros r. unfold store_at at 1. rewrite get_set_same. cbn [files].
  unfold keep. rewrite filter_In. split; intros [Hin Hne]; (split; [assumption|]).
  - intros Heq. rewrite Heq in Hne. cbn in Hne.
    now rewrite String.eqb_refl in Hne.
  - destruct (relpath r) as [|z|s]; cbn; try reflexivity.
    destruct (String.eqb s rel) eqn:E; [|reflexivity].
    apply String.eqb_eq in E. congruence.
Qed.

(** ** The properties above on the scenarios *)

Lemma catalogued_file_is_skipped_witness :
  visit_file Md5.md5 defaults "/" one_file_tree "/P" "/P" true None "/P"
    "a.txt" recorded
  = Ok recorded.
Proof.
  apply (catalogued_file_is_skipped Md5.md5 defaults "/" one_file_tree "/P"
           "/P" true None "/P" "a.txt" recorded [x61] (row "a.txt" 1 H2));
    try reflexivity.
  - vm_compute. discriminate.
  - now left.
Defined.

Lemma new_file_is_recorded_witness :
  exists st',
    visit_file Md5.md5 defaults "/" one_file_tree "/P" "/P" false None "/P"
      "a.txt" nothing
    = Ok st'
    /\ files (store st') = [row "a.txt" 1 H2]
    /\ printed st' = [Adding "a.txt" "/P"].
Proof.
  destruct (new_file_is_recorded Md5.md5 defaults "/" one_file_tree "/P" "/P"
              None "/P" "a.txt" nothing [x61] "a.txt")
    as (st' & A & B & _ & C); try reflexivity.
  - vm_compute. discriminate.
  - intros r [].
  - intros _. vm_compute. discriminate.
  - exists st'. split; [exact A|]. split; [|exact C].
    rewrite B. vm_compute. reflexivity.
Defined.

Lemma ingested_file_is_skipped_afterwards_witness :
  visit_file Md5.md5 defaults "/" one_file_tree "/P" "/P" true None "/P"
    "a.txt" one_file_after
  = Ok one_file_after.
Proof.
  assert (E : visit_file Md5.md5 defaults "/" one_file_tree "/P" "/P" false
                (Some [("/P", ["a.txt"])]) "/P" "a.txt" nothing
              = Ok one_file_after) by (vm_compute; reflexivity).
  exact (ingested_file_is_skipped_afterwards Md5.md5 defaults "/"
           one_file_tree "/P" "/P" (Some [("/P", ["a.txt"])]) "/P" "a.txt"
           nothing one_file_after eq_refl eq_refl E true None).
Defined.

Lemma gathering_adds_no_record_witness :
  process_store Md5.md5 defaults "/" nested_tree "/P" "/P" true
    (get "/P" nested_all_files) nested_all_files nested_start
  = Ok nested_after
  /\ incl (files (store nested_after)) (files (store nested_start)).
Proof.
  assert (E : process_store Md5.md5 defaults "/" nested_tree "/P" "/P" true
                (get "/P" nested_all_files) nested_all_files nested_start
              = Ok nested_after) by (vm_compute; reflexivity).
  split; [exact E|].
  exact (proj1 (gathering_adds_no_record Md5.md5 defaults "/" nested_tree
                  "/P" "/P" (get "/P" nested_all_files) nested_all_files
                  nested_start nested_after E)).
Defined.

Lemma vanished_files_are_listed_witness :
  for_each (prune_file "/" replaced_tree "/P" "/P" []) [vanished] nothing
  = Ok vanished_listed
  /\ listed "/P" (missing vanished_listed) = [vanished].
Proof.
  assert (E : for_each (prune_file "/" replaced_tree "/P" "/P" []) [vanished]
                nothing
              = Ok vanished_listed) by (vm_compute; reflexivity).
  split; [exact E|].
  rewrite (vanished_files_are_listed "/" replaced_tree "/P" "/P" [] [vanished]
             nothing vanished_listed E).
  vm_compute. reflexivity.
Defined.

Lemma no_record_is_reported_removed_witness :
  update_paths Md5.md5 defaults "/" ["/P"] replaced_world = Ok replaced_after
  /\ ~ In (Removed (VText "gone.txt")) (log replaced_after).
Proof.
  assert (E : update_paths Md5.md5 defaults "/" ["/P"] replaced_world
              = Ok replaced_after) by (vm_compute; reflexivity).
  split; [exact E|]. intros Hin.
  exact (no_record_is_reported_removed Md5.md5 defaults "/" ["/P"]
           replaced_world replaced_after (VText "gone.txt") E Hin).
Defined.

Lemma reported_record_is_deleted_witness :
  report_missing "/P" vanished reported_before = Ok reported_after
  /\ tree reported_after = tree reported_before
  /\ files (store_at "/P/.dir.db" (stores reported_after)) = [].
Proof.
  assert (E : report_missing "/P" vanished reported_before = Ok reported_after)
    by (vm_compute; reflexivity).
  split; [exact E|]. split; [|reflexivity].
  exact (proj1 (reported_record_is_deleted "/P" vanished reported_before
                  reported_after "gone.txt" "/P/.dir.db" E eq_refl eq_refl
                  eq_refl eq_refl)).
Defined.

End EngineProps.

(* ================================================================== *)
(** * Properties of the walks *)
(* ================================================================== *)

Module WalkProps.

Import Sqlite Fingerprint Os Engine WalkNotions Scenarios Samples DictFacts.

Lemma filed_append_this k x d : filed k (append_at k x d) = filed k d ++ [x].
Proof.
  unfold filed, append_at, filelist.
  destruct (get k d) as [l|]; now rewrite get_set_same.
Qed.

Lemma filed_append k k' x d y :
  In y (filed k d) -> In y (filed k (append_at k' x d)).
Proof.
  intros H. destruct (String.eqb k k') eqn:E.
  - apply String.eqb_eq in E. subst k'. rewrite filed_append_this.
    apply in_or_app. now left.
  - apply String.eqb_neq in E. unfold filed, filelist in *.
    now rewrite get_append_other.
Qed.

Lemma prefix_app a b : String.prefix a (a +++ b) = true.
Proof.
  induction a as [|c a IH]; cbn; [now destruct b|].
  destruct (ascii_dec c c); [exact IH|congruence].
Qed.

Lemma prefix_refl a : String.prefix a a = true.
Proof.
  induction a as [|c a IH]; cbn; [reflexivity|].
  destruct (ascii_dec c c); [exact IH|congruence].
Qed.

Lemma prefix_trans a : forall b c,
  String.prefix a b = true -> String.prefix b c = true ->
  String.prefix a c = true.
Proof.
  induction a as [|x a IH]; intros b c Hab Hbc; [now destruct c|].
  destruct b as [|y b]; [discriminate|]. destruct c as [|z c]; [discriminate|].
  cbn in *. destruct (ascii_dec x y); [|discriminate].
  destruct (ascii_dec y z); [|discriminate]. subst.
  destruct (ascii_dec z z); [|congruence]. eapply IH; eassumption.
Qed.

Lemma prefix_join root name k :
  String.prefix root k = false -> String.prefix (join root name) k = false.
Proof.
  intros H. destruct (String.prefix (join root name) k) eqn:E; [|reflexivity].
  rewrite <- H. symmetry. apply (prefix_trans root (join root name) k);
    [|exact E].
  unfold join. destruct (ends_with_slash root); apply prefix_app.
Qed.

Section Walk.

Variable o : options.
Variable cwd : string.

(** The loop over the files of one directory. *)
Lemma files_loop_elsewhere k owner root files : forall acc,
  k <> owner ->
  get k (fold_left
           (fun acc f =>
              if String.eqb (root +++ "/" +++ f) (cwd +++ "/" +++ scriptname o)
              then acc
              else append_at owner (root, [f]) acc)
           files acc)
  = get k acc.
Proof.
  intros acc Hk. revert acc.
  induction files as [|f files IH]; intros acc; cbn [fold_left];
    [reflexivity|].
  rewrite IH. destruct (String.eqb _ _); [reflexivity|].
  now apply get_append_other.
Qed.

(** A walk changes only the list of its owner and the lists of the
    directories at or below its root. *)
Lemma find_files_node_elsewhere k : forall t owner root acc,
  k <> owner -> String.prefix root k = false ->
  get k (find_files_node o cwd owner root t acc) = get k acc.
Proof.
  intros t. induction t as [data|children IH] using node_all;
    intros owner root acc Hk Hp; cbn [find_files_node]; [reflexivity|].
  match goal with
  | |- context [if ?c then root else owner] =>
      set (owner' := if c then root else owner)
  end.
  assert (Hk' : k <> owner').
  { subst owner'. destruct (_ && _); [|exact Hk].
    intros ->. now rewrite prefix_refl in Hp. }
  clearbody owner'.
  match goal with
  | |- get k (_ children ?a) = _ => set (all1 := a)
  end.
  transitivity (get k all1); [|now apply files_loop_elsewhere].
  clearbody all1. revert all1.
  induction IH as [|[name x] children Hx _ IHc]; intros acc1; [reflexivity|].
  rewrite IHc. apply Hx; [exact Hk'|]. now apply prefix_join.
Qed.

(** A walk only appends. *)
Lemma files_loop_grows k y owner root files : forall acc,
  In y (filed k acc) ->
  In y (filed k
          (fold_left
             (fun acc f =>
                if String.eqb (root +++ "/" +++ f) (cwd +++ "/" +++ scriptname o)
                then acc
                else append_at owner (root, [f]) acc)
             files acc)).
Proof.
  induction files as [|f files IH]; intros acc H; cbn [fold_left];
    [exact H|].
  apply IH. destruct (String.eqb _ _); [exact H|]. now apply filed_append.
Qed.

Lemma find_files_node_grows k y : forall t owner root acc,
  In y (filed k acc) ->
  In y (filed k (find_files_node o cwd owner root t acc)).
Proof.
  intros t. induction t as [data|children IH] using node_all;
    intros owner root acc H; cbn [find_files_node]; [exact H|].
  match goal with
  | |- context [if ?c then root else owner] =>
      set (owner' := if c then root else owner)
  end.
  clearbody owner'.
  match goal with
  | |- In y (filed k (_ children ?a)) => set (all1 := a)
  end.
  assert (H1 : In y (filed k all1)) by now apply files_loop_grows.
  clearbody all1. revert all1 H1.
  induction IH as [|[name x] children Hx _ IHc]; intros acc1 H1; [exact H1|].
  apply IHc. now apply Hx.
Qed.

(** The files of the directory itself are listed under [owner]. *)
Lemma files_loop_lists owner root files f : forall acc,
  In f files ->
  String.eqb (root +++ "/" +++ f) (cwd +++ "/" +++ scriptname o) = false ->
  In (root, [f])
     (filed owner
        (fold_left
           (fun acc f =>
              if String.eqb (root +++ "/" +++ f) (cwd +++ "/" +++ scriptname o)
              then acc
              else append_at owner (root, [f]) acc)
           files acc)).
Proof.
  induction files as [|g files IH]; intros acc Hin Hs; [contradiction|].
  cbn [fold_left]. destruct Hin as [-> | Hin].
  - apply files_loop_grows. rewrite Hs, filed_append_this.
    apply in_or_app. right. now left.
  - now apply IH.
Qed.

(** X21.  A directory below the starting point of [find_files] that
    holds a database file is a catalog of its own: walking it adds
    nothing to the list of the catalog being walked, whatever lies
    beneath it, and each of its own files (the script file apart) is
    listed under its own path. *)
Theorem nested_catalog_owns_its_files dbpath root children acc :
  String.eqb root dbpath = false -> String.prefix root dbpath = false ->
  mem String.eqb (dbfilename o) (file_names children) = true ->
  get dbpath (find_files_node o cwd dbpath root (Dir children) acc)
  = get dbpath acc
  /\ forall f,
       In f (file_names children) ->
       String.eqb (root +++ "/" +++ f) (cwd +++ "/" +++ scriptname o) = false ->
       In (root, [f])
          (filed root (find_files_node o cwd dbpath root (Dir children) acc)).
Proof.
  intros Hne Hp Hdb.
  assert (Hk : dbpath <> root).
  { intros ->. now rewrite String.eqb_refl in Hne. }
  cbn [find_files_node]. rewrite Hne, Hdb. cbn [negb andb].
  match goal with
  | |- get dbpath (_ children ?a) = _ /\ _ => set (all1 := a)
  end.
  assert (H0 : get dbpath all1 = get dbpath acc)
    by now apply files_loop_elsewhere.
  assert (H1 : forall f,
            In f (file_names children) ->
            String.eqb (root +++ "/" +++ f) (cwd +++ "/" +++ scriptname o)
            = false ->
            In (root, [f]) (filed root all1))
    by (intros f Hf Hs; now apply files_loop_lists).
  clearbody all1. clear Hdb. rewrite <- H0. clear H0.
  set (names := file_names children) in *. clearbody names.
  revert all1 H1.
  induction children as [|[name x] children' IHc]; intros acc1 H1;
    [split; [reflexivity|exact H1]|].
  destruct (IHc (find_files_node o cwd root (join root name) x acc1))
    as [A B].
  { intros f Hf Hs. apply find_files_node_grows. now apply H1. }
  split; [|exact B].
  rewrite A. apply find_files_node_elsewhere; [exact Hk|].
  now apply prefix_join.
Qed.

(** Every directory of a walk lies at or below its top. *)
Lemma walk_node_below : forall t top x,
  In x (walk_node top t) -> String.prefix top (fst (fst x)) = true.
Proof.
  intros t. induction t as [data|children IH] using node_all;
    intros top x; cbn [walk_node]; [contradiction|].
  intros [<- | Hin]; [apply prefix_refl|].
  induction IH as [|[name y] children Hy _ IHc]; [contradiction|].
  apply in_app_or in Hin as [Hin | Hin]; [|now apply IHc].
  apply (prefix_trans top (join top name)); [|now apply (Hy _ x)].
  unfold join. destruct (ends_with_slash top); apply prefix_app.
Qed.

(** X22.  [find_dbs] only returns directories at or below the path it
    is given, and when that path is itself a directory with a database
    file it comes first. *)
Theorem find_dbs_looks_below_the_path t path :
  (forall r, In r (find_dbs o cwd t path) -> String.prefix path r = true)
  /\ (forall children,
        lookup t cwd path = Some (Dir children) ->
        mem String.eqb (dbfilename o) (file_names children) = true ->
        exists rest, find_dbs o cwd t path = path :: rest).
Proof.
  unfold find_dbs, walk. split.
  - intros r Hr. apply in_flat_map in Hr as (x & Hx & Hr).
    destruct (lookup t cwd path) as [n|]; [|contradiction].
    destruct (mem String.eqb (dbfilename o) (snd x)); [|contradiction].
    destruct Hr as [<- | []]. now apply (walk_node_below n).
  - intros children Hl Hdb. rewrite Hl. cbn [walk_node flat_map snd fst].
    rewrite Hdb. cbn [app]. eauto.
Qed.

End Walk.

(** ** The properties above on the scenarios *)

Lemma nested_catalog_owns_its_files_witness :
  get "/P" (find_files_node defaults "/" "/P" "/P/sub" (Dir sub_children) [])
  = None
  /\ In ("/P/sub", ["g"])
        (filed "/P/sub"
           (find_files_node defaults "/" "/P" "/P/sub" (Dir sub_children) [])).
Proof.
  destruct (nested_catalog_owns_its_files defaults "/" "/P" "/P/sub"
              sub_children [] eq_refl eq_refl eq_refl) as [A B].
  split; [exact A|]. apply B; [|reflexivity]. right. now left.
Defined.

Lemma find_dbs_looks_below_the_path_witness :
  exists rest, find_dbs defaults "/" nested_tree "/P" = "/P" :: rest.
Proof.
  apply (proj2 (find_dbs_looks_below_the_path defaults "/" nested_tree "/P")
           [(".dir.db", File []); ("sub", Dir sub_children)]);
    reflexivity.
Defined.

End WalkProps.

(* ================================================================== *)
(** * Properties of the listing of duplicates *)
(* ================================================================== *)

Module DupsProps.

Import Sqlite Engine Dups SqliteFacts PlannerFacts PlannerProps Scenarios Samples.

Lemma tokenize_by_hash h :
  mem_char SQ h = false ->
  tokenize ("SELECT filename, relpath, size, hash FROM files WHERE hash == '"
            +++ h +++ "'")
  = Some (head_select4 ++ where_hash_eq ++ [TSq h]).
Proof.
  intros Hh. unfold tokenize. rewrite lex_scan.
  scan_const. scan_var (scan_sq_start h Hh). scan_last. reflexivity.
Qed.

Lemma query_by_hash_plain d h :
  mem_char SQ h = false ->
  query_by_hash d (select_by_hash_sql (VText h))
  = Ok (filter (fun r => py_eqb (hash r) (VText h)) (files d)).
Proof.
  intros Hh. unfold query_by_hash, select_by_hash_sql. cbn [py_str].
  rewrite (tokenize_by_hash h Hh).
  rewrite app_assoc. rewrite strip_app by reflexivity.
  reflexivity.
Qed.


Lemma mem_value v l : mem py_eqb v l = true <-> In v l.
Proof.
  unfold mem. rewrite existsb_exists. split.
  - intros (x & Hx & E). apply py_eqb_eq in E. now subst.
  - intros H. exists v. split; [assumption|apply py_eqb_refl].
Qed.

Lemma group_app h a b : group h (a ++ b) = group h a ++ group h b.
Proof. unfold group. now rewrite filter_app, map_app. Qed.

(** The inner loop collects the relpaths of the records with the hash
    of the entry, over all the open cursors. *)
Lemma dups_of_plain stores h entry (cs : dict string) : forall acc,
  hash entry = VText h -> mem_char SQ h = false ->
  for_each
    (fun cur dups =>
       sub_entries <- query_by_hash (store_at (snd cur) stores)
                        (select_by_hash_sql (hash entry)) ;;
       Ok (dups ++ map relpath sub_entries))
    cs acc
  = Ok (acc ++ group (VText h)
                 (flat_map (fun cur => files (store_at (snd cur) stores)) cs)).
Proof.
  intros acc He Hh. revert acc.
  induction cs as [|c cs IH]; intros acc; cbn [for_each flat_map].
  - unfold group. cbn. now rewrite app_nil_r.
  - rewrite He, (query_by_hash_plain _ h Hh). cbn [bind].
    rewrite <- He, IH, He, group_app, app_assoc. reflexivity.
Qed.

Lemma list_entry_plain w e st :
  (exists h, hash e = VText h /\ mem_char SQ h = false) ->
  list_entry (stores w) (cursors w) e st = Ok (list_step (all_rows w) e st).
Proof.
  intros (h & He & Hh). unfold list_entry, list_step, dups_of.
  destruct (mem py_eqb (hash e) (dup_hashes st)); [reflexivity|].
  rewrite (dups_of_plain _ h e _ [] He Hh). cbn [bind app].
  fold (all_rows w). rewrite He.
  now destruct (1 <? _)%nat.
Qed.

Lemma list_entries_plain w entries : forall st,
  plain_hashes entries ->
  for_each (list_entry (stores w) (cursors w)) entries st
  = Ok (fold_left (fun s e => list_step (all_rows w) e s) entries st).
Proof.
  induction entries as [|e entries IH]; intros st Hp; [reflexivity|].
  cbn [for_each fold_left].
  rewrite list_entry_plain by (apply Hp; now left). cbn [bind].
  apply IH. intros r Hr. apply Hp. now right.
Qed.

Lemma list_dups_plain_loop w (cs : dict string) : forall st,
  plain_hashes (flat_map (fun cur => files (store_at (snd cur) (stores w))) cs) ->
  for_each
    (fun cur st =>
       entries <- query_files (store_at (snd cur) (stores w)) select_all_sql ;;
       for_each (list_entry (stores w) (cursors w)) entries st)
    cs st
  = Ok (fold_left (fun s e => list_step (all_rows w) e s)
          (flat_map (fun cur => files (store_at (snd cur) (stores w))) cs) st).
Proof.
  induction cs as [|c cs IH]; intros st Hp; [reflexivity|].
  cbn [for_each flat_map].
  replace (query_files (store_at (snd c) (stores w)) select_all_sql)
    with (Ok (files (store_at (snd c) (stores w)))) by reflexivity.
  cbn [bind].
  rewrite list_entries_plain
    by (intros r Hr; apply Hp; cbn [flat_map]; apply in_or_app; now left).
  cbn [bind]. rewrite fold_left_app.
  apply IH. intros r Hr. apply Hp. cbn [flat_map]. apply in_or_app. now right.
Qed.

Lemma step_grouped rows seen e st :
  grouped rows seen st -> grouped rows (seen ++ [e]) (list_step rows e st).
Proof.
  intros (Hg & Hn & Hin). unfold list_step.
  assert (Hseen : forall h, In h (map hash (seen ++ [e]))
                            <-> In h (map hash seen) \/ h = hash e).
  { intros h. rewrite map_app, in_app_iff. cbn. intuition. }
  assert (Hkeep : forall h, In h (dup_hashes st) ->
            In h (map hash (seen ++ [e]))
            /\ (2 <= List.length (group h rows))%nat).
  { intros h H. apply Hin in H as [H1 H2]. split; [|exact H2].
    apply Hseen. now left. }
  destruct (mem py_eqb (hash e) (dup_hashes st)) eqn:M.
  - apply mem_value in M. split; [exact Hg|]. split; [exact Hn|].
    intros h. split; [apply Hkeep|].
    intros [H1 H2]. apply Hseen in H1 as [H1 | ->]; [|exact M].
    apply Hin. now split.
  - assert (Hnot : ~ In (hash e) (dup_hashes st)).
    { intros H. apply mem_value in H. congruence. }
    destruct (1 <? List.length (group (hash e) rows))%nat eqn:L.
    + apply Nat.ltb_lt in L. unfold grouped. cbn [dup_hashes groups].
      split; [now rewrite map_app, Hg|]. split.
      * apply NoDup_app; [assumption|repeat constructor; intros []|].
        intros x Hx [<- | []]. contradiction.
      * intros h. split.
        -- intros H. apply in_app_or in H as [H | [<- | []]];
             [now apply Hkeep|].
           split; [apply Hseen; now right|lia].
        -- intros [H1 H2]. apply in_or_app.
           apply Hseen in H1 as [H1 | ->]; [left; apply Hin; now split|].
           right. now left.
    + apply Nat.ltb_ge in L. split; [exact Hg|]. split; [exact Hn|].
      intros h. split; [apply Hkeep|].
      intros [H1 H2]. apply Hseen in H1 as [H1 | ->]; [|lia].
      apply Hin. now split.
Qed.

Lemma steps_grouped rows rest : forall seen st,
  grouped rows seen st ->
  grouped rows (seen ++ rest) (fold_left (fun s e => list_step rows e s) rest st).
Proof.
  induction rest as [|e rest IH]; intros seen st H; cbn [fold_left].
  - now rewrite app_nil_r.
  - replace (seen ++ e :: rest) with ((seen ++ [e]) ++ rest)
      by (now rewrite <- app_assoc).
    apply IH. now apply step_grouped.
Qed.

Lemma group_member h rows :
  (1 <= List.length (group h rows))%nat -> In h (map hash rows).
Proof.
  unfold group. rewrite length_map.
  destruct (filter _ rows) as [|r l] eqn:E; [cbn; lia|].
  intros _. assert (Hr : In r (filter (fun r => py_eqb (hash r) h) rows))
    by (rewrite E; now left).
  apply filter_In in Hr as [Hr Hh]. apply py_eqb_eq in Hh. subst h.
  now apply in_map.
Qed.

(** X19.  With [--list-dups], when the hashes of the records behind
    the open cursors are texts without a single quote: the listing
    completes; it prints one list for each hash that at least two
    records carry, and for no other; no hash is printed twice; and the
    list of a hash holds the relpaths of all the records with it, in
    the order of the cursors. *)
Theorem duplicates_are_listed_once w :
  plain_hashes (all_rows w) ->
  exists st,
    list_dups w = Ok st
    /\ groups st = map (fun h => group h (all_rows w)) (dup_hashes st)
    /\ NoDup (dup_hashes st)
    /\ forall h, In h (dup_hashes st)
                 <-> (2 <= List.length (group h (all_rows w)))%nat.
Proof.
  intros Hp. unfold list_dups. rewrite list_dups_plain_loop by exact Hp.
  fold (all_rows w). eexists. split; [reflexivity|].
  destruct (steps_grouped (all_rows w) (all_rows w) [] (Listing [] []))
    as (Hg & Hn & Hin).
  { split; [reflexivity|]. split; [constructor|].
    intros h. split; [intros []|intros [[] _]]. }
  cbn [app] in Hin. split; [exact Hg|]. split; [exact Hn|].
  intros h. split.
  - intros H. now apply Hin in H.
  - intros H. apply Hin. split; [|exact H]. apply group_member. lia.
Qed.

Lemma group_uniform v rows :
  (forall r, In r rows -> hash r = v) -> group v rows = map relpath rows.
Proof.
  intros H. unfold group. f_equal.
  induction rows as [|r rows IH]; [reflexivity|]. cbn [filter].
  rewrite (H r) by (now left). rewrite py_eqb_refl. f_equal.
  apply IH. intros x Hx. apply H. now right.
Qed.

Lemma steps_skip rows v entries st :
  (forall r, In r entries -> hash r = v) ->
  mem py_eqb v (dup_hashes st) = true
  \/ (1 <? List.length (group v rows))%nat = false ->
  fold_left (fun s e => list_step rows e s) entries st = st.
Proof.
  intros Hv Hskip. induction entries as [|e entries IH]; [reflexivity|].
  cbn [fold_left]. unfold list_step at 2. rewrite (Hv e) by (now left).
  destruct Hskip as [-> | Hs].
  - apply IH. intros r Hr. apply Hv. now right.
  - rewrite Hs. destruct (mem py_eqb v (dup_hashes st));
      apply IH; intros r Hr; apply Hv; now right.
Qed.

(** X20.  When every record behind the open cursors carries the same
    hash text (in partial mode the column [hash] always holds the text
    [None]), [--list-dups] prints a single list with the relpaths of
    all the records, or nothing when there are fewer than two. *)
Theorem one_hash_makes_one_group w h :
  (forall r, In r (all_rows w) -> hash r = VText h) ->
  mem_char SQ h = false ->
  list_dups w
  = Ok (if (1 <? List.length (all_rows w))%nat
        then Listing [VText h] [map relpath (all_rows w)]
        else Listing [] []).
Proof.
  intros Hu Hh. unfold list_dups. rewrite list_dups_plain_loop.
  2:{ intros r Hr. exists h. split; [now apply Hu|exact Hh]. }
  fold (all_rows w). f_equal.
  pose proof (group_uniform (VText h) (all_rows w) Hu) as Hg.
  destruct (1 <? List.length (all_rows w))%nat eqn:L.
  - destruct (all_rows w) as [|e rows] eqn:E; [discriminate L|].
    cbn [fold_left]. unfold list_step at 2. cbn [dup_hashes mem existsb].
    rewrite (Hu e) by (now left). rewrite Hg, length_map, L.
    cbn [groups app]. apply (steps_skip _ (VText h)).
    + intros r Hr. apply Hu. now right.
    + left. cbn. now rewrite String.eqb_refl.
  - apply (steps_skip _ (VText h)); [exact Hu|].
    right. now rewrite Hg, length_map.
Qed.

(** ** The properties above on the scenarios *)

Lemma duplicates_are_listed_once_witness :
  exists st,
    list_dups dups_world = Ok st
    /\ groups st = [[VText "x"; VText "z"]]
    /\ NoDup (dup_hashes st).
Proof.
  destruct (duplicates_are_listed_once dups_world) as (st & A & _ & C & _).
  { intros r [<- | [<- | [<- | []]]]; eexists; split; reflexivity. }
  exists st. split; [exact A|]. split; [|exact C].
  assert (E : list_dups dups_world
              = Ok (Listing [VText H1] [[VText "x"; VText "z"]]))
    by (vm_compute; reflexivity).
  rewrite E in A. injection A as <-. reflexivity.
Defined.

Lemma one_hash_makes_one_group_witness :
  list_dups partial_world
  = Ok (Listing [VText "None"] [[VText "a"; VText "b"; VText "c"]]).
Proof.
  apply (one_hash_makes_one_group partial_world "None").
  - intros r [<- | [<- | [<- | []]]]; reflexivity.
  - reflexivity.
Defined.

End DupsProps.

(* ================================================================== *)
(** * Properties of the command line *)
(* ================================================================== *)

Module DriverProps.

Import Sqlite Fingerprint Os Engine Driver Scenarios.

(** X17.  Whatever the options, the block updates or plans.  When it
    plans, both sides are non-empty lists, except when [-g] was given
    with neither a source nor a destination: then both sides are
    [None]. *)
Theorem sides_of_the_planner cwd a :
  parsed (source a) -> parsed (destination a) ->
  (truthy (update (infer cwd a)) = true
   \/ gen_sync_script (infer cwd a) = true)
  /\ (gen_sync_script (infer cwd a) = true ->
      (exists s ss d ds,
         sources cwd (infer cwd a) = Some (s :: ss)
         /\ destinations cwd (infer cwd a) = Some (d :: ds))
      \/ (gen_sync_script a = true /\ source a = None /\ destination a = None
          /\ sources cwd (infer cwd a) = None
          /\ destinations cwd (infer cwd a) = None)).
Proof.
  intros Hs Hd. destruct a as [u g s d]. cbn [source destination] in Hs, Hd.
  destruct s as [[|s1 ss]|]; [now exfalso; apply Hs| |];
    (destruct d as [[|d1 ds]|]; [now exfalso; apply Hd| |]);
    destruct u as [[|u1 us]|], g;
    cbv [infer sources destinations truthy negb andb update gen_sync_script
         source destination];
    (split; [first [now left | now right]|]);
    intros Hg; try discriminate Hg;
    first [ left; do 4 eexists; split; reflexivity
          | right; repeat split; reflexivity ].
Qed.

Lemma sides_of_the_planner_witness :
  (truthy (update (infer "/" (Arguments None false None (Some ["/dst"]))))
   = true
   \/ gen_sync_script (infer "/" (Arguments None false None (Some ["/dst"])))
      = true)
  /\ sources "/" (infer "/" (Arguments None false None (Some ["/dst"])))
     = Some ["/"]
  /\ destinations "/" (infer "/" (Arguments None false None (Some ["/dst"])))
     = Some ["/dst"].
Proof.
  split.
  - exact (proj1 (sides_of_the_planner "/"
                    (Arguments None false None (Some ["/dst"]))
                    ltac:(discriminate) ltac:(discriminate))).
  - split; reflexivity.
Defined.

(** X18.  [-g] with neither [-s] nor [-d]: once the update (if any)
    has completed, the block raises [TypeError], because
    [gen_sync_script] iterates over [None]. *)
Theorem script_request_without_sides_fails md5 o cwd a w w1 :
  gen_sync_script a = true -> source a = None -> destination a = None ->
  match update a with
  | Some (p :: ps) => update_paths md5 o cwd (p :: ps) w
  | _ => Ok w
  end = Ok w1 ->
  main md5 o cwd a w = Raise TypeError.
Proof.
  destruct a as [u g s d]. cbn [update gen_sync_script source destination].
  intros -> -> -> Hu. unfold main, infer.
  cbn [update gen_sync_script source destination].
  rewrite andb_false_r. cbn [update gen_sync_script]. rewrite Hu.
  reflexivity.
Qed.

Lemma script_request_without_sides_fails_witness :
  main Md5.md5 defaults "/" (Arguments None true None None) rename_world
  = Raise TypeError.
Proof.
  apply (script_request_without_sides_fails Md5.md5 defaults "/"
           (Arguments None true None None) rename_world rename_world);
    reflexivity.
Defined.

End DriverProps.

(* ================================================================== *)
(** * Catalogs produced from plain names *)
(* ================================================================== *)

Module FormFacts.

Import Sqlite Fingerprint Os Engine Forms.
Import SqliteFacts FingerprintFacts PlannerFacts EngineFacts EngineRows DictFacts.










Section Run.

Variable md5 : bytes -> N.
Variable o : options.
Variable cwd : string.

(** ** One call of [process_dbpath] *)









(** ** A whole run *)


End Run.

(** ** The catalogs the planner opens *)


(** ** The catalogs the program produces *)




End FormFacts.

Module CatalogClaims.

Import Sqlite Fingerprint Os Engine Forms Scenarios Samples CatalogSamples.
Import SqliteFacts FingerprintFacts PlannerFacts EngineFacts EngineRows FormFacts.















End CatalogClaims.
